(** * RAG index service: a shallow embedding of the HTTP handlers

    This development embeds, in Rocq, the index and document lifecycle
    handlers of [go/internal/httpserver/handlers/rag_indices.go] together
    with the object-store wrapper of [go/internal/minio/client.go], and
    proves properties of them.

    Conventions.
    - A Go [string] is a Rocq [string]: a sequence of 8-bit bytes.
    - A Go [rune] is a [Z].
    - A Go result pair [(v, err)] is a [Result]; a lone [error] result is an
      [option error] with [None] for [nil].
    - The object store, the status table, the logger, the clock and the
      fault behaviour of the remote services form a [World] that every
      effectful function threads explicitly. *)

From Stdlib Require Import ZArith Ascii String List Bool Lia DecimalString.
From stdpp Require Import base option list gmap strings fin_maps.

Local Open Scope string_scope.
Local Open Scope Z_scope.

(** ** Errors and results *)

(** Go [error] values: a leaf built by [errors.New] (or raised by a remote
    service) and the [%w] wrapping of [fmt.Errorf]. *)
Inductive error : Type :=
| errors_New (msg : string)
| fmt_Errorf (msg : string) (wrapped : error).

Inductive Result (A : Type) : Type :=
| Ok (a : A)
| Err (e : error).
Arguments Ok {A} a.
Arguments Err {A} e.

Definition result_to_option {A} (r : Result A) : option A :=
  match r with Ok a => Some a | Err _ => None end.

(** ** Data model of the handlers *)

(** [time.Time], as an instant counted from the epoch. *)
Abbreviation Time := Z.

Record RAGIndex := mkRAGIndex {
  Name : string;
  Description : string;
  CreatedAt : Time
}.

(** The assignment [index.Description = d]. *)
Definition set_Description (d : string) (index : RAGIndex) : RAGIndex :=
  {| Name := Name index; Description := d; CreatedAt := CreatedAt index |}.

Record RAGDocument := mkRAGDocument {
  doc_Name : string;
  doc_Size : Z;
  doc_LastModified : Time;
  doc_Status : string
}.

(** The assignment [doc.Status = status]. *)
Definition set_doc_Status (status : string) (doc : RAGDocument) : RAGDocument :=
  {| doc_Name := doc_Name doc; doc_Size := doc_Size doc;
     doc_LastModified := doc_LastModified doc; doc_Status := status |}.

Record CreateRAGIndexRequest := mkCreateRAGIndexRequest {
  create_Name : string;
  create_Description : string
}.

Record UpdateRAGIndexRequest := mkUpdateRAGIndexRequest {
  update_Description : string
}.

Record UpdateStatusRequest := mkUpdateStatusRequest {
  status_Status : string;
  status_ErrorMsg : string
}.

(** ** The Go standard library, as far as the handlers rely on it

    [encoding/json] on [RAGIndex] and the Unicode case tables are not part
    of the repository; they are taken abstractly.  [unicode_ToLower_Map] is
    [strings.Map(unicode.ToLower, s)], the path [strings.ToLower] takes for
    a string with a byte outside ASCII. *)
Class GoStdlib := {
  json_Marshal : RAGIndex -> Result string;
  json_Unmarshal : string -> Result RAGIndex;
  unicode_ToLower_Map : string -> string
}.

(** ** Strings, bytes and runes *)

Abbreviation rune := Z.

Definition byte_val (a : ascii) : Z := Z.of_N (N_of_ascii a).

(** The bytes of a string, [s[0] .. s[len(s)-1]]. *)
Definition bytes (s : string) : list Z := map byte_val (list_ascii_of_string s).

Definition len (s : string) : Z := Z.of_nat (String.length s).

Definition chr (a : ascii) : rune := byte_val a.

Definition runeSelf : Z := 0x80.
Definition runeError : rune := 0xFFFD.

Definition locb : Z := 0x80.
Definition hicb : Z := 0xBF.

Definition is_cont (b : Z) : bool := (locb <=? b) && (b <=? hicb).

(** [runtime.decoderune] on the suffix [s[k:]]: the decoded rune and the
    number of bytes consumed.  Ill-formed input yields [runeError] and a
    width of one byte. *)
Definition decoderune (s : list Z) : rune * nat :=
  match s with
  | [] => (runeError, 1%nat)
  | s0 :: t =>
    if (0xC0 <=? s0) && (s0 <? 0xE0) then
      match t with
      | s1 :: _ =>
        if is_cont s1 then
          let r := Z.lor (Z.shiftl (Z.land s0 0x1F) 6) (Z.land s1 0x3F) in
          if 0x7F <? r then (r, 2%nat) else (runeError, 1%nat)
        else (runeError, 1%nat)
      | _ => (runeError, 1%nat)
      end
    else if (0xE0 <=? s0) && (s0 <? 0xF0) then
      match t with
      | s1 :: s2 :: _ =>
        if is_cont s1 && is_cont s2 then
          let r := Z.lor (Z.lor (Z.shiftl (Z.land s0 0x0F) 12)
                                (Z.shiftl (Z.land s1 0x3F) 6))
                         (Z.land s2 0x3F) in
          if (0x7FF <? r) && negb ((0xD800 <=? r) && (r <=? 0xDFFF))
          then (r, 3%nat) else (runeError, 1%nat)
        else (runeError, 1%nat)
      | _ => (runeError, 1%nat)
      end
    else if (0xF0 <=? s0) && (s0 <? 0xF8) then
      match t with
      | s1 :: s2 :: s3 :: _ =>
        if is_cont s1 && is_cont s2 && is_cont s3 then
          let r := Z.lor (Z.lor (Z.lor (Z.shiftl (Z.land s0 0x07) 18)
                                       (Z.shiftl (Z.land s1 0x3F) 12))
                                (Z.shiftl (Z.land s2 0x3F) 6))
                         (Z.land s3 0x3F) in
          if (0xFFFF <? r) && (r <=? 0x10FFFF)
          then (r, 4%nat) else (runeError, 1%nat)
        else (runeError, 1%nat)
      | _ => (runeError, 1%nat)
      end
    else (runeError, 1%nat)
  end.

(** The runes visited by [for _, c := range s]: a byte below [runeSelf] is
    its own rune, anything else goes through [decoderune].  [skip] counts
    the bytes of the current rune still to be passed over. *)
Fixpoint range_bytes (s : list Z) (skip : nat) : list rune :=
  match s with
  | [] => []
  | c :: t =>
    match skip with
    | S n => range_bytes t n
    | O =>
      if c <? runeSelf then c :: range_bytes t 0
      else let (r, w) := decoderune s in r :: range_bytes t (w - 1)
    end
  end.

Definition range_string (s : string) : list rune := range_bytes (bytes s) 0.

Definition is_upper_byte (c : Z) : bool := (chr "A" <=? c) && (c <=? chr "Z").

Definition lower_byte (a : ascii) : ascii :=
  if is_upper_byte (byte_val a)
  then ascii_of_N (Z.to_N (byte_val a + (chr "a" - chr "A")))
  else a.

Fixpoint map_string (f : ascii -> ascii) (s : string) : string :=
  match s with
  | EmptyString => EmptyString
  | String a t => String (f a) (map_string f t)
  end.

(** [strings.ToLower]: an ASCII-only string is returned unchanged when it
    has no upper-case letter and lowered byte by byte otherwise; any other
    string is mapped through the Unicode tables. *)
Definition strings_ToLower `{GoStdlib} (s : string) : string :=
  let isASCII := forallb (fun c => c <? runeSelf) (bytes s) in
  let hasUpper := existsb is_upper_byte (bytes s) in
  if isASCII then
    if negb hasUpper then s else map_string lower_byte s
  else unicode_ToLower_Map s.

Definition is_separator (c : Z) : bool := c =? chr "/".

(** [filepath.Ext]: the loop
    [for i := len(path)-1; i >= 0 && !IsPathSeparator(path[i]); i--]
    returning [path[i:]] at the first dot met; [ext_loop path n] has
    [i = n - 1] as its next index. *)
Fixpoint ext_loop (path : string) (n : nat) : string :=
  match n with
  | O => ""
  | S i =>
    match String.get i path with
    | None => ""
    | Some a =>
      if is_separator (byte_val a) then ""
      else if byte_val a =? chr "." then String.substring i (String.length path - i) path
      else ext_loop path i
    end
  end.

Definition filepath_Ext (path : string) : string := ext_loop path (String.length path).

(** ** Name validation *)

Definition isAlphanumeric (c : rune) : bool :=
  ((c >=? chr "a") && (c <=? chr "z")) || ((c >=? chr "0") && (c <=? chr "9")).

(** First and last byte of a non-empty string, [name[0]] and
    [name[len(name)-1]]. *)
Definition first_byte (s : string) : Z := hd 0 (bytes s).
Definition last_byte (s : string) : Z := List.last (bytes s) 0.

Definition isValidIndexName `{GoStdlib} (name : string) : bool :=
  if (len name =? 0) || (len name >? 63) then false
  else if negb (isAlphanumeric (first_byte name)) || negb (isAlphanumeric (last_byte name))
  then false
  else if existsb (fun c => negb (isAlphanumeric c) && negb (c =? chr "-")) (range_string name)
  then false
  else String.eqb name (strings_ToLower name).

(** ** The naming rule in the words of the specification *)

Definition lower_alnum (c : rune) : Prop :=
  (chr "a" <= c <= chr "z") \/ (chr "0" <= c <= chr "9").

Definition name_char (c : rune) : Prop := lower_alnum c \/ c = chr "-".

Definition upper_letter (c : rune) : Prop := chr "A" <= c <= chr "Z".

(** "1-63 characters of lowercase alphanumerics and hyphens that starts and
    ends with an alphanumeric", the characters of a string being the code
    points a [range] loop visits. *)
Definition valid_name_spec (name : string) : Prop :=
  let cs := range_string name in
  (1 <= length cs <= 63)%nat /\
  Forall name_char cs /\
  (exists c, head cs = Some c /\ lower_alnum c) /\
  (exists c, last cs = Some c /\ lower_alnum c).

(** ** The world the handlers run in *)

(** An object as the store keeps it. *)
Record Object := mkObject {
  obj_data : string;
  obj_size : Z;
  obj_contentType : string;
  obj_lastModified : Time
}.

(** A bucket: its objects by key and the event hook armed on it, if any. *)
Record Bucket := mkBucket {
  objects : gmap string Object;
  notification : option string
}.

(** [database.DocumentStatus].  The ID is a UUID string in the code; here it
    is the serial number of the [uuid.New] call that produced it. *)
Record DocumentStatus := mkDocumentStatus {
  ID : nat;
  IndexName : string;
  Filename : string;
  Status : string;
  ErrorMsg : string
}.

Inductive LogEntry : Type :=
| log_error (err : error) (msg : string)
| log_info (msg : string).

(** [faults] is the schedule of the remote services: every call to the
    object store or to the status table consumes one entry, and [Some e]
    makes that call fail with [e] and leave the stores untouched.  An
    exhausted schedule means no further fault. *)
Record World := mkWorld {
  buckets : gmap string Bucket;
  statuses : gmap (string * string) DocumentStatus;
  faults : list (option error);
  clock : Time;
  uuids : nat;
  logs : list LogEntry
}.

Definition set_buckets (f : gmap string Bucket -> gmap string Bucket) (w : World) : World :=
  mkWorld (f (buckets w)) (statuses w) (faults w) (clock w) (uuids w) (logs w).

Definition set_statuses
    (f : gmap (string * string) DocumentStatus -> gmap (string * string) DocumentStatus)
    (w : World) : World :=
  mkWorld (buckets w) (f (statuses w)) (faults w) (clock w) (uuids w) (logs w).

Definition set_faults (fs : list (option error)) (w : World) : World :=
  mkWorld (buckets w) (statuses w) fs (clock w) (uuids w) (logs w).

Definition fault_free (w : World) : Prop := Forall (fun f => f = None) (faults w).

(** *** State passing *)

Definition M (A : Type) : Type := World -> A * World.

Definition ret {A} (a : A) : M A := fun w => (a, w).

Definition bind {A B} (m : M A) (k : A -> M B) : M B :=
  fun w => let (a, w') := m w in k a w'.

Notation "x <- m ;; k" := (bind m (fun x => k))
  (at level 100, m at next level, k at level 200, only parsing).
Notation "m ;; k" := (bind m (fun _ => k))
  (at level 100, k at level 200, only parsing).

Definition gets {A} (f : World -> A) : M A := fun w => (f w, w).
Definition modify (f : World -> World) : M unit := fun w => (tt, f w).

(** The next entry of the fault schedule. *)
Definition fault : M (option error) := fun w =>
  (hd None (faults w), set_faults (tl (faults w)) w).

(** [time.Now().UTC()]; the clock moves on with every reading. *)
Definition time_Now : M Time := fun w =>
  (clock w, mkWorld (buckets w) (statuses w) (faults w) (clock w + 1) (uuids w) (logs w)).

(** [uuid.New()] *)
Definition uuid_New : M nat := fun w =>
  (uuids w, mkWorld (buckets w) (statuses w) (faults w) (clock w) (S (uuids w)) (logs w)).

Definition log_Error (err : error) (msg : string) : M unit := fun w =>
  (tt, mkWorld (buckets w) (statuses w) (faults w) (clock w) (uuids w)
               (logs w ++ [log_error err msg])).

Definition log_Info (msg : string) : M unit := fun w =>
  (tt, mkWorld (buckets w) (statuses w) (faults w) (clock w) (uuids w)
               (logs w ++ [log_info msg])).

(** *** The remote object store

    The calls of the [minio-go] SDK the wrapper uses, with the behaviour of
    an S3 store: a bucket must exist to be written to, listed or removed,
    must be empty to be removed, and removing an absent key succeeds.

    A call fails when the schedule says so.  The failures of the schedule
    stand for every error the SDK returns, those included that it raises on
    its own before a request is sent: it refuses a bucket name shorter than
    3 or longer than 63 bytes, for one.  Which names it refuses is not
    modelled.  A bucket of the store has a name the SDK accepts; for a name
    that is not known to be a bucket of the store, the answer of a call is
    therefore a matter of hypothesis, not of the absence of faults. *)

Definition errNoSuchBucket : error := errors_New "The specified bucket does not exist".
Definition errNoSuchKey : error := errors_New "The specified key does not exist.".
Definition errBucketNotEmpty : error := errors_New "The bucket you tried to delete is not empty".
Definition errBucketAlreadyOwnedByYou : error :=
  errors_New "Your previous request to create the named bucket succeeded and you already own it.".

Record sdk_ObjectInfo := mkSdkObjectInfo {
  oi_Key : string;
  oi_Size : Z;
  oi_ContentType : string;
  oi_LastModified : Time
}.

Record sdk_BucketInfo := mkSdkBucketInfo { bi_Name : string }.

Definition sdk_BucketExists (bucketName : string) : M (Result bool) :=
  f <- fault ;;
  match f with
  | Some e => ret (Err e)
  | None =>
    bs <- gets buckets ;;
    ret (Ok (bool_decide (is_Some (bs !! bucketName))))
  end.

Definition sdk_MakeBucket (bucketName : string) : M (option error) :=
  f <- fault ;;
  match f with
  | Some e => ret (Some e)
  | None =>
    bs <- gets buckets ;;
    match bs !! bucketName with
    | Some _ => ret (Some errBucketAlreadyOwnedByYou)
    | None => modify (set_buckets (insert bucketName (mkBucket ∅ None))) ;; ret None
    end
  end.

Definition object_info (kv : string * Object) : sdk_ObjectInfo :=
  mkSdkObjectInfo (fst kv) (obj_size (snd kv)) (obj_contentType (snd kv))
                  (obj_lastModified (snd kv)).

(** The items delivered on the channel of a recursive [ListObjects]: the
    objects whose key starts with [prefix], or a single item carrying the
    error. *)
Definition sdk_ListObjects (bucketName prefix : string) : M (list (Result sdk_ObjectInfo)) :=
  f <- fault ;;
  match f with
  | Some e => ret [Err e]
  | None =>
    bs <- gets buckets ;;
    match bs !! bucketName with
    | None => ret [Err errNoSuchBucket]
    | Some b =>
      ret (map (fun kv => Ok (object_info kv))
               (List.filter (fun kv => String.prefix prefix (fst kv))
                            (map_to_list (objects b))))
    end
  end.

Definition sdk_RemoveObject (bucketName objectName : string) : M (option error) :=
  f <- fault ;;
  match f with
  | Some e => ret (Some e)
  | None =>
    bs <- gets buckets ;;
    match bs !! bucketName with
    | None => ret (Some errNoSuchBucket)
    | Some b =>
      modify (set_buckets (insert bucketName
                (mkBucket (delete objectName (objects b)) (notification b)))) ;;
      ret None
    end
  end.

Definition sdk_RemoveBucket (bucketName : string) : M (option error) :=
  f <- fault ;;
  match f with
  | Some e => ret (Some e)
  | None =>
    bs <- gets buckets ;;
    match bs !! bucketName with
    | None => ret (Some errNoSuchBucket)
    | Some b =>
      if bool_decide (objects b = ∅)
      then modify (set_buckets (delete bucketName)) ;; ret None
      else ret (Some errBucketNotEmpty)
    end
  end.

Definition sdk_PutObject (bucketName objectName data : string) (size : Z)
    (contentType : string) : M (option error) :=
  f <- fault ;;
  match f with
  | Some e => ret (Some e)
  | None =>
    bs <- gets buckets ;;
    match bs !! bucketName with
    | None => ret (Some errNoSuchBucket)
    | Some b =>
      now <- gets clock ;;
      modify (set_buckets (insert bucketName
                (mkBucket (<[objectName := mkObject data size contentType now]> (objects b))
                          (notification b)))) ;;
      ret None
    end
  end.

(** [GetObject] hands out a reader on [(bucket, key)]; the store is only
    contacted when the reader is read. *)
Definition sdk_GetObject (bucketName objectName : string) : M (Result (string * string)) :=
  f <- fault ;;
  match f with
  | Some e => ret (Err e)
  | None => ret (Ok (bucketName, objectName))
  end.

Definition io_ReadAll (obj : string * string) : M (Result string) :=
  f <- fault ;;
  match f with
  | Some e => ret (Err e)
  | None =>
    bs <- gets buckets ;;
    match bs !! fst obj with
    | None => ret (Err errNoSuchBucket)
    | Some b =>
      match objects b !! snd obj with
      | None => ret (Err errNoSuchKey)
      | Some o => ret (Ok (obj_data o))
      end
    end
  end.

Definition sdk_ListBuckets : M (Result (list sdk_BucketInfo)) :=
  f <- fault ;;
  match f with
  | Some e => ret (Err e)
  | None =>
    bs <- gets buckets ;;
    ret (Ok (map (fun kv => mkSdkBucketInfo (fst kv)) (map_to_list bs)))
  end.

Definition sdk_SetBucketNotification (bucketName config : string) : M (option error) :=
  f <- fault ;;
  match f with
  | Some e => ret (Some e)
  | None =>
    bs <- gets buckets ;;
    match bs !! bucketName with
    | None => ret (Some errNoSuchBucket)
    | Some b =>
      modify (set_buckets (insert bucketName (mkBucket (objects b) (Some config)))) ;;
      ret None
    end
  end.

(** ** The object-store wrapper ([internal/minio/client.go]) *)

(** [minio.Client], the receiver of the wrapper's methods. *)
Inductive minio_Client : Type := mkClient.

Definition CreateBucket (c : minio_Client) (bucketName : string) : M (option error) :=
  r <- sdk_BucketExists bucketName ;;
  match r with
  | Err err => ret (Some (fmt_Errorf "failed to check bucket existence" err))
  | Ok true => ret None
  | Ok false =>
    err <- sdk_MakeBucket bucketName ;;
    match err with
    | Some err => ret (Some (fmt_Errorf "failed to create bucket" err))
    | None => ret None
    end
  end.

(** The loop of [DeleteBucket] over the listing channel. *)
Fixpoint DeleteBucket_loop (bucketName : string) (objectsCh : list (Result sdk_ObjectInfo))
    : M (option error) :=
  match objectsCh with
  | [] => ret None
  | Err e :: _ => ret (Some (fmt_Errorf "failed to list objects" e))
  | Ok object :: rest =>
    err <- sdk_RemoveObject bucketName (oi_Key object) ;;
    match err with
    | Some err =>
      ret (Some (fmt_Errorf ("failed to remove object " +:+ oi_Key object) err))
    | None => DeleteBucket_loop bucketName rest
    end
  end.

Definition DeleteBucket (c : minio_Client) (bucketName : string) : M (option error) :=
  objectsCh <- sdk_ListObjects bucketName "" ;;
  err <- DeleteBucket_loop bucketName objectsCh ;;
  match err with
  | Some err => ret (Some err)
  | None =>
    err <- sdk_RemoveBucket bucketName ;;
    match err with
    | Some err => ret (Some (fmt_Errorf "failed to remove bucket" err))
    | None => ret None
    end
  end.

Definition UploadFile (c : minio_Client) (bucketName objectName reader : string) (size : Z)
    (contentType : string) : M (option error) :=
  err <- sdk_PutObject bucketName objectName reader size contentType ;;
  match err with
  | Some err => ret (Some (fmt_Errorf "failed to upload file" err))
  | None => ret None
  end.

Definition DeleteFile (c : minio_Client) (bucketName objectName : string) : M (option error) :=
  err <- sdk_RemoveObject bucketName objectName ;;
  match err with
  | Some err => ret (Some (fmt_Errorf "failed to delete file" err))
  | None => ret None
  end.

Definition BucketExists (c : minio_Client) (bucketName : string) : M (Result bool) :=
  sdk_BucketExists bucketName.

Definition ListBuckets (c : minio_Client) : M (Result (list string)) :=
  r <- sdk_ListBuckets ;;
  match r with
  | Err err => ret (Err (fmt_Errorf "failed to list buckets" err))
  | Ok bs => ret (Ok (map bi_Name bs))
  end.

Definition GetObject (c : minio_Client) (bucketName objectName : string) : M (Result string) :=
  r <- sdk_GetObject bucketName objectName ;;
  match r with
  | Err err => ret (Err (fmt_Errorf "failed to get object" err))
  | Ok obj =>
    r <- io_ReadAll obj ;;
    match r with
    | Err err => ret (Err (fmt_Errorf "failed to read object" err))
    | Ok data => ret (Ok data)
    end
  end.

Definition PutObjectBytes (c : minio_Client) (bucketName objectName data contentType : string)
    : M (option error) :=
  err <- sdk_PutObject bucketName objectName data (len data) contentType ;;
  match err with
  | Some err => ret (Some (fmt_Errorf "failed to put object" err))
  | None => ret None
  end.

Record ObjectInfo := mkObjectInfo {
  info_Name : string;
  info_Size : Z;
  info_ContentType : string;
  info_LastModified : Time
}.

Fixpoint ListObjectsInfo_loop (objectsCh : list (Result sdk_ObjectInfo))
    (objs : list ObjectInfo) : Result (list ObjectInfo) :=
  match objectsCh with
  | [] => Ok objs
  | Err e :: _ => Err (fmt_Errorf "failed to list objects" e)
  | Ok object :: rest =>
    ListObjectsInfo_loop rest
      (objs ++ [mkObjectInfo (oi_Key object) (oi_Size object) (oi_ContentType object)
                             (oi_LastModified object)])
  end.

Definition ListObjectsInfo (c : minio_Client) (bucketName prefix : string)
    : M (Result (list ObjectInfo)) :=
  objectsCh <- sdk_ListObjects bucketName prefix ;;
  ret (ListObjectsInfo_loop objectsCh []).

(** Modelled from the spec: [SetBucketNotification] of the wrapper, which
    is absent from the wrapper's source at hand.  It "arms a bucket-level
    event hook identified by a fixed suffix token"; re-arming is idempotent
    and the hook goes away with the bucket. *)
Definition SetBucketNotification (c : minio_Client) (bucketName suffix : string)
    : M (option error) :=
  err <- sdk_SetBucketNotification bucketName suffix ;;
  match err with
  | Some err => ret (Some (fmt_Errorf "failed to set bucket notification" err))
  | None => ret None
  end.

(** ** The status table ([DatabaseService]) *)

(** Modelled from the spec: the status store, whose implementation
    ([pkg/database]) is absent.  It is a "relational table keyed by (index,
    filename) holding per-document processing status"; a row is "created as
    pending at upload time", the status-update call "upserts the status
    row", and rows are "removed when the document or the whole index is
    removed".  Every call can fail on a storage-layer fault. *)
Definition StoreDocumentStatus (docStatus : DocumentStatus) : M (option error) :=
  f <- fault ;;
  match f with
  | Some e => ret (Some e)
  | None =>
    modify (set_statuses (insert (IndexName docStatus, Filename docStatus) docStatus)) ;;
    ret None
  end.

(** Modelled from the spec: the upsert of a status row, absent like the
    rest of the status store.  An existing row keeps its ID and takes the
    new status and error message; a missing row is created. *)
Definition UpdateDocumentStatus (indexName filename status errorMsg : string)
    : M (option error) :=
  f <- fault ;;
  match f with
  | Some e => ret (Some e)
  | None =>
    rows <- gets statuses ;;
    match rows !! (indexName, filename) with
    | Some row =>
      modify (set_statuses (insert (indexName, filename)
                (mkDocumentStatus (ID row) indexName filename status errorMsg))) ;;
      ret None
    | None =>
      id <- uuid_New ;;
      modify (set_statuses (insert (indexName, filename)
                (mkDocumentStatus id indexName filename status errorMsg))) ;;
      ret None
    end
  end.

(** Modelled from the spec: removal of one status row; removing a row that
    is not there is not a fault. *)
Definition DeleteDocumentStatus (indexName filename : string) : M (option error) :=
  f <- fault ;;
  match f with
  | Some e => ret (Some e)
  | None => modify (set_statuses (delete (indexName, filename))) ;; ret None
  end.

(** Modelled from the spec: removal of all the status rows of an index. *)
Definition DeleteDocumentStatusesForIndex (indexName : string) : M (option error) :=
  f <- fault ;;
  match f with
  | Some e => ret (Some e)
  | None =>
    modify (set_statuses (filter (fun kv => fst (fst kv) ≠ indexName))) ;;
    ret None
  end.

(** Modelled from the spec: the status rows of an index. *)
Definition ListDocumentStatusesForIndex (indexName : string)
    : M (Result (list DocumentStatus)) :=
  f <- fault ;;
  match f with
  | Some e => ret (Err e)
  | None =>
    rows <- gets statuses ;;
    ret (Ok (map snd (map_to_list (filter (fun kv => fst (fst kv) = indexName) rows))))
  end.

(** ** Requests and responses *)

(** Modelled from the spec: the error constructors of
    [internal/httpserver/errors], which are absent.  The taxonomy is
    [BadRequest] (400), [NotFound] (404), [Conflict] (409) and
    [InternalServerError] (500); each carries a message and the error it
    reports, if any. *)
Inductive ErrorKind : Type := BadRequest | NotFound | Conflict | InternalServerError.

Record APIError := mkAPIError {
  Kind : ErrorKind;
  Message : string;
  Cause : option error
}.

Definition NewBadRequestError (msg : string) (err : option error) : APIError :=
  mkAPIError BadRequest msg err.
Definition NewNotFoundError (msg : string) (err : option error) : APIError :=
  mkAPIError NotFound msg err.
Definition NewConflictError (msg : string) (err : option error) : APIError :=
  mkAPIError Conflict msg err.
Definition NewInternalServerError (msg : string) (err : option error) : APIError :=
  mkAPIError InternalServerError msg err.

Definition StatusCode (k : ErrorKind) : Z :=
  match k with
  | BadRequest => 400
  | NotFound => 404
  | Conflict => 409
  | InternalServerError => 500
  end.

Definition http_StatusOK : Z := 200.
Definition http_StatusCreated : Z := 201.

(** The [data] handed to [api.NewResponse] by the handlers. *)
Inductive Payload : Type :=
| data_indices (indices : list RAGIndex)
| data_index (index : RAGIndex)
| data_documents (documents : list RAGDocument)
| data_document (doc : RAGDocument)
| data_empty.

Record StandardResponse := mkStandardResponse {
  resp_Data : Payload;
  resp_Message : string;
  resp_Error : bool
}.

Definition api_NewResponse (data : Payload) (message : string) (err : bool) : StandardResponse :=
  mkStandardResponse data message err.

(** What a handler writes to its [ErrorResponseWriter]. *)
Inductive Response : Type :=
| RespondWithError (e : APIError)
| RespondWithJSON (code : Z) (body : StandardResponse).

(** [multipart.FileHeader]: the file name, the size and the [Content-Type]
    header of the uploaded part. *)
Record FileHeader := mkFileHeader {
  fh_Filename : string;
  fh_Size : Z;
  fh_ContentType : string
}.

(** An [http.Request] as the handlers see it through [GetPathParam],
    [DecodeJSONBody], [ParseMultipartForm] and [FormFile]: the outcome of
    each of these on the request. *)
Record Request := mkRequest {
  req_PathParam : string -> Result string;
  req_CreateBody : Result CreateRAGIndexRequest;
  req_UpdateBody : Result UpdateRAGIndexRequest;
  req_StatusBody : Result UpdateStatusRequest;
  req_ParseMultipartForm : option error;
  req_FormFile : Result (string * FileHeader)
}.

Definition GetPathParam (r : Request) (name : string) : Result string := req_PathParam r name.

(** ** The handlers ([internal/httpserver/handlers/rag_indices.go]) *)

Definition metadataFile : string := ".metadata.json".

Definition supportedExtensions : gmap string bool :=
  list_to_map [(".txt", true); (".md", true); (".json", true);
               (".csv", true); (".docx", true); (".pdf", true)].

(** Indexing a Go map: the zero value for an absent key. *)
Definition map_index (m : gmap string bool) (k : string) : bool := default false (m !! k).

Record RAGIndicesHandler := mkRAGIndicesHandler {
  MinioClient : option minio_Client
}.

Section Handlers.
Context `{GoStdlib}.

Definition getIndexMetadata (c : minio_Client) (bucketName : string) : M (Result RAGIndex) :=
  r <- GetObject c bucketName metadataFile ;;
  match r with
  | Err err => ret (Err (fmt_Errorf "failed to get metadata" err))
  | Ok data =>
    match json_Unmarshal data with
    | Err err => ret (Err (fmt_Errorf "failed to parse metadata" err))
    | Ok index => ret (Ok index)
    end
  end.

Definition putIndexMetadata (c : minio_Client) (bucketName : string) (index : RAGIndex)
    : M (option error) :=
  match json_Marshal index with
  | Err err => ret (Some (fmt_Errorf "failed to serialize metadata" err))
  | Ok data =>
    err <- PutObjectBytes c bucketName metadataFile data "application/json" ;;
    match err with
    | Some err => ret (Some (fmt_Errorf "failed to store metadata" err))
    | None => ret None
    end
  end.

(** The loop of [HandleListRAGIndices] over the bucket names. *)
Fixpoint ListRAGIndices_loop (c : minio_Client) (bucketNames : list string)
    (indices : list RAGIndex) : M (list RAGIndex) :=
  match bucketNames with
  | [] => ret indices
  | bucket :: rest =>
    r <- getIndexMetadata c bucket ;;
    match r with
    | Err _ => ListRAGIndices_loop c rest indices
    | Ok metadata => ListRAGIndices_loop c rest (indices ++ [metadata])
    end
  end.

Definition HandleListRAGIndices (h : RAGIndicesHandler) (r : Request) : M Response :=
  match MinioClient h with
  | None =>
    ret (RespondWithError (NewInternalServerError "MinIO client not configured" None))
  | Some c =>
    bs <- ListBuckets c ;;
    match bs with
    | Err err =>
      log_Error err "Failed to list buckets" ;;
      ret (RespondWithError (NewInternalServerError "Failed to list indices" (Some err)))
    | Ok bucketNames =>
      indices <- ListRAGIndices_loop c bucketNames [] ;;
      log_Info "Successfully listed RAG indices" ;;
      ret (RespondWithJSON http_StatusOK
             (api_NewResponse (data_indices indices) "Successfully listed RAG indices" false))
    end
  end.

Definition HandleCreateRAGIndex (h : RAGIndicesHandler) (r : Request) : M Response :=
  match MinioClient h with
  | None =>
    ret (RespondWithError (NewInternalServerError "MinIO client not configured" None))
  | Some c =>
    match req_CreateBody r with
    | Err err => ret (RespondWithError (NewBadRequestError "Invalid request body" (Some err)))
    | Ok req =>
      if String.eqb (create_Name req) "" then
        ret (RespondWithError (NewBadRequestError "Index name is required" None))
      else if negb (isValidIndexName (create_Name req)) then
        ret (RespondWithError (NewBadRequestError
               "Index name must be lowercase alphanumeric with hyphens only" None))
      else
        ex <- BucketExists c (create_Name req) ;;
        match ex with
        | Err err =>
          log_Error err "Failed to check bucket existence" ;;
          ret (RespondWithError (NewInternalServerError "Failed to check index" (Some err)))
        | Ok true =>
          ret (RespondWithError (NewConflictError
                 ("RAG index '" +:+ create_Name req +:+ "' already exists") None))
        | Ok false =>
          err <- CreateBucket c (create_Name req) ;;
          match err with
          | Some err =>
            log_Error err "Failed to create bucket" ;;
            ret (RespondWithError (NewInternalServerError "Failed to create index" (Some err)))
          | None =>
            err <- SetBucketNotification c (create_Name req) "KAGENT" ;;
            match err with
            | Some err =>
              log_Error err "Failed to set bucket notification" ;;
              _ <- DeleteBucket c (create_Name req) ;;
              ret (RespondWithError (NewInternalServerError
                     "Failed to configure index notifications" (Some err)))
            | None =>
              now <- time_Now ;;
              let index := mkRAGIndex (create_Name req) (create_Description req) now in
              err <- putIndexMetadata c (create_Name req) index ;;
              match err with
              | Some err =>
                log_Error err "Failed to store metadata" ;;
                _ <- DeleteBucket c (create_Name req) ;;
                ret (RespondWithError (NewInternalServerError
                       "Failed to create index metadata" (Some err)))
              | None =>
                log_Info "Successfully created RAG index" ;;
                ret (RespondWithJSON http_StatusCreated
                       (api_NewResponse (data_index index) "Successfully created RAG index" false))
              end
            end
          end
        end
    end
  end.

Definition HandleDeleteRAGIndex (h : RAGIndicesHandler) (r : Request) : M Response :=
  match MinioClient h with
  | None =>
    ret (RespondWithError (NewInternalServerError "MinIO client not configured" None))
  | Some c =>
    match GetPathParam r "name" with
    | Err err =>
      ret (RespondWithError (NewBadRequestError "Failed to get index name from path" (Some err)))
    | Ok indexName =>
      ex <- BucketExists c indexName ;;
      match ex with
      | Err err =>
        log_Error err "Failed to check bucket existence" ;;
        ret (RespondWithError (NewInternalServerError "Failed to check index" (Some err)))
      | Ok false => ret (RespondWithError (NewNotFoundError "RAG index not found" None))
      | Ok true =>
        err <- DeleteBucket c indexName ;;
        match err with
        | Some err =>
          log_Error err "Failed to delete bucket" ;;
          ret (RespondWithError (NewInternalServerError "Failed to delete index" (Some err)))
        | None =>
          err <- DeleteDocumentStatusesForIndex indexName ;;
          match err with
          | Some err => log_Error err "Failed to delete document statuses"
          | None => ret tt
          end ;;
          log_Info "Successfully deleted RAG index" ;;
          ret (RespondWithJSON http_StatusOK
                 (api_NewResponse data_empty "Successfully deleted RAG index" false))
        end
      end
    end
  end.

Definition HandleUpdateRAGIndex (h : RAGIndicesHandler) (r : Request) : M Response :=
  match MinioClient h with
  | None =>
    ret (RespondWithError (NewInternalServerError "MinIO client not configured" None))
  | Some c =>
    match GetPathParam r "name" with
    | Err err =>
      ret (RespondWithError (NewBadRequestError "Failed to get index name from path" (Some err)))
    | Ok indexName =>
      match req_UpdateBody r with
      | Err err => ret (RespondWithError (NewBadRequestError "Invalid request body" (Some err)))
      | Ok req =>
        m <- getIndexMetadata c indexName ;;
        match m with
        | Err err =>
          log_Error err "Failed to get index metadata" ;;
          ret (RespondWithError (NewNotFoundError "RAG index not found" (Some err)))
        | Ok metadata =>
          let metadata := set_Description (update_Description req) metadata in
          err <- putIndexMetadata c indexName metadata ;;
          match err with
          | Some err =>
            log_Error err "Failed to update metadata" ;;
            ret (RespondWithError (NewInternalServerError "Failed to update index" (Some err)))
          | None =>
            log_Info "Successfully updated RAG index" ;;
            ret (RespondWithJSON http_StatusOK
                   (api_NewResponse (data_index metadata) "Successfully updated RAG index" false))
          end
        end
      end
    end
  end.

(** The first loop of [HandleListDocuments]: the map from file name to
    status. *)
Definition statusMap_of (statuses : list DocumentStatus) : gmap string string :=
  foldl (fun statusMap s => <[Filename s := Status s]> statusMap) ∅ statuses.

(** The second loop of [HandleListDocuments]: drop the metadata object and
    attach the status where the map has one.  (In the handler, a failed
    listing of the status rows leaves [statuses] the nil slice.) *)
Fixpoint ListDocuments_loop (statusMap : gmap string string) (objs : list ObjectInfo)
    (documents : list RAGDocument) : list RAGDocument :=
  match objs with
  | [] => documents
  | obj :: rest =>
    if String.eqb (info_Name obj) metadataFile then ListDocuments_loop statusMap rest documents
    else
      let doc := mkRAGDocument (info_Name obj) (info_Size obj) (info_LastModified obj) "" in
      let doc :=
        match statusMap !! info_Name obj with
        | Some status => set_doc_Status status doc
        | None => doc
        end in
      ListDocuments_loop statusMap rest (documents ++ [doc])
  end.

Definition HandleListDocuments (h : RAGIndicesHandler) (r : Request) : M Response :=
  match MinioClient h with
  | None =>
    ret (RespondWithError (NewInternalServerError "MinIO client not configured" None))
  | Some c =>
    match GetPathParam r "name" with
    | Err err =>
      ret (RespondWithError (NewBadRequestError "Failed to get index name from path" (Some err)))
    | Ok indexName =>
      ex <- BucketExists c indexName ;;
      match ex with
      | Err err =>
        log_Error err "Failed to check bucket existence" ;;
        ret (RespondWithError (NewInternalServerError "Failed to check index" (Some err)))
      | Ok false => ret (RespondWithError (NewNotFoundError "RAG index not found" None))
      | Ok true =>
        objs <- ListObjectsInfo c indexName "" ;;
        match objs with
        | Err err =>
          log_Error err "Failed to list objects" ;;
          ret (RespondWithError (NewInternalServerError "Failed to list documents" (Some err)))
        | Ok objs =>
          sts <- ListDocumentStatusesForIndex indexName ;;
          statuses <-
            match sts with
            | Err err => log_Error err "Failed to list document statuses" ;; ret []
            | Ok statuses => ret statuses
            end ;;
          let statusMap := statusMap_of statuses in
          let documents := ListDocuments_loop statusMap objs [] in
          log_Info "Successfully listed documents" ;;
          ret (RespondWithJSON http_StatusOK
                 (api_NewResponse (data_documents documents) "Successfully listed documents" false))
        end
      end
    end
  end.

Definition HandleUploadDocument (h : RAGIndicesHandler) (r : Request) : M Response :=
  match MinioClient h with
  | None =>
    ret (RespondWithError (NewInternalServerError "MinIO client not configured" None))
  | Some c =>
    match GetPathParam r "name" with
    | Err err =>
      ret (RespondWithError (NewBadRequestError "Failed to get index name from path" (Some err)))
    | Ok indexName =>
      ex <- BucketExists c indexName ;;
      match ex with
      | Err err =>
        log_Error err "Failed to check bucket existence" ;;
        ret (RespondWithError (NewInternalServerError "Failed to check index" (Some err)))
      | Ok false => ret (RespondWithError (NewNotFoundError "RAG index not found" None))
      | Ok true =>
        match req_ParseMultipartForm r with
        | Some err =>
          ret (RespondWithError (NewBadRequestError "Failed to parse form" (Some err)))
        | None =>
          match req_FormFile r with
          | Err err =>
            ret (RespondWithError (NewBadRequestError "Missing file in request" (Some err)))
          | Ok (file, handler) =>
            if String.eqb (fh_Filename handler) metadataFile then
              ret (RespondWithError
                     (NewBadRequestError "Cannot upload file with reserved name" None))
            else
              let ext := strings_ToLower (filepath_Ext (fh_Filename handler)) in
              if negb (map_index supportedExtensions ext) then
                ret (RespondWithError (NewBadRequestError
                       ("Unsupported file type '" +:+ ext +:+
                        "'. Supported types: .txt, .md, .json, .csv, .docx, .pdf") None))
              else
                let contentType :=
                  if String.eqb (fh_ContentType handler) "" then "application/octet-stream"
                  else fh_ContentType handler in
                err <- UploadFile c indexName (fh_Filename handler) file (fh_Size handler)
                                  contentType ;;
                match err with
                | Some err =>
                  log_Error err "Failed to upload file to MinIO" ;;
                  ret (RespondWithError
                         (NewInternalServerError "Failed to upload file" (Some err)))
                | None =>
                  id <- uuid_New ;;
                  let docStatus :=
                    mkDocumentStatus id indexName (fh_Filename handler) "pending" "" in
                  err <- StoreDocumentStatus docStatus ;;
                  match err with
                  | Some err => log_Error err "Failed to store document status"
                  | None => ret tt
                  end ;;
                  now <- time_Now ;;
                  let doc :=
                    mkRAGDocument (fh_Filename handler) (fh_Size handler) now "pending" in
                  log_Info "Successfully uploaded document" ;;
                  ret (RespondWithJSON http_StatusCreated
                         (api_NewResponse (data_document doc) "Successfully uploaded document"
                                          false))
                end
          end
        end
      end
    end
  end.

Definition HandleDeleteDocument (h : RAGIndicesHandler) (r : Request) : M Response :=
  match MinioClient h with
  | None =>
    ret (RespondWithError (NewInternalServerError "MinIO client not configured" None))
  | Some c =>
    match GetPathParam r "name" with
    | Err err =>
      ret (RespondWithError (NewBadRequestError "Failed to get index name from path" (Some err)))
    | Ok indexName =>
      match GetPathParam r "filename" with
      | Err err =>
        ret (RespondWithError (NewBadRequestError "Failed to get filename from path" (Some err)))
      | Ok filename =>
        ex <- BucketExists c indexName ;;
        match ex with
        | Err err =>
          log_Error err "Failed to check bucket existence" ;;
          ret (RespondWithError (NewInternalServerError "Failed to check index" (Some err)))
        | Ok false => ret (RespondWithError (NewNotFoundError "RAG index not found" None))
        | Ok true =>
          if String.eqb filename metadataFile then
            ret (RespondWithError (NewBadRequestError "Cannot delete reserved file" None))
          else
            err <- DeleteFile c indexName filename ;;
            match err with
            | Some err =>
              log_Error err "Failed to delete file from MinIO" ;;
              ret (RespondWithError
                     (NewInternalServerError "Failed to delete document" (Some err)))
            | None =>
              err <- DeleteDocumentStatus indexName filename ;;
              match err with
              | Some err => log_Error err "Failed to delete document status"
              | None => ret tt
              end ;;
              log_Info "Successfully deleted document" ;;
              ret (RespondWithJSON http_StatusOK
                     (api_NewResponse data_empty "Successfully deleted document" false))
            end
        end
      end
    end
  end.

Definition HandleUpdateDocumentStatus (h : RAGIndicesHandler) (r : Request) : M Response :=
  match GetPathParam r "name" with
  | Err err =>
    ret (RespondWithError (NewBadRequestError "Failed to get index name from path" (Some err)))
  | Ok indexName =>
    match GetPathParam r "filename" with
    | Err err =>
      ret (RespondWithError (NewBadRequestError "Failed to get filename from path" (Some err)))
    | Ok filename =>
      match req_StatusBody r with
      | Err err => ret (RespondWithError (NewBadRequestError "Invalid request body" (Some err)))
      | Ok req =>
        if String.eqb (status_Status req) "" then
          ret (RespondWithError (NewBadRequestError "Status is required" None))
        else
          err <- UpdateDocumentStatus indexName filename (status_Status req)
                                      (status_ErrorMsg req) ;;
          match err with
          | Some err =>
            log_Error err "Failed to update document status" ;;
            ret (RespondWithError
                   (NewInternalServerError "Failed to update document status" (Some err)))
          | None =>
            log_Info "Successfully updated document status" ;;
            ret (RespondWithJSON http_StatusOK
                   (api_NewResponse data_empty "Successfully updated document status" false))
          end
      end
    end
  end.

End Handlers.

(** ** Valid indices, in the words of the specification

    "An index exists iff its bucket exists and its metadata object parses
    successfully": the metadata a bucket of the store holds, if any. *)
Definition stored_metadata `{GoStdlib} (store : gmap string Bucket) (bucket : string)
    : option RAGIndex :=
  b ← store !! bucket;
  o ← objects b !! metadataFile;
  result_to_option (json_Unmarshal (obj_data o)).

(** ** Document listing, in the words of the specification

    "Lists blobs (excluding the reserved name), left-joins against status
    rows by filename; missing status is reported as absent."  The row joined
    to a file name is the one carrying that name, the last one should the
    rows carry it several times. *)
Definition joined_status (rows : list DocumentStatus) (filename : string) : option string :=
  Status <$> last (filter (fun s => Filename s = filename) rows).

Definition document_of (rows : list DocumentStatus) (obj : ObjectInfo) : RAGDocument :=
  mkRAGDocument (info_Name obj) (info_Size obj) (info_LastModified obj)
                (default "" (joined_status rows (info_Name obj))).

Definition listed_documents (rows : list DocumentStatus) (objs : list ObjectInfo)
    : list RAGDocument :=
  map (document_of rows) (filter (fun obj => info_Name obj <> metadataFile) objs).

(** The listing entry of a stored object. *)
Definition info_of (kv : string * Object) : ObjectInfo :=
  mkObjectInfo (fst kv) (obj_size (snd kv)) (obj_contentType (snd kv))
               (obj_lastModified (snd kv)).

(** ** Sample data

    A stand-in for [encoding/json], used only to run the handlers on
    concrete worlds: the metadata document is [name;description;created_at]
    with the time in decimal.  The Unicode case mapping is not exercised by
    the samples and is the identity. *)

Fixpoint split_on (sep : ascii) (s cur : string) : list string :=
  match s with
  | EmptyString => [cur]
  | String a t =>
    if Ascii.eqb a sep then cur :: split_on sep t ""
    else split_on sep t (cur +:+ String a "")
  end.

Fixpoint parse_decimal (s : string) (acc : Z) : option Z :=
  match s with
  | EmptyString => Some acc
  | String a t =>
    let d := byte_val a - chr "0" in
    if (0 <=? d) && (d <=? 9) then parse_decimal t (10 * acc + d) else None
  end.

Fixpoint print_decimal (fuel : nat) (n : Z) (acc : string) : string :=
  match fuel with
  | O => acc
  | S fuel =>
    let acc := String (ascii_of_N (Z.to_N (chr "0" + n mod 10))) acc in
    if n / 10 =? 0 then acc else print_decimal fuel (n / 10) acc
  end.

Definition sample_Marshal (index : RAGIndex) : Result string :=
  if CreatedAt index <? 0 then Err (errors_New "year outside of range [0,9999]")
  else Ok (Name index +:+ ";" +:+ Description index +:+ ";" +:+
           print_decimal 64 (CreatedAt index) "").

Definition sample_Unmarshal (data : string) : Result RAGIndex :=
  match split_on ";" data "" with
  | [name; description; created] =>
    match parse_decimal created 0 with
    | Some t => Ok (mkRAGIndex name description t)
    | None => Err (errors_New "invalid created_at")
    end
  | _ => Err (errors_New "unexpected end of JSON input")
  end.

Definition sample_stdlib : GoStdlib :=
  {| json_Marshal := sample_Marshal;
     json_Unmarshal := sample_Unmarshal;
     unicode_ToLower_Map := fun s => s |}.

Definition sample_handler : RAGIndicesHandler := mkRAGIndicesHandler (Some mkClient).

Definition no_body {A} : Result A := Err (errors_New "EOF").

(** A request with the path parameters [name] and [filename] and nothing
    else. *)
Definition sample_request (name filename : string) : Request :=
  mkRequest
    (fun key =>
       if String.eqb key "name" then Ok name
       else if String.eqb key "filename" then Ok filename
       else Err (errors_New "path parameter not found"))
    no_body no_body no_body
    (Some (errors_New "request Content-Type isn't multipart/form-data"))
    no_body.

Definition with_create (name description : string) (r : Request) : Request :=
  mkRequest (req_PathParam r) (Ok (mkCreateRAGIndexRequest name description))
            (req_UpdateBody r) (req_StatusBody r) (req_ParseMultipartForm r) (req_FormFile r).

Definition with_update (description : string) (r : Request) : Request :=
  mkRequest (req_PathParam r) (req_CreateBody r) (Ok (mkUpdateRAGIndexRequest description))
            (req_StatusBody r) (req_ParseMultipartForm r) (req_FormFile r).

Definition with_status (status errorMsg : string) (r : Request) : Request :=
  mkRequest (req_PathParam r) (req_CreateBody r) (req_UpdateBody r)
            (Ok (mkUpdateStatusRequest status errorMsg))
            (req_ParseMultipartForm r) (req_FormFile r).

Definition with_file (filename content contentType : string) (r : Request) : Request :=
  mkRequest (req_PathParam r) (req_CreateBody r) (req_UpdateBody r) (req_StatusBody r) None
            (Ok (content, mkFileHeader filename (len content) contentType)).

(** Two buckets: [docs] is an index holding two documents, one of them
    with a status row; [raw] has no metadata object. *)
Definition sample_buckets : gmap string Bucket :=
  {[ "docs" := mkBucket
       {[ metadataFile := mkObject "docs;Team documents;7" 21 "application/json" 7;
          "a.txt" := mkObject "alpha" 5 "text/plain" 8;
          "b.pdf" := mkObject "beta" 4 "application/pdf" 9 ]}
       (Some "KAGENT");
     "raw" := mkBucket {[ "x.bin" := mkObject "xx" 2 "application/octet-stream" 3 ]} None ]}.

Definition sample_statuses : gmap (string * string) DocumentStatus :=
  {[ ("docs", "a.txt") := mkDocumentStatus 0 "docs" "a.txt" "completed" "" ]}.

Definition sample_world (fs : list (option error)) : World :=
  mkWorld sample_buckets sample_statuses fs 10 1 [].

Definition sample_fault : error := errors_New "connection refused".
Definition other_fault : error := errors_New "i/o timeout".

(** * The rest of the index service *)

(** ** More of the object-store wrapper *)

(** The loop of [ListFiles] over the listing channel. *)
Fixpoint ListFiles_loop (objectsCh : list (Result sdk_ObjectInfo)) (files : list string)
    : Result (list string) :=
  match objectsCh with
  | [] => Ok files
  | Err e :: _ => Err (fmt_Errorf "failed to list objects" e)
  | Ok object :: rest => ListFiles_loop rest (files ++ [oi_Key object])
  end.

Definition ListFiles (c : minio_Client) (bucketName prefix : string)
    : M (Result (list string)) :=
  objectsCh <- sdk_ListObjects bucketName prefix ;;
  ret (ListFiles_loop objectsCh []).

(** ** More of the handlers *)

(** [fmt.Sprintf("%d", n)] *)
Definition fmt_d (n : Z) : string := NilEmpty.string_of_int (Z.to_int n).

(** The one-character string holding a double quote. *)
Definition dquote : string := String (ascii_of_nat 34) EmptyString.

(** What [HandleDownloadDocument] leaves on its writer: an answer made
    through [RespondWithError], or the headers set on [w.Header()], the
    status passed to [w.WriteHeader] and the bytes passed to [w.Write]. *)
Inductive Written : Type :=
| written_response (resp : Response)
| written_raw (header : gmap string string) (statusCode : Z) (body : string).

Section MoreHandlers.
Context `{GoStdlib}.

Definition HandleGetRAGIndex (h : RAGIndicesHandler) (r : Request) : M Response :=
  match MinioClient h with
  | None =>
    ret (RespondWithError (NewInternalServerError "MinIO client not configured" None))
  | Some c =>
    match GetPathParam r "name" with
    | Err err =>
      ret (RespondWithError (NewBadRequestError "Failed to get index name from path" (Some err)))
    | Ok indexName =>
      ex <- BucketExists c indexName ;;
      match ex with
      | Err err =>
        log_Error err "Failed to check bucket existence" ;;
        ret (RespondWithError (NewInternalServerError "Failed to check index" (Some err)))
      | Ok false => ret (RespondWithError (NewNotFoundError "RAG index not found" None))
      | Ok true =>
        m <- getIndexMetadata c indexName ;;
        match m with
        | Err err =>
          log_Error err "Failed to get index metadata" ;;
          ret (RespondWithError (NewNotFoundError "RAG index not found" (Some err)))
        | Ok metadata =>
          log_Info "Successfully retrieved RAG index" ;;
          ret (RespondWithJSON http_StatusOK
                 (api_NewResponse (data_index metadata) "Successfully retrieved RAG index"
                                  false))
        end
      end
    end
  end.

Definition HandleDownloadDocument (h : RAGIndicesHandler) (r : Request) : M Written :=
  match MinioClient h with
  | None =>
    ret (written_response
           (RespondWithError (NewInternalServerError "MinIO client not configured" None)))
  | Some c =>
    match GetPathParam r "name" with
    | Err err =>
      ret (written_response (RespondWithError
             (NewBadRequestError "Failed to get index name from path" (Some err))))
    | Ok indexName =>
      match GetPathParam r "filename" with
      | Err err =>
        ret (written_response (RespondWithError
               (NewBadRequestError "Failed to get filename from path" (Some err))))
      | Ok filename =>
        ex <- BucketExists c indexName ;;
        match ex with
        | Err err =>
          log_Error err "Failed to check bucket existence" ;;
          ret (written_response (RespondWithError
                 (NewInternalServerError "Failed to check index" (Some err))))
        | Ok false =>
          ret (written_response
                 (RespondWithError (NewNotFoundError "RAG index not found" None)))
        | Ok true =>
          if String.eqb filename metadataFile then
            ret (written_response (RespondWithError
                   (NewBadRequestError "Cannot download reserved file" None)))
          else
            d <- GetObject c indexName filename ;;
            match d with
            | Err err =>
              log_Error err "Failed to get file from MinIO" ;;
              ret (written_response
                     (RespondWithError (NewNotFoundError "Document not found" (Some err))))
            | Ok data =>
              let header : gmap string string := ∅ in
              let header :=
                <["Content-Disposition" :=
                    "attachment; filename=" +:+ dquote +:+ filename +:+ dquote]> header in
              let header := <["Content-Type" := "application/octet-stream"]> header in
              let header := <["Content-Length" := fmt_d (len data)]> header in
              log_Info "Successfully downloaded document" ;;
              ret (written_raw header http_StatusOK data)
            end
        end
      end
    end
  end.

Definition HandleDeleteDocumentStatus (h : RAGIndicesHandler) (r : Request) : M Response :=
  match GetPathParam r "name" with
  | Err err =>
    ret (RespondWithError (NewBadRequestError "Failed to get index name from path" (Some err)))
  | Ok indexName =>
    match GetPathParam r "filename" with
    | Err err =>
      ret (RespondWithError (NewBadRequestError "Failed to get filename from path" (Some err)))
    | Ok filename =>
      err <- DeleteDocumentStatus indexName filename ;;
      match err with
      | Some err => log_Error err "Failed to delete document status"
      | None => ret tt
      end ;;
      log_Info "Successfully deleted document status" ;;
      ret (RespondWithJSON http_StatusOK
             (api_NewResponse data_empty "Successfully deleted document status" false))
    end
  end.

End MoreHandlers.

(** The headers of a served document, as [HandleDownloadDocument] sets
    them. *)
Definition download_header (filename data : string) : gmap string string :=
  <["Content-Length" := fmt_d (len data)]>
    (<["Content-Type" := "application/octet-stream"]>
       (<["Content-Disposition" :=
            "attachment; filename=" +:+ dquote +:+ filename +:+ dquote]> ∅)).

(** * Authorization, roles and the agent gateway *)

(** ** More of the Go standard library *)

(** [err.Error()]: [fmt.Errorf("msg: %w", err)] prints its message, a
    colon and the wrapped error. *)
Fixpoint error_string (e : error) : string :=
  match e with
  | errors_New msg => msg
  | fmt_Errorf msg wrapped => msg +:+ ": " +:+ error_string wrapped
  end.

(** [strings.Join] *)
Definition strings_Join (elems : list string) (sep : string) : string :=
  String.concat sep elems.

(** The [%v] verb on a slice of strings. *)
Definition fmt_v (elems : list string) : string := "[" +:+ strings_Join elems " " +:+ "]".

(** [strings.IndexByte]: the position of the first byte equal to [c]. *)
Fixpoint strings_IndexByte (s : string) (c : ascii) : option nat :=
  match s with
  | EmptyString => None
  | String a t =>
    if Ascii.eqb a c then Some O
    else match strings_IndexByte t c with
         | Some m => Some (S m)
         | None => None
         end
  end.

(** [strings.SplitN(s, sep, 2)] for a separator of one byte: the text
    before the first separator and the text after it, or [s] alone when it
    holds no separator. *)
Definition strings_SplitN_2 (s : string) (sep : ascii) : list string :=
  match strings_IndexByte s sep with
  | None => [s]
  | Some m =>
    [String.substring 0 m s; String.substring (m + 1) (String.length s - (m + 1)) s]
  end.

(** ** The cluster, as the code reads it *)

(** [v1alpha2.Agent], with the fields the code reads. *)
Record Agent := mkAgent {
  agent_Namespace : string;
  agent_Name : string;
  agent_AllowedRoles : list string
}.

(** [client.Client] of controller-runtime: what [Get] answers for a
    namespace and a name, and what [List] answers for agents. *)
Record KubeClient := mkKubeClient {
  kube_Get : string -> string -> Result Agent;
  kube_List : Result (list Agent)
}.

(** ** Authorization ([internal/httpserver/auth/authz.go]) *)

Record User := mkUser {
  user_ID : string;
  user_Roles : list string
}.

Record Principal := mkPrincipal { principal_User : User }.

Record Resource := mkResource {
  res_Type : string;
  res_Name : string
}.

Definition Verb : Type := string.

Definition NoopAuthorizer_Check (principal : Principal) (verb : Verb) (resource : Resource)
    : option error := None.

(** The inner loop of [Check]: does [allowedRole] equal one of the user's
    roles. *)
Fixpoint Check_userRoles (allowedRole : string) (userRoles : list string) : bool :=
  match userRoles with
  | [] => false
  | userRole :: rest =>
    if String.eqb allowedRole userRole then true else Check_userRoles allowedRole rest
  end.

(** The outer loop of [Check]. *)
Fixpoint Check_allowedRoles (allowedRoles userRoles : list string) : bool :=
  match allowedRoles with
  | [] => false
  | allowedRole :: rest =>
    if Check_userRoles allowedRole userRoles then true
    else Check_allowedRoles rest userRoles
  end.

Definition RBACAuthorizer_Check (a : KubeClient) (principal : Principal) (verb : Verb)
    (resource : Resource) : option error :=
  if negb (String.eqb (res_Type resource) "Agent") then None
  else if String.eqb (res_Name resource) "" then None
  else
    match strings_SplitN_2 (res_Name resource) "/" with
    | [namespace; name] =>
      match kube_Get a namespace name with
      | Err err => Some (fmt_Errorf "failed to get agent" err)
      | Ok agent =>
        if Z.of_nat (length (agent_AllowedRoles agent)) =? 0 then None
        else if Check_allowedRoles (agent_AllowedRoles agent)
                                   (user_Roles (principal_User principal))
        then None
        else
          Some (errors_New
                  ("user " +:+ user_ID (principal_User principal) +:+
                   " does not have required roles for agent " +:+ namespace +:+ "/" +:+
                   name +:+ " (required: " +:+ fmt_v (agent_AllowedRoles agent) +:+
                   ", has: " +:+ fmt_v (user_Roles (principal_User principal)) +:+ ")"))
      end
    | _ => Some (errors_New ("invalid resource name format: " +:+ res_Name resource))
    end.

(** ** Roles ([internal/httpserver/handlers/roles.go]) *)

Record Role := mkRole {
  role_Name : string;
  role_Description : string
}.

Record CreateRoleRequest := mkCreateRoleRequest {
  createRole_Name : string;
  createRole_Description : string
}.

Record UpdateRoleRequest := mkUpdateRoleRequest {
  updateRole_Description : string
}.

(** [formatAgentList]: the loop [for i := 1; i < len(agents); i++] appends
    to [result], which starts as [agents[0]]. *)
Definition formatAgentList (agents : list string) : string :=
  match agents with
  | [] => ""
  | first :: rest => foldl (fun result agent => result +:+ ", " +:+ agent) first rest
  end.

(** The inner loop of [getAgentsUsingRole], left by [break] at the first
    match. *)
Fixpoint allows_role (allowedRoles : list string) (roleName : string) : bool :=
  match allowedRoles with
  | [] => false
  | allowedRole :: rest =>
    if String.eqb allowedRole roleName then true else allows_role rest roleName
  end.

(** [agent.Namespace+"/"+agent.Name] *)
Definition agent_ref (agent : Agent) : string :=
  agent_Namespace agent +:+ "/" +:+ agent_Name agent.

Fixpoint getAgentsUsingRole_loop (items : list Agent) (roleName : string)
    (agentsUsingRole : list string) : list string :=
  match items with
  | [] => agentsUsingRole
  | agent :: rest =>
    if allows_role (agent_AllowedRoles agent) roleName then
      getAgentsUsingRole_loop rest roleName
        (agentsUsingRole ++ [agent_ref agent])
    else getAgentsUsingRole_loop rest roleName agentsUsingRole
  end.

Definition getAgentsUsingRole (k : KubeClient) (roleName : string) : Result (list string) :=
  match kube_List k with
  | Err err => Err err
  | Ok items => Ok (getAgentsUsingRole_loop items roleName [])
  end.

(** The role methods of [DatabaseService], whose implementation is not at
    hand: an interface over a database state [DB].  [GetRole] returns a
    pointer and an error, and the handlers test now the one, now the other;
    the role behind the pointer is a copy of the row. *)
Class RoleStore (DB : Type) := {
  ListRoles : DB -> Result (list Role) * DB;
  GetRole : string -> DB -> (option Role * option error) * DB;
  StoreRole : Role -> DB -> option error * DB;
  DeleteRole : string -> DB -> option error * DB
}.

Inductive RolePayload : Type :=
| data_roles (roles : list Role)
| data_role (role : option Role)
| data_none.

(** What a role handler does to its [ErrorResponseWriter]; [RolePanic] is
    the run-time panic of a write through a nil pointer. *)
Inductive RoleResponse : Type :=
| RoleRespondWithError (e : APIError)
| RoleRespondWithJSON (code : Z) (data : RolePayload) (message : string)
| RolePanic.

(** A request to the role handlers, seen through [GetPathParam] and
    [DecodeJSONBody]. *)
Record RoleRequest := mkRoleRequest {
  role_PathParam : string -> Result string;
  role_CreateBody : Result CreateRoleRequest;
  role_UpdateBody : Result UpdateRoleRequest
}.

(** [RolesHandler], by the field of [Base] it reads beside the database. *)
Record RolesHandler := mkRolesHandler { roles_KubeClient : KubeClient }.

Section RoleHandlers.
Context {DB : Type} `{RoleStore DB}.

(** The state of a role handler: the database and the log. *)
Definition RoleWorld : Type := DB * list LogEntry.

Definition role_log (entry : LogEntry) (db : DB) (log : list LogEntry) : RoleWorld :=
  (db, (log ++ [entry])%list).

Definition HandleListRoles (h : RolesHandler) (r : RoleRequest) (w : RoleWorld)
    : RoleResponse * RoleWorld :=
  let '(db, log) := w in
  let '(roles, db) := ListRoles db in
  match roles with
  | Err err =>
    (RoleRespondWithError (NewInternalServerError "Failed to list roles" (Some err)),
     role_log (log_error err "Failed to list roles") db log)
  | Ok roles =>
    (RoleRespondWithJSON http_StatusOK (data_roles roles) "Successfully listed roles",
     role_log (log_info "Successfully listed roles") db log)
  end.

Definition HandleGetRole (h : RolesHandler) (r : RoleRequest) (w : RoleWorld)
    : RoleResponse * RoleWorld :=
  let '(db, log) := w in
  match role_PathParam r "name" with
  | Err err =>
    (RoleRespondWithError (NewBadRequestError "Failed to get role name from path" (Some err)), w)
  | Ok roleName =>
    let '((role, err), db) := GetRole roleName db in
    match err with
    | Some err =>
      (RoleRespondWithError (NewNotFoundError "Role not found" (Some err)),
       role_log (log_error err "Failed to get role") db log)
    | None =>
      (RoleRespondWithJSON http_StatusOK (data_role role) "Successfully retrieved role",
       role_log (log_info "Successfully retrieved role") db log)
    end
  end.

Definition HandleCreateRole (h : RolesHandler) (r : RoleRequest) (w : RoleWorld)
    : RoleResponse * RoleWorld :=
  let '(db, log) := w in
  match role_CreateBody r with
  | Err err => (RoleRespondWithError (NewBadRequestError "Invalid request body" (Some err)), w)
  | Ok req =>
    if String.eqb (createRole_Name req) "" then
      (RoleRespondWithError (NewBadRequestError "Role name is required" None), w)
    else
      let '((existing, _), db) := GetRole (createRole_Name req) db in
      match existing with
      | Some _ =>
        (RoleRespondWithError
           (NewConflictError ("Role '" +:+ createRole_Name req +:+ "' already exists") None),
         (db, log))
      | None =>
        let role := mkRole (createRole_Name req) (createRole_Description req) in
        let '(err, db) := StoreRole role db in
        match err with
        | Some err =>
          (RoleRespondWithError (NewInternalServerError "Failed to create role" (Some err)),
           role_log (log_error err "Failed to create role") db log)
        | None =>
          (RoleRespondWithJSON http_StatusCreated (data_role (Some role))
             "Successfully created role",
           role_log (log_info "Successfully created role") db log)
        end
      end
  end.

Definition HandleUpdateRole (h : RolesHandler) (r : RoleRequest) (w : RoleWorld)
    : RoleResponse * RoleWorld :=
  let '(db, log) := w in
  match role_PathParam r "name" with
  | Err err =>
    (RoleRespondWithError (NewBadRequestError "Failed to get role name from path" (Some err)), w)
  | Ok roleName =>
    let '((existing, err), db) := GetRole roleName db in
    match err with
    | Some err =>
      (RoleRespondWithError (NewNotFoundError "Role not found" (Some err)),
       role_log (log_error err "Failed to get role") db log)
    | None =>
      match role_UpdateBody r with
      | Err err =>
        (RoleRespondWithError (NewBadRequestError "Invalid request body" (Some err)), (db, log))
      | Ok req =>
        match existing with
        | None => (RolePanic, (db, log))
        | Some existing =>
          let existing := mkRole (role_Name existing) (updateRole_Description req) in
          let '(err, db) := StoreRole existing db in
          match err with
          | Some err =>
            (RoleRespondWithError (NewInternalServerError "Failed to update role" (Some err)),
             role_log (log_error err "Failed to update role") db log)
          | None =>
            (RoleRespondWithJSON http_StatusOK (data_role (Some existing))
               "Successfully updated role",
             role_log (log_info "Successfully updated role") db log)
          end
        end
      end
    end
  end.

Definition HandleDeleteRole (h : RolesHandler) (r : RoleRequest) (w : RoleWorld)
    : RoleResponse * RoleWorld :=
  let '(db, log) := w in
  match role_PathParam r "name" with
  | Err err =>
    (RoleRespondWithError (NewBadRequestError "Failed to get role name from path" (Some err)), w)
  | Ok roleName =>
    let '((_, err), db) := GetRole roleName db in
    match err with
    | Some err =>
      (RoleRespondWithError (NewNotFoundError "Role not found" (Some err)),
       role_log (log_error err "Failed to get role") db log)
    | None =>
      match getAgentsUsingRole (roles_KubeClient h) roleName with
      | Err err =>
        (RoleRespondWithError (NewInternalServerError "Failed to check role usage" (Some err)),
         role_log (log_error err "Failed to check agents using role") db log)
      | Ok agentsUsingRole =>
        if Z.of_nat (length agentsUsingRole) >? 0 then
          (RoleRespondWithError
             (NewConflictError
                ("Cannot delete role '" +:+ roleName +:+ "' - used by agents: " +:+
                 formatAgentList agentsUsingRole) None),
           role_log (log_info "Cannot delete role - in use by agents") db log)
        else
          let '(err, db) := DeleteRole roleName db in
          match err with
          | Some err =>
            (RoleRespondWithError (NewInternalServerError "Failed to delete role" (Some err)),
             role_log (log_error err "Failed to delete role") db log)
          | None =>
            (RoleRespondWithJSON http_StatusOK data_none "Successfully deleted role",
             role_log (log_info "Successfully deleted role") db log)
          end
      end
    end
  end.

End RoleHandlers.

(** ** The agent gateway ([internal/a2a/a2a_handler_mux.go]) *)

(** [auth.Authorizer], by its one method. *)
Definition Authorizer : Type := Principal -> Verb -> Resource -> option error.

Definition http_StatusBadRequest : Z := 400.
Definition http_StatusUnauthorized : Z := 401.
Definition http_StatusForbidden : Z := 403.
Definition http_StatusNotFound : Z := 404.

Section Gateway.
(** [Handler] is [http.Handler].  [ResourceRefString] (package [utils]) and
    [auth.VerbGet] are not at hand and are taken as they come. *)
Context {Handler : Type}.
Variable ResourceRefString : string -> string -> string.
Variable VerbGet : Verb.

(** [handlerMux], without its lock: calls are taken one at a time. *)
Record handlerMux := mkHandlerMux {
  mux_handlers : gmap string Handler;
  mux_basePathPrefix : string;
  mux_authorizer : option Authorizer
}.

Definition NewA2AHttpMux (pathPrefix : string) (authorizer : option Authorizer) : handlerMux :=
  mkHandlerMux ∅ pathPrefix authorizer.

(** [SetAgentHandler]; [srv] is what [server.NewA2AServer] returns for the
    card and the client: a server, whose handler is registered, or an
    error. *)
Definition SetAgentHandler (a : handlerMux) (agentRef : string) (srv : Result Handler)
    : option error * handlerMux :=
  match srv with
  | Err err => (Some (fmt_Errorf "failed to create A2A server" err), a)
  | Ok handler =>
    (None, mkHandlerMux (<[agentRef := handler]> (mux_handlers a)) (mux_basePathPrefix a)
                        (mux_authorizer a))
  end.

Definition RemoveAgentHandler (a : handlerMux) (agentRef : string) : handlerMux :=
  mkHandlerMux (delete agentRef (mux_handlers a)) (mux_basePathPrefix a) (mux_authorizer a).

Definition getHandler (a : handlerMux) (name : string) : option Handler :=
  mux_handlers a !! name.

(** The authorization step of [ServeHTTP] lets a request for the agent
    [handlerName] through: no authorizer is configured, or the request has
    a session and the authorizer allows [VerbGet] on the agent. *)
Definition passes_authorization (a : handlerMux) (session : option Principal)
    (handlerName : string) : Prop :=
  mux_authorizer a = None \/
  exists authorizer principal,
    mux_authorizer a = Some authorizer /\ session = Some principal /\
    authorizer principal VerbGet (mkResource "Agent" handlerName) = None.

(** What [ServeHTTP] does with a request: an error written by
    [respondWithJSONError], or the call of a registered handler. *)
Inductive Served : Type :=
| respondWithJSONError (statusCode : Z) (message : string)
| served_by (handler : Handler).

(** [vars] is [mux.Vars(r)]; [session] is the principal of the session
    [auth.AuthSessionFrom] finds in the request context, if any. *)
Definition ServeHTTP (a : handlerMux) (vars : gmap string string) (session : option Principal)
    : Served :=
  match vars !! "namespace" with
  | None => respondWithJSONError http_StatusBadRequest "Agent namespace not provided"
  | Some agentNamespace =>
    if String.eqb agentNamespace "" then
      respondWithJSONError http_StatusBadRequest "Agent namespace not provided"
    else
      match vars !! "name" with
      | None => respondWithJSONError http_StatusBadRequest "Agent name not provided"
      | Some agentName =>
        if String.eqb agentName "" then
          respondWithJSONError http_StatusBadRequest "Agent name not provided"
        else
          let handlerName := ResourceRefString agentNamespace agentName in
          let lookup :=
            match getHandler a handlerName with
            | None =>
              respondWithJSONError http_StatusNotFound
                ("Agent " +:+ handlerName +:+ " not found")
            | Some handlerHandler => served_by handlerHandler
            end in
          match mux_authorizer a with
          | None => lookup
          | Some authorizer =>
            match session with
            | None =>
              respondWithJSONError http_StatusUnauthorized
                "Unauthorized: no valid session found"
            | Some principal =>
              match authorizer principal VerbGet (mkResource "Agent" handlerName) with
              | Some err =>
                respondWithJSONError http_StatusForbidden
                  ("Forbidden: " +:+ error_string err)
              | None => lookup
              end
            end
          end
      end
  end.

End Gateway.

(** ** Samples for the cluster, the roles and the gateway *)

Definition sample_agents : list Agent :=
  [mkAgent "kagent" "helm-agent" ["admin"; "ops"; "admin"];
   mkAgent "kagent" "open-agent" [];
   mkAgent "team" "k8s-agent" ["ops"]].

Definition sample_kube : KubeClient :=
  mkKubeClient
    (fun namespace name =>
       match List.find (fun agent => String.eqb (agent_Namespace agent) namespace &&
                                     String.eqb (agent_Name agent) name) sample_agents with
       | Some agent => Ok agent
       | None => Err (errors_New "agents.kagent.dev not found")
       end)
    (Ok sample_agents).

Definition sample_principal (id : string) (roles : list string) : Principal :=
  mkPrincipal (mkUser id roles).

(** A role table keyed by the name of the role. *)
Definition sample_RoleStore : RoleStore (gmap string Role) :=
  {| ListRoles db := (Ok (map snd (map_to_list db)), db);
     GetRole name db :=
       (match db !! name with
        | Some role => (Some role, None)
        | None => (None, Some (errors_New "record not found"))
        end, db);
     StoreRole role db := (None, <[role_Name role := role]> db);
     DeleteRole name db := (None, delete name db) |}.

Definition sample_roles : gmap string Role :=
  {[ "admin" := mkRole "admin" "Administrators"; "guest" := mkRole "guest" "Visitors" ]}.

Definition sample_role_request (name : string) : RoleRequest :=
  mkRoleRequest
    (fun key => if String.eqb key "name" then Ok name
                else Err (errors_New "path parameter not found"))
    no_body no_body.

Definition sample_roles_handler : RolesHandler := mkRolesHandler sample_kube.

(** A gateway whose handlers are known by a label, with references written
    [namespace/name]. *)
Definition sample_ref (namespace name : string) : string := namespace +:+ "/" +:+ name.

Definition sample_mux : @handlerMux string :=
  mkHandlerMux {[ "kagent/helm-agent" := "helm"; "kagent/open-agent" := "open" ]}
               "/api/a2a" (Some (RBACAuthorizer_Check sample_kube)).

Definition sample_vars (namespace name : string) : gmap string string :=
  {[ "namespace" := namespace; "name" := name ]}.

Definition with_create_role (name description : string) (r : RoleRequest) : RoleRequest :=
  mkRoleRequest (role_PathParam r) (Ok (mkCreateRoleRequest name description))
                (role_UpdateBody r).

(** * Properties *)

(** ** Running the handlers *)

Ltac unfold_M :=
  unfold bind, ret, gets, modify, fault, log_Error, log_Info, time_Now, uuid_New in *.

Ltac inv_pair := simplify_eq.

(** One call whose outcome is known. *)
Lemma bind_eq {A B} (m : M A) (k : A -> M B) w a w' :
  m w = (a, w') -> bind m k w = k a w'.
Proof. unfold bind. intros ->. reflexivity. Qed.

Ltac step H := erewrite bind_eq; [|exact H]; cbv beta iota.
Ltac step_pure := erewrite bind_eq; [|reflexivity]; cbv beta iota.

(** Evaluating a run on a concrete world. *)
Ltac run := vm_compute; reflexivity.

Lemma fault_run w :
  fault w = (hd None (faults w), set_faults (tl (faults w)) w).
Proof. reflexivity. Qed.

Lemma fault_free_hd w : fault_free w -> hd None (faults w) = None.
Proof.
  unfold fault_free. destruct (faults w) as [|f fs]; [reflexivity|].
  intros Hff. apply Forall_cons in Hff as [-> _]. reflexivity.
Qed.

Lemma fault_free_tl w : fault_free w -> fault_free (set_faults (tl (faults w)) w).
Proof.
  unfold fault_free. simpl. destruct (faults w) as [|f fs]; [auto|].
  intros Hff. apply Forall_cons in Hff as [_ Hfs]. exact Hfs.
Qed.

(** ** Name validation *)

Section NameValidation.
Context `{GoStdlib}.

Lemma isAlphanumeric_spec c : isAlphanumeric c = true <-> lower_alnum c.
Proof.
  unfold isAlphanumeric, lower_alnum.
  rewrite orb_true_iff, !andb_true_iff, !Z.geb_le, !Z.leb_le. tauto.
Qed.

Lemma name_char_spec c :
  negb (isAlphanumeric c) && negb (c =? chr "-") = false <-> name_char c.
Proof.
  unfold name_char. rewrite <- isAlphanumeric_spec.
  destruct (isAlphanumeric c); simpl.
  - split; auto.
  - destruct (Z.eqb_spec c (chr "-")); simpl; split; intros; auto; try discriminate.
    destruct H0; [discriminate | contradiction].
Qed.

Lemma name_char_ascii c : name_char c -> 0 <= c < runeSelf.
Proof.
  unfold name_char, lower_alnum, runeSelf, chr, byte_val. simpl. lia.
Qed.

Lemma name_char_not_upper c : name_char c -> is_upper_byte c = false.
Proof.
  unfold name_char, lower_alnum, is_upper_byte, chr, byte_val. simpl.
  intros Hc. apply andb_false_iff. rewrite !Z.leb_gt. lia.
Qed.

Lemma length_bytes s : length (bytes s) = String.length s.
Proof.
  unfold bytes. rewrite length_map. induction s; simpl; auto.
Qed.

Lemma decoderune_ge s : runeSelf <= fst (decoderune s).
Proof.
  unfold decoderune, runeSelf, runeError.
  repeat (case_match; simpl; try lia);
    repeat match goal with
    | H : _ && _ = true |- _ => apply andb_true_iff in H; destruct H
    | H : (_ <? _) = true |- _ => apply Z.ltb_lt in H
    end; lia.
Qed.

Lemma range_bytes_cons c t :
  range_bytes (c :: t) 0 =
  if c <? runeSelf then c :: range_bytes t 0
  else fst (decoderune (c :: t)) :: range_bytes t (snd (decoderune (c :: t)) - 1).
Proof.
  cbn [range_bytes]. destruct (c <? runeSelf); [reflexivity|].
  destruct (decoderune (c :: t)); reflexivity.
Qed.

(** A string whose runes are all below [runeSelf] has its bytes for runes. *)
Lemma range_bytes_low bs :
  Forall (fun c => c < runeSelf) (range_bytes bs 0) -> range_bytes bs 0 = bs.
Proof.
  induction bs as [|c t IH]; [reflexivity|].
  rewrite range_bytes_cons.
  destruct (Z.ltb_spec c runeSelf) as [Hc|Hc].
  - intros Hall. apply Forall_cons in Hall as [_ Hall]. f_equal. auto.
  - pose proof (decoderune_ge (c :: t)) as Hge.
    intros Hall. apply Forall_cons in Hall as [Hr _]. lia.
Qed.

Lemma range_bytes_ascii bs :
  Forall (fun c => c < runeSelf) bs -> range_bytes bs 0 = bs.
Proof.
  induction bs as [|c t IH]; [reflexivity|].
  rewrite range_bytes_cons.
  intros Hall. apply Forall_cons in Hall as [Hc Hall].
  destruct (Z.ltb_spec c runeSelf); [|lia]. f_equal. auto.
Qed.

Lemma range_string_name_chars name :
  Forall name_char (range_string name) -> range_string name = bytes name.
Proof.
  intros Hall. apply range_bytes_low.
  eapply Forall_impl; [exact Hall|]. intros c Hc. apply name_char_ascii in Hc. lia.
Qed.

Lemma strings_ToLower_name_chars name :
  Forall name_char (bytes name) -> strings_ToLower name = name.
Proof.
  intros Hall. unfold strings_ToLower.
  assert (forallb (fun c => c <? runeSelf) (bytes name) = true) as ->.
  { apply forallb_forall. intros c Hc. apply Z.ltb_lt.
    rewrite Forall_forall in Hall. apply list_elem_of_In in Hc.
    apply Hall, name_char_ascii in Hc. lia. }
  assert (existsb is_upper_byte (bytes name) = false) as ->; [|reflexivity].
  apply not_true_is_false. intros Hex. apply existsb_exists in Hex as (c & Hc & Hup).
  rewrite Forall_forall in Hall. apply list_elem_of_In in Hc.
  apply Hall, name_char_not_upper in Hc. congruence.
Qed.

Lemma existsb_false_Forall {A} (p : A -> bool) (P : A -> Prop) l :
  (forall a, p a = false <-> P a) -> existsb p l = false <-> Forall P l.
Proof.
  intros Hp. induction l as [|a l IH]; simpl.
  - split; auto.
  - rewrite orb_false_iff, Forall_cons, IH, Hp. tauto.
Qed.

Lemma head_bytes s : s <> "" -> head (bytes s) = Some (first_byte s).
Proof.
  unfold first_byte. destruct s; [congruence|reflexivity].
Qed.

Lemma last_bytes s : s <> "" -> last (bytes s) = Some (last_byte s).
Proof.
  unfold last_byte. intros Hs.
  assert (bytes s <> []) as Hne by (destruct s; [congruence|discriminate]).
  revert Hne. generalize (bytes s) as l. induction l as [|a [|b l] IH]; intros Hne.
  - congruence.
  - reflexivity.
  - change (last (a :: b :: l)) with (last (b :: l)).
    change (List.last (a :: b :: l) 0) with (List.last (b :: l) 0).
    apply IH. discriminate.
Qed.

Lemma isValidIndexName_iff name :
  isValidIndexName name = true <-> valid_name_spec name.
Proof.
  unfold isValidIndexName, valid_name_spec, len. cbv zeta.
  pose proof (length_bytes name) as Hlen.
  split.
  - destruct (Z.eqb_spec (Z.of_nat (String.length name)) 0) as [|Hn0]; simpl; [discriminate|].
    destruct (Z.gtb_spec (Z.of_nat (String.length name)) 63) as [|Hn63]; simpl; [discriminate|].
    destruct (isAlphanumeric (first_byte name)) eqn:Hf; simpl; [|discriminate].
    destruct (isAlphanumeric (last_byte name)) eqn:Hl; simpl; [|discriminate].
    destruct (existsb _ (range_string name)) eqn:Hx; [discriminate|].
    intros _. apply (existsb_false_Forall _ _ _ name_char_spec) in Hx.
    assert (name <> "") as Hne by (intros ->; simpl in Hn0; lia).
    pose proof (range_string_name_chars _ Hx) as Hrb. rewrite Hrb in *.
    split; [lia|]. split; [exact Hx|]. split.
    + exists (first_byte name). rewrite head_bytes, <- isAlphanumeric_spec; auto.
    + exists (last_byte name). rewrite last_bytes, <- isAlphanumeric_spec; auto.
  - intros (Hn & Hall & (cf & Hhd & Hcf) & (cl & Hlst & Hcl)).
    pose proof (range_string_name_chars _ Hall) as Hrb.
    rewrite Hrb in *.
    assert (name <> "") as Hne by (intros ->; simpl in Hn; lia).
    rewrite head_bytes in Hhd by auto. rewrite last_bytes in Hlst by auto.
    simplify_eq.
    apply isAlphanumeric_spec in Hcf, Hcl. rewrite Hcf, Hcl. simpl.
    destruct (Z.eqb_spec (Z.of_nat (String.length name)) 0); [lia|].
    destruct (Z.gtb_spec (Z.of_nat (String.length name)) 63); [lia|]. simpl.
    rewrite strings_ToLower_name_chars by exact Hall.
    apply (existsb_false_Forall _ _ _ name_char_spec) in Hall.
    rewrite Hall. apply String.eqb_refl.
Qed.

End NameValidation.

(** C5: [isValidIndexName] accepts a string exactly when it is 1 to 63
    characters of lower-case alphanumerics and hyphens that starts and ends
    with an alphanumeric.  In particular it rejects the empty string, a
    string of more than 63 characters (or bytes), a string with an
    upper-case letter, a string starting or ending with a hyphen, and a
    string with a character outside [a-z0-9-]. *)
Theorem isValidIndexName_naming_rule `{GoStdlib} :
  (forall name, isValidIndexName name = true <-> valid_name_spec name) /\
  isValidIndexName "" = false /\
  (forall name, (63 < length (range_string name))%nat -> isValidIndexName name = false) /\
  (forall name, 63 < len name -> isValidIndexName name = false) /\
  (forall name c, c ∈ range_string name -> upper_letter c -> isValidIndexName name = false) /\
  (forall name, head (range_string name) = Some (chr "-") -> isValidIndexName name = false) /\
  (forall name, last (range_string name) = Some (chr "-") -> isValidIndexName name = false) /\
  (forall name c, c ∈ range_string name -> ~ name_char c -> isValidIndexName name = false).
Proof.
  assert (forall name, ~ valid_name_spec name -> isValidIndexName name = false) as Hrej.
  { intros name Hn. apply not_true_iff_false. rewrite isValidIndexName_iff. exact Hn. }
  split; [exact isValidIndexName_iff|].
  split; [reflexivity|].
  split; [|split; [|split; [|split; [|split]]]].
  - intros name Hlong. apply Hrej. intros (Hn & _). lia.
  - intros name Hlong. unfold isValidIndexName.
    destruct (Z.gtb_spec (len name) 63); [|lia]. rewrite orb_true_r. reflexivity.
  - intros name c Hin Hup. apply Hrej. intros (_ & Hall & _).
    rewrite Forall_forall in Hall. apply Hall in Hin.
    revert Hin Hup. unfold name_char, lower_alnum, upper_letter, chr, byte_val. simpl. lia.
  - intros name Hhd. apply Hrej. intros (_ & _ & (c & Hc & Hal) & _).
    rewrite Hhd in Hc. injection Hc as <-.
    revert Hal. unfold lower_alnum, chr, byte_val. simpl. lia.
  - intros name Hlst. apply Hrej. intros (_ & _ & _ & (c & Hc & Hal)).
    rewrite Hlst in Hc. injection Hc as <-.
    revert Hal. unfold lower_alnum, chr, byte_val. simpl. lia.
  - intros name c Hin Hout. apply Hrej. intros (_ & Hall & _).
    rewrite Forall_forall in Hall. auto.
Qed.

Lemma isValidIndexName_naming_rule_witness :
  @isValidIndexName sample_stdlib "team-docs-01" = true /\
  @isValidIndexName sample_stdlib "Team-docs" = false /\
  @isValidIndexName sample_stdlib "-docs" = false.
Proof.
  destruct (@isValidIndexName_naming_rule sample_stdlib)
    as (Hiff & _ & _ & _ & Hupper & Hhead & _).
  split; [|split].
  - apply Hiff. unfold valid_name_spec. cbv zeta.
    change (range_string "team-docs-01")
      with [116; 101; 97; 109; 45; 100; 111; 99; 115; 45; 48; 49].
    split; [simpl; lia|]. split.
    + repeat (apply Forall_cons; split;
                [unfold name_char, lower_alnum, chr, byte_val; simpl; lia|]).
      apply Forall_nil_2.
    + split; eexists; (split; [reflexivity|]);
        unfold lower_alnum, chr, byte_val; simpl; lia.
  - apply (Hupper "Team-docs" (chr "T")).
    + apply list_elem_of_here.
    + unfold upper_letter, chr, byte_val. simpl. lia.
  - apply Hhead. reflexivity.
Defined.

(** ** The object store and its wrapper *)

Lemma sdk_BucketExists_inv bucketName w r w' :
  sdk_BucketExists bucketName w = (r, w') ->
  buckets w' = buckets w /\ statuses w' = statuses w /\
  forall b, r = Ok b -> b = bool_decide (is_Some (buckets w !! bucketName)).
Proof.
  unfold sdk_BucketExists. unfold_M.
  destruct (hd None (faults w)); simpl; intros; inv_pair; simpl;
    repeat split; congruence.
Qed.

Lemma BucketExists_inv c bucketName w r w' :
  BucketExists c bucketName w = (r, w') ->
  buckets w' = buckets w /\ statuses w' = statuses w /\
  forall b, r = Ok b -> b = bool_decide (is_Some (buckets w !! bucketName)).
Proof. apply sdk_BucketExists_inv. Qed.

Lemma sdk_RemoveObject_inv bucketName objectName w r w' :
  sdk_RemoveObject bucketName objectName w = (r, w') ->
  delete bucketName (buckets w') = delete bucketName (buckets w) /\
  statuses w' = statuses w.
Proof.
  unfold sdk_RemoveObject. unfold_M.
  destruct (hd None (faults w)); simpl; [intros; inv_pair; auto|].
  destruct (buckets w !! bucketName); simpl; intros; inv_pair; simpl; auto.
  split; [apply delete_insert_eq | reflexivity].
Qed.

Lemma DeleteBucket_loop_inv bucketName objectsCh w r w' :
  DeleteBucket_loop bucketName objectsCh w = (r, w') ->
  delete bucketName (buckets w') = delete bucketName (buckets w) /\
  statuses w' = statuses w.
Proof.
  revert w. induction objectsCh as [|[object|e] rest IH]; intros w; simpl.
  - unfold ret. intros; inv_pair; auto.
  - unfold bind at 1.
    destruct (sdk_RemoveObject bucketName (oi_Key object) w) as [[err|] w1] eqn:Hrm;
      apply sdk_RemoveObject_inv in Hrm as [Hb Hs].
    + unfold ret. intros; inv_pair; auto.
    + intros Hloop. apply IH in Hloop as [Hb' Hs']. split; congruence.
  - unfold ret. intros; inv_pair; auto.
Qed.

Lemma sdk_ListObjects_inv bucketName prefix w ch w' :
  sdk_ListObjects bucketName prefix w = (ch, w') ->
  buckets w' = buckets w /\ statuses w' = statuses w.
Proof.
  unfold sdk_ListObjects. unfold_M.
  destruct (hd None (faults w)); simpl; [intros; inv_pair; auto|].
  destruct (buckets w !! bucketName); simpl; intros; inv_pair; auto.
Qed.

Lemma sdk_RemoveBucket_inv bucketName w w' :
  sdk_RemoveBucket bucketName w = (None, w') ->
  buckets w' = delete bucketName (buckets w) /\ statuses w' = statuses w.
Proof.
  unfold sdk_RemoveBucket. unfold_M.
  destruct (hd None (faults w)); simpl; [intros; inv_pair; congruence|].
  destruct (buckets w !! bucketName); simpl; [|intros; discriminate].
  case_bool_decide; simpl; intros; inv_pair; simpl; auto; congruence.
Qed.

(** A bucket deletion that reports success has removed the bucket, with
    whatever it held, and nothing else. *)
Lemma DeleteBucket_ok c bucketName w w' :
  DeleteBucket c bucketName w = (None, w') ->
  buckets w' = delete bucketName (buckets w) /\ statuses w' = statuses w.
Proof.
  unfold DeleteBucket. unfold bind at 1.
  destruct (sdk_ListObjects bucketName "" w) as [ch w1] eqn:Hls.
  apply sdk_ListObjects_inv in Hls as [Hb1 Hs1].
  unfold bind at 1.
  destruct (DeleteBucket_loop bucketName ch w1) as [[err|] w2] eqn:Hloop;
    [unfold ret; intros; inv_pair; congruence|].
  apply DeleteBucket_loop_inv in Hloop as [Hb2 Hs2].
  unfold bind at 1.
  destruct (sdk_RemoveBucket bucketName w2) as [[err|] w3] eqn:Hrb;
    [unfold ret; intros; inv_pair; congruence|].
  apply sdk_RemoveBucket_inv in Hrb as [Hb3 Hs3].
  unfold ret. intros; inv_pair. split; congruence.
Qed.

(** ** The status table *)

Lemma DeleteDocumentStatusesForIndex_inv indexName w res w' :
  DeleteDocumentStatusesForIndex indexName w = (res, w') ->
  buckets w' = buckets w /\
  match res with
  | None => forall filename, statuses w' !! (indexName, filename) = None
  | Some _ => statuses w' = statuses w
  end.
Proof.
  unfold DeleteDocumentStatusesForIndex. unfold_M.
  destruct (hd None (faults w)); simpl; intros; inv_pair; simpl; split; auto.
  intros filename. apply map_lookup_filter_None. right. intros row _. simpl. tauto.
Qed.

(** ** Index deletion *)

(** C7, as amended: DeleteIndex judges by the bucket alone and never reads
    the metadata.  When the existence check reports a bucket, with or
    without valid metadata in it, DeleteIndex deletes the bucket with all
    its objects and then tries to delete the status rows of the index; when
    the bucket deletion succeeded the request reports success whether or
    not the status cleanup failed.  It answers NotFound when the existence
    check reports no bucket, and the check reports a bucket exactly when
    the store holds one. *)
Theorem DeleteIndex_cascade_best_effort h c r indexName w :
  MinioClient h = Some c ->
  GetPathParam r "name" = Ok indexName ->
  (forall b w1, BucketExists c indexName w = (Ok b, w1) ->
     b = true <-> is_Some (buckets w !! indexName)) /\
  (forall w1, BucketExists c indexName w = (Ok false, w1) ->
     HandleDeleteRAGIndex h r w =
       (RespondWithError (NewNotFoundError "RAG index not found" None), w1)) /\
  (forall w1 w2 res w3,
     BucketExists c indexName w = (Ok true, w1) ->
     DeleteBucket c indexName w1 = (None, w2) ->
     DeleteDocumentStatusesForIndex indexName w2 = (res, w3) ->
     let out := HandleDeleteRAGIndex h r w in
     fst out = RespondWithJSON http_StatusOK
                 (api_NewResponse data_empty "Successfully deleted RAG index" false) /\
     buckets (snd out) = delete indexName (buckets w) /\
     match res with
     | None => forall filename, statuses (snd out) !! (indexName, filename) = None
     | Some _ => statuses (snd out) = statuses w
     end).
Proof.
  intros Hc Hname. split; [|split].
  - intros b w1 Hex. apply BucketExists_inv in Hex as (_ & _ & Hb).
    rewrite (Hb b eq_refl). apply bool_decide_eq_true.
  - intros w1 Hex. unfold HandleDeleteRAGIndex. rewrite Hc, Hname.
    step Hex. reflexivity.
  - intros w1 w2 res w3 Hex Hdel Hst out.
    assert (exists w4, out = (RespondWithJSON http_StatusOK
              (api_NewResponse data_empty "Successfully deleted RAG index" false), w4)
            /\ buckets w4 = buckets w3 /\ statuses w4 = statuses w3) as (w4 & -> & Hb4 & Hs4).
    { subst out. unfold HandleDeleteRAGIndex. rewrite Hc, Hname.
      step Hex. step Hdel. step Hst.
      destruct res; eexists; (split; [reflexivity|]); split; reflexivity. }
    apply BucketExists_inv in Hex as (Hb1 & Hs1 & _).
    apply DeleteBucket_ok in Hdel as (Hb2 & Hs2).
    apply DeleteDocumentStatusesForIndex_inv in Hst as (Hb3 & Hs3).
    simpl. split; [reflexivity|]. split; [congruence|].
    destruct res; [congruence|]. intros filename. rewrite Hs4. apply Hs3.
Qed.

Lemma DeleteIndex_cascade_best_effort_witness :
  let w := sample_world [None; None; None; None; None; None; Some sample_fault] in
  let out := HandleDeleteRAGIndex sample_handler (sample_request "docs" "") w in
  fst out = RespondWithJSON http_StatusOK
              (api_NewResponse data_empty "Successfully deleted RAG index" false)
  /\ buckets (snd out) = delete "docs" sample_buckets
  /\ statuses (snd out) = sample_statuses.
Proof.
  intros w out.
  pose (w1 := snd (BucketExists mkClient "docs" w)).
  pose (w2 := snd (DeleteBucket mkClient "docs" w1)).
  pose (w3 := snd (DeleteDocumentStatusesForIndex "docs" w2)).
  destruct (DeleteIndex_cascade_best_effort sample_handler mkClient
              (sample_request "docs" "") "docs" w eq_refl eq_refl) as (_ & _ & Hrun).
  exact (Hrun w1 w2 (Some sample_fault) w3 ltac:(run) ltac:(run) ltac:(run)).
Defined.

(** The claim as stated fails for a name whose bucket holds no valid
    metadata.  By the invariant of the specification such a name is not an
    index, so the claim promises NotFound for it; the handler deletes the
    bucket and reports success. *)
Lemma DeleteIndex_bucket_without_metadata :
  let w := sample_world [] in
  let out := HandleDeleteRAGIndex sample_handler (sample_request "raw" "") w in
  is_Some (buckets w !! "raw") /\
  @stored_metadata sample_stdlib (buckets w) "raw" = None /\
  fst out = RespondWithJSON http_StatusOK
              (api_NewResponse data_empty "Successfully deleted RAG index" false) /\
  buckets (snd out) !! "raw" = None.
Proof. vm_compute. repeat split. eauto. Qed.

(** ** Index creation *)

Lemma sdk_MakeBucket_inv bucketName w r w' :
  sdk_MakeBucket bucketName w = (r, w') ->
  delete bucketName (buckets w') = delete bucketName (buckets w) /\
  statuses w' = statuses w.
Proof.
  unfold sdk_MakeBucket. unfold_M.
  destruct (hd None (faults w)); simpl; [intros; inv_pair; auto|].
  destruct (buckets w !! bucketName); simpl; intros; inv_pair; simpl; auto.
  split; [apply delete_insert_eq | reflexivity].
Qed.

Lemma CreateBucket_inv c bucketName w r w' :
  CreateBucket c bucketName w = (r, w') ->
  delete bucketName (buckets w') = delete bucketName (buckets w) /\
  statuses w' = statuses w.
Proof.
  unfold CreateBucket. unfold bind at 1.
  destruct (sdk_BucketExists bucketName w) as [[[|]|err] w1] eqn:Hex;
    apply sdk_BucketExists_inv in Hex as (Hb1 & Hs1 & _).
  - unfold ret. intros; inv_pair. split; congruence.
  - unfold bind at 1.
    destruct (sdk_MakeBucket bucketName w1) as [[err|] w2] eqn:Hmk;
      apply sdk_MakeBucket_inv in Hmk as (Hb2 & Hs2);
      unfold ret; intros; inv_pair; split; congruence.
  - unfold ret. intros; inv_pair. split; congruence.
Qed.

Lemma SetBucketNotification_inv c bucketName suffix w r w' :
  SetBucketNotification c bucketName suffix w = (r, w') ->
  delete bucketName (buckets w') = delete bucketName (buckets w) /\
  statuses w' = statuses w.
Proof.
  unfold SetBucketNotification, sdk_SetBucketNotification. unfold_M.
  destruct (hd None (faults w)); simpl; [intros; inv_pair; auto|].
  destruct (buckets w !! bucketName); simpl; intros; inv_pair; simpl; auto.
  split; [apply delete_insert_eq | reflexivity].
Qed.

Lemma sdk_PutObject_inv bucketName objectName data size contentType w r w' :
  sdk_PutObject bucketName objectName data size contentType w = (r, w') ->
  delete bucketName (buckets w') = delete bucketName (buckets w) /\
  statuses w' = statuses w.
Proof.
  unfold sdk_PutObject. unfold_M.
  destruct (hd None (faults w)); simpl; [intros; inv_pair; auto|].
  destruct (buckets w !! bucketName); simpl; intros; inv_pair; simpl; auto.
  split; [apply delete_insert_eq | reflexivity].
Qed.

Section Creation.
Context `{GoStdlib}.

Lemma putIndexMetadata_inv c bucketName index w r w' :
  putIndexMetadata c bucketName index w = (r, w') ->
  delete bucketName (buckets w') = delete bucketName (buckets w) /\
  statuses w' = statuses w.
Proof.
  unfold putIndexMetadata, PutObjectBytes.
  destruct (json_Marshal index) as [data|err]; [|unfold ret; intros; inv_pair; auto].
  unfold bind at 1. unfold bind at 1.
  destruct (sdk_PutObject _ _ _ _ _ w) as [[err|] w1] eqn:Hput;
    apply sdk_PutObject_inv in Hput as (Hb & Hs);
    unfold ret; intros; inv_pair; auto.
Qed.

Lemma isValidIndexName_nonempty name :
  isValidIndexName name = true -> String.eqb name "" = false.
Proof.
  destruct name; [|reflexivity]. discriminate.
Qed.

(** C1 (as amended): when the metadata write of CreateIndex fails, the
    handler attempts to delete the bucket and answers with the metadata
    write's InternalServerError whatever the outcome of that deletion; when
    the deletion succeeds the object store is as it was before the request,
    so that a later BucketExists check for the name returns false. *)
Theorem CreateIndex_metadata_failure_rollback h c r req w w1 w2 w3 e w4 dres w5 :
  MinioClient h = Some c ->
  req_CreateBody r = Ok req ->
  isValidIndexName (create_Name req) = true ->
  BucketExists c (create_Name req) w = (Ok false, w1) ->
  CreateBucket c (create_Name req) w1 = (None, w2) ->
  SetBucketNotification c (create_Name req) "KAGENT" w2 = (None, w3) ->
  putIndexMetadata c (create_Name req)
    (mkRAGIndex (create_Name req) (create_Description req) (fst (time_Now w3)))
    (snd (time_Now w3)) = (Some e, w4) ->
  DeleteBucket c (create_Name req) (snd (log_Error e "Failed to store metadata" w4))
    = (dres, w5) ->
  HandleCreateRAGIndex h r w =
    (RespondWithError (NewInternalServerError "Failed to create index metadata" (Some e)), w5)
  /\ (dres = None ->
      buckets w5 = buckets w /\
      forall b w6, BucketExists c (create_Name req) w5 = (Ok b, w6) -> b = false).
Proof.
  intros Hc Hreq Hvalid Hex Hmk Hnt Hput Hdel. split.
  - unfold HandleCreateRAGIndex. rewrite Hc, Hreq.
    rewrite (isValidIndexName_nonempty _ Hvalid), Hvalid.
    change (negb true) with false. cbv beta iota.
    step Hex. step Hmk. step Hnt. step_pure. step Hput. step_pure. step Hdel.
    reflexivity.
  - intros ->.
    apply BucketExists_inv in Hex as (Hb1 & _ & Habs).
    specialize (Habs false eq_refl). symmetry in Habs.
    apply bool_decide_eq_false in Habs.
    assert (buckets w !! create_Name req = None) as Hnone.
    { destruct (buckets w !! create_Name req) eqn:E; [|reflexivity].
      exfalso. apply Habs. eauto. }
    apply CreateBucket_inv in Hmk as (Hb2 & _).
    apply SetBucketNotification_inv in Hnt as (Hb3 & _).
    apply putIndexMetadata_inv in Hput as (Hb4 & _).
    apply DeleteBucket_ok in Hdel as (Hb5 & _).
    simpl in Hb4, Hb5.
    assert (buckets w5 = buckets w) as Hsame.
    { rewrite Hb5, Hb4, Hb3, Hb2, Hb1. apply delete_id. exact Hnone. }
    split; [exact Hsame|].
    intros b w6 Hex'. apply BucketExists_inv in Hex' as (_ & _ & Hb).
    rewrite (Hb b eq_refl), Hsame. apply bool_decide_eq_false.
    rewrite Hnone. intros [? ?]. discriminate.
Qed.

End Creation.

Lemma CreateIndex_metadata_failure_rollback_witness :
  let w := sample_world [None; None; None; None; Some sample_fault] in
  let out := @HandleCreateRAGIndex sample_stdlib sample_handler
               (with_create "new-idx" "Fresh index" (sample_request "" "")) w in
  fst out = RespondWithError (NewInternalServerError "Failed to create index metadata"
              (Some (fmt_Errorf "failed to store metadata"
                       (fmt_Errorf "failed to put object" sample_fault))))
  /\ buckets (snd out) = sample_buckets
  /\ fst (BucketExists mkClient "new-idx" (snd out)) = Ok false.
Proof.
  intros w out.
  pose (req := mkCreateRAGIndexRequest "new-idx" "Fresh index").
  pose (w1 := snd (BucketExists mkClient "new-idx" w)).
  pose (w2 := snd (CreateBucket mkClient "new-idx" w1)).
  pose (w3 := snd (SetBucketNotification mkClient "new-idx" "KAGENT" w2)).
  pose (e := fmt_Errorf "failed to store metadata"
               (fmt_Errorf "failed to put object" sample_fault)).
  pose (w4 := snd (@putIndexMetadata sample_stdlib mkClient "new-idx"
                     (mkRAGIndex "new-idx" "Fresh index" (fst (time_Now w3)))
                     (snd (time_Now w3)))).
  pose (w5 := snd (DeleteBucket mkClient "new-idx"
                     (snd (log_Error e "Failed to store metadata" w4)))).
  destruct (@CreateIndex_metadata_failure_rollback sample_stdlib sample_handler mkClient
              (with_create "new-idx" "Fresh index" (sample_request "" ""))
              req w w1 w2 w3 e w4 None w5 eq_refl eq_refl
              ltac:(run) ltac:(run) ltac:(run) ltac:(run) ltac:(run) ltac:(run))
    as [Hrun Hroll].
  subst out. rewrite Hrun. destruct (Hroll eq_refl) as [Hb Hex].
  split; [reflexivity|]. split; [exact Hb|].
  vm_compute. reflexivity.
Defined.

(** The claim as stated fails when the compensating deletion itself fails:
    the metadata write is reported, and the bucket is still there. *)
Lemma CreateIndex_rollback_incomplete :
  let w := sample_world [None; None; None; None; Some sample_fault; None; Some other_fault] in
  let out := @HandleCreateRAGIndex sample_stdlib sample_handler
               (with_create "new-idx" "Fresh index" (sample_request "" "")) w in
  fst out = RespondWithError (NewInternalServerError "Failed to create index metadata"
              (Some (fmt_Errorf "failed to store metadata"
                       (fmt_Errorf "failed to put object" sample_fault))))
  /\ fst (BucketExists mkClient "new-idx" (snd out)) = Ok true.
Proof. vm_compute. split; reflexivity. Qed.

(** ** Index listing *)

Section Listing.
Context `{GoStdlib}.

Lemma GetObject_inv c bucketName objectName w r w' :
  GetObject c bucketName objectName w = (r, w') ->
  buckets w' = buckets w /\ statuses w' = statuses w /\
  (forall data, r = Ok data ->
     (b ← buckets w !! bucketName; o ← objects b !! objectName; Some (obj_data o))
     = Some data) /\
  (fault_free w ->
   fault_free w' /\
   result_to_option r =
     (b ← buckets w !! bucketName; o ← objects b !! objectName; Some (obj_data o))).
Proof.
  unfold GetObject, sdk_GetObject, io_ReadAll, fault_free. unfold_M.
  destruct w as [bs st fs ck uu lg]. simpl.
  destruct fs as [|[e1|] fs]; simpl;
    [| intros Hrun; inv_pair; simpl;
       (split; [reflexivity|]); (split; [reflexivity|]);
       (split; [intros ? ?; discriminate|]);
       intros Hff; apply Forall_cons in Hff as [? _]; discriminate |].
  - destruct (bs !! bucketName) as [b|]; simpl;
      [destruct (objects b !! objectName) as [o|]; simpl|];
      intros Hrun; inv_pair; simpl; repeat split; auto; congruence.
  - destruct fs as [|[e2|] fs]; simpl;
      [| intros Hrun; inv_pair; simpl;
         (split; [reflexivity|]); (split; [reflexivity|]);
         (split; [intros ? ?; discriminate|]);
         intros Hff; apply Forall_cons in Hff as [_ Hff];
         apply Forall_cons in Hff as [? _]; discriminate |].
    + destruct (bs !! bucketName) as [b|]; simpl;
        [destruct (objects b !! objectName) as [o|]; simpl|];
        intros Hrun; inv_pair; simpl; repeat split; auto; congruence.
    + destruct (bs !! bucketName) as [b|]; simpl;
        [destruct (objects b !! objectName) as [o|]; simpl|];
        intros Hrun; inv_pair; simpl;
        (split; [reflexivity|]); (split; [reflexivity|]);
        (split; [intros ? ?; congruence|]);
        intros Hff; apply Forall_cons in Hff as [_ Hff];
        apply Forall_cons in Hff as [_ Hff]; auto.
Qed.

Lemma getIndexMetadata_inv c bucketName w r w' :
  getIndexMetadata c bucketName w = (r, w') ->
  buckets w' = buckets w /\ statuses w' = statuses w /\
  (forall m, r = Ok m -> stored_metadata (buckets w) bucketName = Some m) /\
  (fault_free w ->
   fault_free w' /\ result_to_option r = stored_metadata (buckets w) bucketName).
Proof.
  unfold getIndexMetadata, stored_metadata. unfold bind at 1.
  destruct (GetObject c bucketName metadataFile w) as [g w1] eqn:Hget.
  apply GetObject_inv in Hget as (Hb & Hs & Hsound & Hexact).
  destruct g as [data|err].
  - specialize (Hsound data eq_refl).
    assert (buckets w !! bucketName
              ≫= (fun b => objects b !! metadataFile
                    ≫= fun o => result_to_option (json_Unmarshal (obj_data o)))
            = result_to_option (json_Unmarshal data)) as Hst.
    { destruct (buckets w !! bucketName) as [b|]; simpl in *; [|discriminate].
      destruct (objects b !! metadataFile) as [o|]; simpl in *; [|discriminate].
      congruence. }
    rewrite Hst.
    destruct (json_Unmarshal data) as [index|perr]; unfold ret; intros Hrun; inv_pair;
      simpl; (split; [exact Hb|]); (split; [exact Hs|]);
      (split; [intros ? ?; congruence|]);
      intros Hff; destruct (Hexact Hff) as [Hff1 _]; auto.
  - unfold ret. intros Hrun. inv_pair.
    split; [exact Hb|]. split; [exact Hs|]. split; [intros ? ?; discriminate|].
    intros Hff. destruct (Hexact Hff) as [Hff1 Hres]. split; [exact Hff1|].
    simpl in Hres. simpl.
    destruct (buckets w !! bucketName) as [b|]; simpl in *; [|reflexivity].
    destruct (objects b !! metadataFile) as [o|]; simpl in *; [discriminate|reflexivity].
Qed.

Lemma ListRAGIndices_loop_inv c bucketNames : forall indices w out w',
  ListRAGIndices_loop c bucketNames indices w = (out, w') ->
  buckets w' = buckets w /\ statuses w' = statuses w /\
  exists found,
    out = (indices ++ found)%list /\
    found `sublist_of` omap (stored_metadata (buckets w)) bucketNames /\
    (fault_free w -> found = omap (stored_metadata (buckets w)) bucketNames).
Proof.
  induction bucketNames as [|bucket rest IH]; intros indices w out w'; simpl.
  - unfold ret. intros; inv_pair. repeat split; auto.
    exists []. rewrite app_nil_r. repeat split; auto.
  - unfold bind at 1.
    destruct (getIndexMetadata c bucket w) as [r w1] eqn:Hget.
    apply getIndexMetadata_inv in Hget as (Hb1 & Hs1 & Hsound & Hexact).
    destruct r as [metadata|err]; intros Hloop;
      apply IH in Hloop as (Hb2 & Hs2 & found & -> & Hsub & Hfull);
      rewrite Hb1 in Hsub, Hfull.
    + rewrite (Hsound metadata eq_refl). simpl.
      split; [congruence|]. split; [congruence|].
      exists (metadata :: found). rewrite <- app_assoc. simpl.
      split; [reflexivity|]. split; [apply sublist_skip; exact Hsub|].
      intros Hff. destruct (Hexact Hff) as [Hff1 _]. rewrite (Hfull Hff1). reflexivity.
    + split; [congruence|]. split; [congruence|].
      exists found. split; [reflexivity|]. split.
      * destruct (stored_metadata (buckets w) bucket); simpl;
          [apply sublist_cons|]; exact Hsub.
      * intros Hff. destruct (Hexact Hff) as [Hff1 Hres]. simpl in Hres.
        rewrite <- Hres. simpl. apply Hfull, Hff1.
Qed.

Lemma ListBuckets_inv c w r w' :
  ListBuckets c w = (r, w') ->
  buckets w' = buckets w /\ statuses w' = statuses w /\
  (fault_free w -> fault_free w') /\
  forall bucketNames, r = Ok bucketNames ->
    bucketNames = map fst (map_to_list (buckets w)).
Proof.
  unfold ListBuckets, sdk_ListBuckets. unfold_M.
  pose proof (fault_free_tl w) as Htl.
  destruct (hd None (faults w)); simpl; intros; inv_pair; simpl; repeat split; auto;
    try congruence.
  intros bucketNames [= <-]. rewrite map_map. reflexivity.
Qed.


End Listing.


(** ** Exact effect of object writes and removals *)

Lemma sdk_PutObject_run bucketName objectName data size contentType w r w' :
  sdk_PutObject bucketName objectName data size contentType w = (r, w') ->
  statuses w' = statuses w /\
  match r with
  | Some _ => buckets w' = buckets w
  | None =>
    exists b, buckets w !! bucketName = Some b /\
      buckets w' =
        <[bucketName := mkBucket
            (<[objectName := mkObject data size contentType (clock w)]> (objects b))
            (notification b)]> (buckets w)
  end.
Proof.
  unfold sdk_PutObject. unfold_M.
  destruct (hd None (faults w)); simpl; [intros; inv_pair; auto|].
  destruct (buckets w !! bucketName) as [b|] eqn:Hb; simpl; intros; inv_pair; simpl; eauto.
Qed.

Lemma sdk_RemoveObject_run bucketName objectName w r w' :
  sdk_RemoveObject bucketName objectName w = (r, w') ->
  statuses w' = statuses w /\
  match r with
  | Some _ => buckets w' = buckets w
  | None =>
    exists b, buckets w !! bucketName = Some b /\
      buckets w' =
        <[bucketName := mkBucket (delete objectName (objects b)) (notification b)]>
          (buckets w)
  end.
Proof.
  unfold sdk_RemoveObject. unfold_M.
  destruct (hd None (faults w)); simpl; [intros; inv_pair; auto|].
  destruct (buckets w !! bucketName) as [b|] eqn:Hb; simpl; intros; inv_pair; simpl; eauto.
Qed.

Lemma DeleteFile_run c bucketName objectName w r w' :
  DeleteFile c bucketName objectName w = (r, w') ->
  statuses w' = statuses w /\
  match r with
  | Some _ => buckets w' = buckets w
  | None =>
    exists b, buckets w !! bucketName = Some b /\
      buckets w' =
        <[bucketName := mkBucket (delete objectName (objects b)) (notification b)]>
          (buckets w)
  end.
Proof.
  unfold DeleteFile. unfold bind.
  destruct (sdk_RemoveObject bucketName objectName w) as [[err|] w1] eqn:Hrm;
    apply sdk_RemoveObject_run in Hrm as [Hs Hb]; unfold ret; intros; inv_pair; auto.
Qed.

Lemma UploadFile_run c bucketName objectName reader size contentType w r w' :
  UploadFile c bucketName objectName reader size contentType w = (r, w') ->
  statuses w' = statuses w /\
  match r with
  | Some _ => buckets w' = buckets w
  | None =>
    exists b, buckets w !! bucketName = Some b /\
      buckets w' =
        <[bucketName := mkBucket
            (<[objectName := mkObject reader size contentType (clock w)]> (objects b))
            (notification b)]> (buckets w)
  end.
Proof.
  unfold UploadFile. unfold bind.
  destruct (sdk_PutObject _ _ _ _ _ w) as [[err|] w1] eqn:Hput;
    apply sdk_PutObject_run in Hput as [Hs Hb]; unfold ret; intros; inv_pair; auto.
Qed.

Lemma DeleteDocumentStatus_run indexName filename w r w' :
  DeleteDocumentStatus indexName filename w = (r, w') ->
  buckets w' = buckets w /\
  match r with
  | Some _ => statuses w' = statuses w
  | None => statuses w' = delete (indexName, filename) (statuses w)
  end.
Proof.
  unfold DeleteDocumentStatus. unfold_M.
  destruct (hd None (faults w)); simpl; intros; inv_pair; auto.
Qed.

(** ** Document upload: validation *)

Lemma supportedExtensions_allowlist ext :
  map_index supportedExtensions ext = true <->
  ext ∈ [".txt"; ".md"; ".json"; ".csv"; ".docx"; ".pdf"].
Proof.
  unfold map_index, supportedExtensions.
  split.
  - destruct (list_to_map _ !! ext) as [b|] eqn:Hl; simpl; [|discriminate].
    intros ->. apply elem_of_list_to_map_2 in Hl.
    apply (list_elem_of_fmap_2 fst) in Hl. exact Hl.
  - intros Hin.
    assert ((list_to_map [(".txt", true); (".md", true); (".json", true);
                          (".csv", true); (".docx", true); (".pdf", true)]
             : gmap string bool) !! ext = Some true) as ->; [|reflexivity].
    apply elem_of_list_to_map_1.
    + apply (bool_decide_unpack _). vm_compute. exact I.
    + repeat (apply elem_of_cons in Hin as [->|Hin]; [repeat constructor|]).
      inversion Hin.
Qed.

Section Upload.
Context `{GoStdlib}.

(** C3 (as amended): an upload whose file name is the reserved metadata
    name, or whose lower-cased extension is outside the allowlist, is
    rejected with BadRequest and nothing is stored, provided the index's
    bucket exists; the existence check comes first, and for an absent
    bucket the answer is NotFound. *)
Theorem UploadDocument_rejects_bad_file h c r indexName file handler w :
  MinioClient h = Some c ->
  GetPathParam r "name" = Ok indexName ->
  req_ParseMultipartForm r = None ->
  req_FormFile r = Ok (file, handler) ->
  fh_Filename handler = metadataFile \/
  strings_ToLower (filepath_Ext (fh_Filename handler))
    ∉ [".txt"; ".md"; ".json"; ".csv"; ".docx"; ".pdf"] ->
  (forall w1, BucketExists c indexName w = (Ok true, w1) ->
     HandleUploadDocument h r w =
       (RespondWithError
          (NewBadRequestError
             (if String.eqb (fh_Filename handler) metadataFile
              then "Cannot upload file with reserved name"
              else "Unsupported file type '" +:+
                   strings_ToLower (filepath_Ext (fh_Filename handler)) +:+
                   "'. Supported types: .txt, .md, .json, .csv, .docx, .pdf")
             None), w1) /\
     buckets w1 = buckets w /\ statuses w1 = statuses w) /\
  (forall w1, BucketExists c indexName w = (Ok false, w1) ->
     HandleUploadDocument h r w =
       (RespondWithError (NewNotFoundError "RAG index not found" None), w1)).
Proof.
  intros Hc Hname Hform Hfile Hbad. split.
  - intros w1 Hex. split; [|apply BucketExists_inv in Hex; tauto].
    unfold HandleUploadDocument. rewrite Hc, Hname. step Hex. rewrite Hform, Hfile.
    destruct (String.eqb_spec (fh_Filename handler) metadataFile) as [Heq|Hne].
    + reflexivity.
    + destruct Hbad as [Hbad|Hbad]; [contradiction|].
      destruct (map_index supportedExtensions _) eqn:Hext.
      * apply supportedExtensions_allowlist in Hext. contradiction.
      * reflexivity.
  - intros w1 Hex. unfold HandleUploadDocument. rewrite Hc, Hname. step Hex. reflexivity.
Qed.

End Upload.

Lemma UploadDocument_rejects_bad_file_witness :
  fst (@HandleUploadDocument sample_stdlib sample_handler
         (with_file "setup.EXE" "MZ" "" (sample_request "docs" "")) (sample_world []))
  = RespondWithError
      (NewBadRequestError
         "Unsupported file type '.exe'. Supported types: .txt, .md, .json, .csv, .docx, .pdf"
         None).
Proof.
  pose (w := sample_world []).
  pose (w1 := snd (BucketExists mkClient "docs" w)).
  assert (@strings_ToLower sample_stdlib (filepath_Ext "setup.EXE")
            ∉ [".txt"; ".md"; ".json"; ".csv"; ".docx"; ".pdf"]) as Hext
    by (apply (bool_decide_unpack _); vm_compute; exact I).
  destruct (@UploadDocument_rejects_bad_file sample_stdlib sample_handler mkClient
              (with_file "setup.EXE" "MZ" "" (sample_request "docs" "")) "docs" "MZ"
              (mkFileHeader "setup.EXE" 2 "") w eq_refl eq_refl eq_refl eq_refl
              (or_intror Hext)) as [Hbad _].
  destruct (Hbad w1 ltac:(run)) as (Hrun & _).
  fold w. rewrite Hrun. vm_compute. reflexivity.
Defined.

(** The claim as stated fails for an index whose bucket does not exist:
    the reserved file name is then answered with NotFound, not
    BadRequest. *)
Lemma UploadDocument_reserved_name_absent_index :
  fst (@HandleUploadDocument sample_stdlib sample_handler
         (with_file ".metadata.json" "{}" "" (sample_request "nope" "")) (sample_world []))
  = RespondWithError (NewNotFoundError "RAG index not found" None).
Proof. vm_compute. reflexivity. Qed.

(** ** Document deletion *)

Lemma BucketExists_faults c bucketName w r w' :
  BucketExists c bucketName w = (r, w') ->
  faults w' = tl (faults w) /\
  forall err, r = Err err -> hd None (faults w) = Some err.
Proof.
  unfold BucketExists, sdk_BucketExists. unfold_M.
  destruct (hd None (faults w)); simpl; intros; inv_pair; simpl; split; congruence.
Qed.

Lemma DeleteFile_fault c bucketName objectName w err w' :
  DeleteFile c bucketName objectName w = (Some err, w') ->
  is_Some (buckets w !! bucketName) ->
  exists e, hd None (faults w) = Some e.
Proof.
  unfold DeleteFile, sdk_RemoveObject. unfold_M. intros Hrun [b Hb]. revert Hrun.
  destruct (hd None (faults w)); simpl; [eauto|].
  rewrite Hb. simpl. intros; inv_pair.
Qed.

(** C4 (as amended): deleting a document fails only with BadRequest (a
    missing path parameter or the reserved metadata file name), NotFound
    (the index's bucket does not exist) or InternalServerError (the client
    is not configured or the object store faults); on success the blob is
    gone from the bucket, and the deletion of the status row is
    best-effort: its failure leaves the answer a success. *)
Theorem DeleteDocument_outcomes h r w :
  let out := HandleDeleteDocument h r w in
  match fst out with
  | RespondWithJSON code body =>
    code = http_StatusOK /\
    exists indexName filename b,
      GetPathParam r "name" = Ok indexName /\
      GetPathParam r "filename" = Ok filename /\
      filename <> metadataFile /\
      buckets (snd out) !! indexName = Some b /\
      objects b !! filename = None
  | RespondWithError e =>
    match Kind e with
    | BadRequest =>
      (exists err, GetPathParam r "name" = Err err) \/
      (exists err, GetPathParam r "filename" = Err err) \/
      GetPathParam r "filename" = Ok metadataFile
    | NotFound =>
      exists indexName,
        GetPathParam r "name" = Ok indexName /\ buckets w !! indexName = None
    | InternalServerError =>
      MinioClient h = None \/ exists err, hd None (faults w) = Some err \/
                                          hd None (tl (faults w)) = Some err
    | Conflict => False
    end
  end /\
  (forall c indexName filename w1 w2 res w3,
     MinioClient h = Some c ->
     GetPathParam r "name" = Ok indexName ->
     GetPathParam r "filename" = Ok filename ->
     BucketExists c indexName w = (Ok true, w1) ->
     filename <> metadataFile ->
     DeleteFile c indexName filename w1 = (None, w2) ->
     DeleteDocumentStatus indexName filename w2 = (res, w3) ->
     fst out = RespondWithJSON http_StatusOK
                 (api_NewResponse data_empty "Successfully deleted document" false) /\
     match res with
     | None => statuses (snd out) !! (indexName, filename) = None
     | Some _ => statuses (snd out) = statuses w
     end).
Proof.
  intros out. subst out. split.
  - unfold HandleDeleteDocument.
    destruct (MinioClient h) as [c|]; [|simpl; auto].
    destruct (GetPathParam r "name") as [indexName|err] eqn:Hname; [|simpl; eauto].
    destruct (GetPathParam r "filename") as [filename|err] eqn:Hfile; [|simpl; eauto].
    destruct (BucketExists c indexName w) as [ex w1] eqn:Hex. step Hex.
    pose proof (BucketExists_faults _ _ _ _ _ Hex) as (Hf1 & Hfault1).
    apply BucketExists_inv in Hex as (Hb1 & Hs1 & Hbool).
    destruct ex as [[|]|err].
    + destruct (String.eqb_spec filename metadataFile) as [->|Hne]; [simpl; auto|].
      destruct (DeleteFile c indexName filename w1) as [derr w2] eqn:Hdel. step Hdel.
      pose proof Hdel as Hdel0.
      apply DeleteFile_run in Hdel as (Hs2 & Hb2).
      destruct derr as [derr|].
      * step_pure. simpl. right.
        specialize (Hbool true eq_refl). symmetry in Hbool.
        apply bool_decide_eq_true in Hbool. rewrite <- Hb1 in Hbool.
        destruct (DeleteFile_fault _ _ _ _ _ _ Hdel0 Hbool) as [e He].
        exists e. right. rewrite <- Hf1. exact He.
      * destruct (DeleteDocumentStatus indexName filename w2) as [res w3] eqn:Hst.
        step Hst. apply DeleteDocumentStatus_run in Hst as (Hb3 & _).
        destruct Hb2 as (b & Hb & Hb2).
        assert (forall w4 : World, buckets w4 = buckets w3 ->
                  exists b', buckets w4 !! indexName = Some b' /\
                             objects b' !! filename = None) as Hgone.
        { intros w4 ->. rewrite Hb3, Hb2, lookup_insert_eq. eexists. split; [reflexivity|].
          simpl. apply lookup_delete_eq. }
        destruct res as [serr|]; step_pure; step_pure; simpl;
          (split; [reflexivity|]);
          destruct (Hgone w3 eq_refl) as (b' & ? & ?);
          exists indexName, filename, b'; auto.
    + simpl. exists indexName. split; [reflexivity|].
      specialize (Hbool false eq_refl). symmetry in Hbool.
      apply bool_decide_eq_false in Hbool.
      destruct (buckets w !! indexName); [exfalso; eauto|reflexivity].
    + step_pure. simpl. right. exists err. left. auto.
  - intros c indexName filename w1 w2 res w3 Hc Hname Hfile Hex Hne Hdel Hst.
    assert (exists w4, HandleDeleteDocument h r w =
              (RespondWithJSON http_StatusOK
                 (api_NewResponse data_empty "Successfully deleted document" false), w4)
            /\ statuses w4 = statuses w3) as (w4 & -> & Hs4).
    { unfold HandleDeleteDocument. rewrite Hc, Hname, Hfile. step Hex.
      apply String.eqb_neq in Hne. rewrite Hne. step Hdel. step Hst.
      destruct res; eexists; split; reflexivity. }
    apply BucketExists_inv in Hex as (_ & Hs1 & _).
    apply DeleteFile_run in Hdel as (Hs2 & _).
    apply DeleteDocumentStatus_run in Hst as (_ & Hs3).
    simpl. split; [reflexivity|]. rewrite Hs4.
    destruct res; [congruence|]. rewrite Hs3. apply lookup_delete_eq.
Qed.

(** The claim as stated fails for an index that does not exist: the
    deletion is answered with NotFound. *)
Lemma DeleteDocument_absent_index_NotFound :
  fst (HandleDeleteDocument sample_handler (sample_request "nope" "a.txt") (sample_world []))
  = RespondWithError (NewNotFoundError "RAG index not found" None).
Proof. vm_compute. reflexivity. Qed.

Lemma DeleteDocument_outcomes_witness :
  let out := HandleDeleteDocument sample_handler (sample_request "docs" "a.txt")
               (sample_world [None; None; Some sample_fault]) in
  fst out = RespondWithJSON http_StatusOK
              (api_NewResponse data_empty "Successfully deleted document" false)
  /\ statuses (snd out) = sample_statuses.
Proof.
  intros out.
  pose (w := sample_world [None; None; Some sample_fault]).
  pose (w1 := snd (BucketExists mkClient "docs" w)).
  pose (w2 := snd (DeleteFile mkClient "docs" "a.txt" w1)).
  pose (w3 := snd (DeleteDocumentStatus "docs" "a.txt" w2)).
  destruct (DeleteDocument_outcomes sample_handler (sample_request "docs" "a.txt") w)
    as (_ & Hbest).
  exact (Hbest mkClient "docs" "a.txt" w1 w2 (Some sample_fault) w3 eq_refl eq_refl eq_refl
           ltac:(run) ltac:(discriminate)
           ltac:(run) ltac:(run)).
Defined.

(** ** Status updates *)

Lemma UpdateDocumentStatus_run indexName filename status errorMsg w res w' :
  UpdateDocumentStatus indexName filename status errorMsg w = (res, w') ->
  res = hd None (faults w) /\
  buckets w' = buckets w /\
  match res with
  | Some _ => statuses w' = statuses w
  | None =>
    exists id,
      statuses w' =
        <[(indexName, filename) := mkDocumentStatus id indexName filename status errorMsg]>
          (statuses w) /\
      (forall row, statuses w !! (indexName, filename) = Some row -> id = ID row)
  end.
Proof.
  unfold UpdateDocumentStatus. unfold_M.
  destruct (hd None (faults w)); simpl; [intros; inv_pair; auto|].
  destruct (statuses w !! (indexName, filename)) as [row|] eqn:Hrow; simpl;
    intros; inv_pair; simpl; (split; [reflexivity|]); (split; [reflexivity|]);
    eexists; (split; [reflexivity|]); intros; congruence.
Qed.

(** The status store never looks at the object store. *)
Lemma UpdateDocumentStatus_blind indexName filename status errorMsg store w :
  fst (UpdateDocumentStatus indexName filename status errorMsg
         (set_buckets (fun _ => store) w))
  = fst (UpdateDocumentStatus indexName filename status errorMsg w).
Proof.
  unfold UpdateDocumentStatus. unfold_M. simpl.
  destruct (hd None (faults w)); simpl; [reflexivity|].
  destruct (statuses w !! (indexName, filename)); reflexivity.
Qed.

(** C6: with a non-empty status, UpdateDocumentStatus upserts the row of
    (index, filename) and fails, with InternalServerError, only when the
    status store faults; the object store is neither read nor written, so
    whether the document's blob exists has no influence on the outcome. *)
Theorem UpdateDocumentStatus_upsert_only_store_faults h r indexName filename req w :
  GetPathParam r "name" = Ok indexName ->
  GetPathParam r "filename" = Ok filename ->
  req_StatusBody r = Ok req ->
  status_Status req <> "" ->
  let out := HandleUpdateDocumentStatus h r w in
  match hd None (faults w) with
  | Some err =>
    fst out = RespondWithError
                (NewInternalServerError "Failed to update document status" (Some err)) /\
    statuses (snd out) = statuses w
  | None =>
    fst out = RespondWithJSON http_StatusOK
                (api_NewResponse data_empty "Successfully updated document status" false) /\
    (exists row,
       statuses (snd out) !! (indexName, filename) = Some row /\
       IndexName row = indexName /\ Filename row = filename /\
       Status row = status_Status req /\ ErrorMsg row = status_ErrorMsg req /\
       (forall old, statuses w !! (indexName, filename) = Some old -> ID row = ID old)) /\
    (forall key, key <> (indexName, filename) ->
       statuses (snd out) !! key = statuses w !! key)
  end /\
  buckets (snd out) = buckets w /\
  (forall store, fst (HandleUpdateDocumentStatus h r (set_buckets (fun _ => store) w))
                 = fst out).
Proof.
  intros Hname Hfile Hbody Hstatus out. subst out.
  apply String.eqb_neq in Hstatus.
  assert (forall w0,
    HandleUpdateDocumentStatus h r w0 =
    let (res, w1) := UpdateDocumentStatus indexName filename (status_Status req)
                       (status_ErrorMsg req) w0 in
    match res with
    | Some err =>
      (RespondWithError
         (NewInternalServerError "Failed to update document status" (Some err)),
       snd (log_Error err "Failed to update document status" w1))
    | None =>
      (RespondWithJSON http_StatusOK
         (api_NewResponse data_empty "Successfully updated document status" false),
       snd (log_Info "Successfully updated document status" w1))
    end) as Hrun.
  { intros w0. unfold HandleUpdateDocumentStatus. rewrite Hname, Hfile, Hbody, Hstatus.
    unfold bind at 1.
    destruct (UpdateDocumentStatus _ _ _ _ w0) as [[err|] w1]; reflexivity. }
  split; [|split].
  - rewrite Hrun.
    destruct (UpdateDocumentStatus _ _ _ _ w) as [res w1] eqn:Hup.
    apply UpdateDocumentStatus_run in Hup as (<- & Hb & Hs).
    destruct res as [err|]; simpl; [auto|].
    destruct Hs as (id & Hs & Hid). split; [reflexivity|]. rewrite Hs. split.
    + eexists. rewrite lookup_insert_eq. split; [reflexivity|]. simpl.
      repeat split; auto.
    + intros key Hkey. apply lookup_insert_ne. congruence.
  - rewrite Hrun.
    destruct (UpdateDocumentStatus _ _ _ _ w) as [res w1] eqn:Hup.
    apply UpdateDocumentStatus_run in Hup as (_ & Hb & _).
    destruct res; simpl; exact Hb.
  - intros store. rewrite !Hrun.
    pose proof (UpdateDocumentStatus_blind indexName filename (status_Status req)
                  (status_ErrorMsg req) store w) as Hblind.
    destruct (UpdateDocumentStatus _ _ _ _ (set_buckets _ w)) as [res1 w1].
    destruct (UpdateDocumentStatus _ _ _ _ w) as [res2 w2].
    simpl in Hblind. subst res2. destruct res1; reflexivity.
Qed.

Lemma UpdateDocumentStatus_upsert_only_store_faults_witness :
  let out := HandleUpdateDocumentStatus sample_handler
               (with_status "completed" "" (sample_request "ghost" "zz.txt"))
               (sample_world []) in
  fst out = RespondWithJSON http_StatusOK
              (api_NewResponse data_empty "Successfully updated document status" false)
  /\ buckets (snd out) = sample_buckets.
Proof.
  intros out.
  pose proof (UpdateDocumentStatus_upsert_only_store_faults sample_handler
                (with_status "completed" "" (sample_request "ghost" "zz.txt"))
                "ghost" "zz.txt" (mkUpdateStatusRequest "completed" "") (sample_world [])
                eq_refl eq_refl eq_refl ltac:(discriminate)) as Hthm.
  simpl in Hthm. destruct Hthm as ((Hok & _) & Hb & _). split; assumption.
Defined.

(** ** Document upload: storing *)

Lemma StoreDocumentStatus_run docStatus w res w' :
  StoreDocumentStatus docStatus w = (res, w') ->
  buckets w' = buckets w /\ clock w' = clock w /\
  match res with
  | Some _ => statuses w' = statuses w
  | None =>
    statuses w' = <[(IndexName docStatus, Filename docStatus) := docStatus]> (statuses w)
  end.
Proof.
  unfold StoreDocumentStatus. unfold_M.
  destruct (hd None (faults w)); simpl; intros; inv_pair; auto.
Qed.

Section Storing.
Context `{GoStdlib}.

(** C8: a valid upload (existing index, file name not reserved, extension
    in the allowlist) stores the blob and then tries to insert a pending
    status row; whether or not that insertion fails, the answer is Created
    and describes the document. *)
Theorem UploadDocument_status_best_effort h c r indexName file handler w w1 w2 res w3 :
  MinioClient h = Some c ->
  GetPathParam r "name" = Ok indexName ->
  BucketExists c indexName w = (Ok true, w1) ->
  req_ParseMultipartForm r = None ->
  req_FormFile r = Ok (file, handler) ->
  fh_Filename handler <> metadataFile ->
  strings_ToLower (filepath_Ext (fh_Filename handler))
    ∈ [".txt"; ".md"; ".json"; ".csv"; ".docx"; ".pdf"] ->
  UploadFile c indexName (fh_Filename handler) file (fh_Size handler)
    (if String.eqb (fh_ContentType handler) "" then "application/octet-stream"
     else fh_ContentType handler) w1 = (None, w2) ->
  StoreDocumentStatus
    (mkDocumentStatus (fst (uuid_New w2)) indexName (fh_Filename handler) "pending" "")
    (snd (uuid_New w2)) = (res, w3) ->
  let out := HandleUploadDocument h r w in
  fst out = RespondWithJSON http_StatusCreated
              (api_NewResponse
                 (data_document
                    (mkRAGDocument (fh_Filename handler) (fh_Size handler) (clock w2) "pending"))
                 "Successfully uploaded document" false) /\
  (exists b o,
     buckets (snd out) !! indexName = Some b /\
     objects b !! fh_Filename handler = Some o /\
     obj_data o = file /\ obj_size o = fh_Size handler) /\
  match res with
  | None =>
    statuses (snd out) !! (indexName, fh_Filename handler) =
      Some (mkDocumentStatus (uuids w2) indexName (fh_Filename handler) "pending" "")
  | Some _ => statuses (snd out) = statuses w
  end.
Proof.
  intros Hc Hname Hex Hform Hfile Hne Hext Hup Hst out.
  pose proof (StoreDocumentStatus_run _ _ _ _ Hst) as (Hb3 & Hck3 & Hs3).
  simpl in Hb3, Hck3, Hs3.
  assert (exists w4, out = (RespondWithJSON http_StatusCreated
              (api_NewResponse
                 (data_document
                    (mkRAGDocument (fh_Filename handler) (fh_Size handler) (clock w2) "pending"))
                 "Successfully uploaded document" false), w4)
            /\ buckets w4 = buckets w3 /\ statuses w4 = statuses w3)
    as (w4 & -> & Hb4 & Hs4).
  { subst out. unfold HandleUploadDocument. rewrite Hc, Hname. step Hex.
    rewrite Hform, Hfile.
    apply String.eqb_neq in Hne. rewrite Hne.
    apply supportedExtensions_allowlist in Hext. rewrite Hext.
    change (negb true) with false. cbv beta iota zeta.
    step Hup. step_pure. step Hst.
    destruct res; step_pure; step_pure; step_pure; unfold ret; simpl;
      rewrite <- Hck3; eexists; (split; [reflexivity|]); split; reflexivity. }
  apply BucketExists_inv in Hex as (Hb1 & Hs1 & _).
  apply UploadFile_run in Hup as (Hs2 & b & Hb & Hb2).
  simpl. split; [reflexivity|]. split.
  - rewrite Hb4, Hb3, Hb2, lookup_insert_eq. eexists. eexists.
    split; [reflexivity|]. simpl. rewrite lookup_insert_eq. auto.
  - rewrite Hs4. destruct res; [congruence|]. rewrite Hs3. apply lookup_insert_eq.
Qed.

End Storing.

Lemma UploadDocument_status_best_effort_witness :
  let out := @HandleUploadDocument sample_stdlib sample_handler
               (with_file "c.MD" "gamma" "" (sample_request "docs" ""))
               (sample_world [None; None; Some sample_fault]) in
  fst out = RespondWithJSON http_StatusCreated
              (api_NewResponse (data_document (mkRAGDocument "c.MD" 5 10 "pending"))
                               "Successfully uploaded document" false)
  /\ statuses (snd out) = sample_statuses.
Proof.
  intros out.
  pose (w := sample_world [None; None; Some sample_fault]).
  pose (w1 := snd (BucketExists mkClient "docs" w)).
  pose (w2 := snd (UploadFile mkClient "docs" "c.MD" "gamma" 5 "application/octet-stream" w1)).
  pose (w3 := snd (StoreDocumentStatus (mkDocumentStatus 1 "docs" "c.MD" "pending" "")
                     (snd (uuid_New w2)))).
  assert (@strings_ToLower sample_stdlib (filepath_Ext "c.MD")
            ∈ [".txt"; ".md"; ".json"; ".csv"; ".docx"; ".pdf"]) as Hext
    by (apply (bool_decide_unpack _); vm_compute; exact I).
  destruct (@UploadDocument_status_best_effort sample_stdlib sample_handler mkClient
              (with_file "c.MD" "gamma" "" (sample_request "docs" "")) "docs" "gamma"
              (mkFileHeader "c.MD" 5 "") w w1 w2 (Some sample_fault) w3
              eq_refl eq_refl ltac:(run) eq_refl eq_refl
              ltac:(discriminate) Hext ltac:(run) ltac:(run))
    as (Hresp & _ & Hst).
  split; [exact Hresp | exact Hst].
Defined.

(** ** Document listing *)

Lemma statusMap_of_snoc rows s :
  statusMap_of (rows ++ [s]) = <[Filename s := Status s]> (statusMap_of rows).
Proof. unfold statusMap_of. rewrite foldl_app. reflexivity. Qed.

Lemma statusMap_of_lookup rows filename :
  statusMap_of rows !! filename = joined_status rows filename.
Proof.
  unfold joined_status.
  assert (filter (fun s => Filename s = filename) [] = []) as Hnil by reflexivity.
  induction rows as [|s rows IH] using rev_ind; [reflexivity|].
  rewrite statusMap_of_snoc, filter_app.
  destruct (decide (Filename s = filename)) as [Heq|Hne].
  - rewrite Heq, lookup_insert_eq.
    rewrite (filter_cons_True _ s []) by exact Heq.
    rewrite Hnil, last_snoc. reflexivity.
  - rewrite lookup_insert_ne by exact Hne.
    rewrite (filter_cons_False _ s []) by exact Hne.
    rewrite Hnil, app_nil_r. exact IH.
Qed.

Lemma ListDocuments_loop_spec rows objs : forall documents,
  ListDocuments_loop (statusMap_of rows) objs documents =
  (documents ++ listed_documents rows objs)%list.
Proof.
  unfold listed_documents.
  induction objs as [|obj rest IH]; intros documents; simpl.
  - rewrite app_nil_r. reflexivity.
  - destruct (String.eqb_spec (info_Name obj) metadataFile) as [Heq|Hne].
    + rewrite filter_cons_False by (intros Hn; contradiction). apply IH.
    + rewrite filter_cons_True by exact Hne. rewrite IH, <- app_assoc. simpl.
      do 2 f_equal. unfold document_of. rewrite statusMap_of_lookup.
      destruct (joined_status rows (info_Name obj)); reflexivity.
Qed.

Lemma joined_status_absent rows filename :
  (forall s, s ∈ rows -> Filename s <> filename) -> joined_status rows filename = None.
Proof.
  intros Hno. unfold joined_status.
  assert (filter (fun s => Filename s = filename) rows = []) as ->; [|reflexivity].
  induction rows as [|s rows IH]; [reflexivity|].
  rewrite filter_cons_False by (apply Hno; left).
  apply IH. intros s' Hin. apply Hno. right. exact Hin.
Qed.

Lemma joined_status_unique rows s :
  NoDup (map Filename rows) -> s ∈ rows ->
  joined_status rows (Filename s) = Some (Status s).
Proof.
  intros Hnd Hin. unfold joined_status.
  assert (filter (fun s' => Filename s' = Filename s) rows = [s]) as ->; [|reflexivity].
  induction rows as [|x rows IH]; [inversion Hin|].
  simpl in Hnd. apply NoDup_cons in Hnd as [Hx Hnd].
  assert (forall y, y ∈ rows -> Filename y ∈ map Filename rows) as Hmem.
  { intros y Hy. apply (list_elem_of_fmap_2 Filename) in Hy. exact Hy. }
  apply elem_of_cons in Hin as [->|Hin].
  - rewrite filter_cons_True by reflexivity. f_equal.
    clear IH. induction rows as [|y rows IH]; [reflexivity|].
    rewrite filter_cons_False.
    + apply IH.
      * intros Hc. apply Hx. right. exact Hc.
      * apply NoDup_cons in Hnd as [_ Hnd]. exact Hnd.
      * intros z Hz. apply (list_elem_of_fmap_2 Filename) in Hz. exact Hz.
    + intros Heq. apply Hx. simpl. rewrite <- Heq. left.
  - rewrite filter_cons_False.
    + apply IH; assumption.
    + intros Heq. apply Hx. rewrite Heq. apply Hmem, Hin.
Qed.

Lemma prefix_empty s : String.prefix "" s = true.
Proof. destruct s; reflexivity. Qed.

Lemma ListObjectsInfo_loop_spec ch : forall objs infos,
  ListObjectsInfo_loop (map (fun kv => Ok (object_info kv)) ch) objs = Ok infos ->
  infos = (objs ++ map info_of ch)%list.
Proof.
  induction ch as [|kv ch IH]; intros objs infos; simpl.
  - intros [= <-]. rewrite app_nil_r. reflexivity.
  - intros Hloop. apply IH in Hloop. rewrite Hloop, <- app_assoc. reflexivity.
Qed.

Lemma filter_true {A} (f : A -> bool) l :
  (forall a, f a = true) -> List.filter f l = l.
Proof.
  intros Hf. induction l as [|a l IH]; simpl; [reflexivity|].
  rewrite Hf, IH. reflexivity.
Qed.

(** A successful listing with the empty prefix is the listing of all the
    objects of the bucket. *)
Lemma ListObjectsInfo_all c bucketName w objs w' :
  ListObjectsInfo c bucketName "" w = (Ok objs, w') ->
  buckets w' = buckets w /\ statuses w' = statuses w /\
  exists b, buckets w !! bucketName = Some b /\
            objs = map info_of (map_to_list (objects b)).
Proof.
  unfold ListObjectsInfo, sdk_ListObjects. unfold_M.
  destruct (hd None (faults w)); simpl; [intros; inv_pair|].
  destruct (buckets w !! bucketName) as [b|]; simpl; [|intros; inv_pair].
  intros Hrun. injection Hrun as Hloop <-.
  rewrite filter_true in Hloop by (intros; apply prefix_empty).
  apply ListObjectsInfo_loop_spec in Hloop. simpl in Hloop. eauto.
Qed.

(** C9: for an existing index, ListDocuments returns the blobs of the
    bucket other than the reserved metadata object, each once and with its
    size and modification time, joined by file name with the status rows: a
    document without a row has an empty status, and when the listing of the
    status rows fails the documents are returned all the same. *)
Theorem ListDocuments_join h c r indexName w w1 objs w2 sres w3 :
  MinioClient h = Some c ->
  GetPathParam r "name" = Ok indexName ->
  BucketExists c indexName w = (Ok true, w1) ->
  ListObjectsInfo c indexName "" w1 = (Ok objs, w2) ->
  ListDocumentStatusesForIndex indexName w2 = (sres, w3) ->
  let rows := match sres with Ok rows => rows | Err _ => [] end in
  let documents := listed_documents rows objs in
  fst (HandleListDocuments h r w) =
    RespondWithJSON http_StatusOK
      (api_NewResponse (data_documents documents) "Successfully listed documents" false) /\
  (exists b,
     buckets w !! indexName = Some b /\
     NoDup (map doc_Name documents) /\
     (forall name, name ∈ map doc_Name documents <->
                   name <> metadataFile /\ is_Some (objects b !! name)) /\
     (forall d, d ∈ documents ->
        exists o, objects b !! doc_Name d = Some o /\
                  doc_Size d = obj_size o /\ doc_LastModified d = obj_lastModified o)) /\
  (forall d, d ∈ documents ->
     (forall s, s ∈ rows -> Filename s <> doc_Name d) -> doc_Status d = "") /\
  (forall d s, d ∈ documents -> NoDup (map Filename rows) -> s ∈ rows ->
     Filename s = doc_Name d -> doc_Status d = Status s).
Proof.
  intros Hc Hname Hex Hls Hst rows documents.
  split; [|split; [|split]].
  - unfold HandleListDocuments. rewrite Hc, Hname. step Hex. step Hls. step Hst.
    subst documents rows.
    destruct sres as [rows|err]; repeat step_pure; unfold ret; simpl;
      rewrite ListDocuments_loop_spec; reflexivity.
  - apply BucketExists_inv in Hex as (Hb1 & _).
    apply ListObjectsInfo_all in Hls as (_ & _ & b & Hb & Hobjs).
    rewrite Hb1 in Hb. exists b. split; [exact Hb|].
    assert (forall d, d ∈ documents <->
              exists name o, objects b !! name = Some o /\ name <> metadataFile /\
                d = document_of rows (info_of (name, o))) as Hdocs.
    { intros d. subst documents. unfold listed_documents.
      change (map (document_of rows)) with (fmap (M:=list) (document_of rows)).
      rewrite list_elem_of_fmap. split.
      - intros (obj & -> & Hin). apply list_elem_of_filter in Hin as [Hne Hin].
        rewrite Hobjs in Hin.
        change (map info_of) with (fmap (M:=list) info_of) in Hin.
        apply list_elem_of_fmap in Hin as ([name o] & -> & Hin).
        apply elem_of_map_to_list in Hin. exists name, o. auto.
      - intros (name & o & Ho & Hne & ->). eexists. split; [reflexivity|].
        apply list_elem_of_filter. split; [exact Hne|].
        rewrite Hobjs. change (map info_of) with (fmap (M:=list) info_of).
        apply list_elem_of_fmap. exists (name, o). split; [reflexivity|].
        apply elem_of_map_to_list. exact Ho. }
    split; [|split].
    + subst documents. unfold listed_documents. rewrite map_map. simpl.
      rewrite Hobjs.
      assert (NoDup (map info_Name (map info_of (map_to_list (objects b))))) as Hnd.
      { rewrite map_map. simpl. apply (NoDup_fst_map_to_list (objects b)). }
      revert Hnd. generalize (map info_of (map_to_list (objects b))) as l.
      induction l as [|x l IH]; simpl; intros Hnd; [constructor|].
      apply NoDup_cons in Hnd as [Hx Hnd].
      destruct (decide (info_Name x <> metadataFile)) as [Hne|Heq].
      * rewrite filter_cons_True by exact Hne. simpl. apply NoDup_cons. split; [|auto].
        intros Hin. apply Hx.
        change (map (fun x => info_Name x)) with (fmap (M:=list) info_Name) in Hin.
        apply list_elem_of_fmap in Hin as (y & -> & Hy).
        apply list_elem_of_filter in Hy as [_ Hy].
        apply (list_elem_of_fmap_2 info_Name) in Hy. exact Hy.
      * rewrite filter_cons_False by exact Heq. auto.
    + intros name. change (map doc_Name) with (fmap (M:=list) doc_Name).
      rewrite list_elem_of_fmap. split.
      * intros (d & -> & Hd). apply Hdocs in Hd as (n & o & Ho & Hne & ->). simpl. eauto.
      * intros (Hne & o & Ho). exists (document_of rows (info_of (name, o))).
        split; [reflexivity|]. apply Hdocs. eauto.
    + intros d Hd. apply Hdocs in Hd as (n & o & Ho & Hne & ->). simpl. eauto.
  - intros d Hd Hno. subst documents. unfold listed_documents in Hd.
    change (map (document_of rows)) with (fmap (M:=list) (document_of rows)) in Hd.
    apply list_elem_of_fmap in Hd as (obj & -> & _). simpl in *.
    rewrite joined_status_absent by exact Hno. reflexivity.
  - intros d s Hd Hnd Hs Hfn. subst documents. unfold listed_documents in Hd.
    change (map (document_of rows)) with (fmap (M:=list) (document_of rows)) in Hd.
    apply list_elem_of_fmap in Hd as (obj & -> & _). simpl in *.
    rewrite <- Hfn, joined_status_unique by assumption. reflexivity.
Qed.

Lemma ListDocuments_join_witness :
  fst (HandleListDocuments sample_handler (sample_request "docs" "")
         (sample_world [None; None; Some sample_fault]))
  = RespondWithJSON http_StatusOK
      (api_NewResponse
         (data_documents [mkRAGDocument "a.txt" 5 8 ""; mkRAGDocument "b.pdf" 4 9 ""])
         "Successfully listed documents" false).
Proof.
  pose (w := sample_world [None; None; Some sample_fault]).
  pose (w1 := snd (BucketExists mkClient "docs" w)).
  pose (objs := map info_of (map_to_list (objects (mkBucket
                 {[ metadataFile := mkObject "docs;Team documents;7" 21 "application/json" 7;
                    "a.txt" := mkObject "alpha" 5 "text/plain" 8;
                    "b.pdf" := mkObject "beta" 4 "application/pdf" 9 ]} None)))).
  pose (w2 := snd (ListObjectsInfo mkClient "docs" "" w1)).
  pose (w3 := snd (ListDocumentStatusesForIndex "docs" w2)).
  destruct (ListDocuments_join sample_handler mkClient (sample_request "docs" "") "docs"
              w w1 objs w2 (Err sample_fault) w3 eq_refl eq_refl
              ltac:(run) ltac:(run) ltac:(run)) as (Hresp & _).
  fold w. rewrite Hresp. vm_compute. reflexivity.
Defined.

(** ** Index update *)

Section Update.
Context `{GoStdlib}.

Lemma putIndexMetadata_run c bucketName index w res w' :
  putIndexMetadata c bucketName index w = (res, w') ->
  statuses w' = statuses w /\
  match res with
  | Some _ => buckets w' = buckets w
  | None =>
    exists data b,
      json_Marshal index = Ok data /\
      buckets w !! bucketName = Some b /\
      buckets w' =
        <[bucketName := mkBucket
            (<[metadataFile := mkObject data (len data) "application/json" (clock w)]>
               (objects b))
            (notification b)]> (buckets w)
  end.
Proof.
  unfold putIndexMetadata, PutObjectBytes.
  destruct (json_Marshal index) as [data|err]; [|unfold ret; intros; inv_pair; auto].
  unfold bind.
  destruct (sdk_PutObject _ _ _ _ _ w) as [[err|] w1] eqn:Hput;
    apply sdk_PutObject_run in Hput as (Hs & Hb); unfold ret; intros; inv_pair;
    (split; [exact Hs|]); [exact Hb|].
  destruct Hb as (b & Hb & Hb'). eauto.
Qed.

(** C10: UpdateIndex reads the metadata object, replaces the description
    and writes the object back: the metadata written (and returned) has
    the name and the creation time that were read, and no other object and
    no other bucket is touched. *)
Theorem UpdateIndex_preserves_name_and_created_at h c r indexName req w old w1 :
  MinioClient h = Some c ->
  GetPathParam r "name" = Ok indexName ->
  req_UpdateBody r = Ok req ->
  getIndexMetadata c indexName w = (Ok old, w1) ->
  let new := mkRAGIndex (Name old) (update_Description req) (CreatedAt old) in
  let out := HandleUpdateRAGIndex h r w in
  stored_metadata (buckets w) indexName = Some old /\
  (forall w2, putIndexMetadata c indexName new w1 = (None, w2) ->
     fst out = RespondWithJSON http_StatusOK
                 (api_NewResponse (data_index new) "Successfully updated RAG index" false) /\
     exists data b b',
       json_Marshal new = Ok data /\
       buckets w !! indexName = Some b /\
       buckets (snd out) !! indexName = Some b' /\
       obj_data <$> objects b' !! metadataFile = Some data /\
       (forall key, key <> metadataFile -> objects b' !! key = objects b !! key) /\
       (forall other, other <> indexName -> buckets (snd out) !! other = buckets w !! other)) /\
  (forall err w2, putIndexMetadata c indexName new w1 = (Some err, w2) ->
     fst out = RespondWithError (NewInternalServerError "Failed to update index" (Some err)) /\
     buckets (snd out) = buckets w).
Proof.
  intros Hc Hname Hbody Hget new out.
  pose proof (getIndexMetadata_inv _ _ _ _ _ Hget) as (Hb1 & Hs1 & Hsound & _).
  split; [apply Hsound; reflexivity|]. split.
  - intros w2 Hput.
    assert (exists w3, out = (RespondWithJSON http_StatusOK
              (api_NewResponse (data_index new) "Successfully updated RAG index" false), w3)
            /\ buckets w3 = buckets w2) as (w3 & -> & Hb3).
    { subst out. unfold HandleUpdateRAGIndex. rewrite Hc, Hname, Hbody.
      step Hget. step Hput. step_pure. eexists. split; reflexivity. }
    apply putIndexMetadata_run in Hput as (_ & data & b & Hdata & Hb & Hb2).
    simpl. split; [reflexivity|].
    rewrite Hb1 in Hb, Hb2.
    exists data, b. eexists. split; [exact Hdata|]. split; [exact Hb|].
    rewrite Hb3, Hb2. split; [apply lookup_insert_eq|]. simpl. split; [|split].
    + rewrite lookup_insert_eq. reflexivity.
    + intros key Hkey. apply lookup_insert_ne. congruence.
    + intros other Hother. apply lookup_insert_ne. congruence.
  - intros err w2 Hput.
    assert (exists w3, out =
              (RespondWithError (NewInternalServerError "Failed to update index" (Some err)),
               w3) /\ buckets w3 = buckets w2) as (w3 & -> & Hb3).
    { subst out. unfold HandleUpdateRAGIndex. rewrite Hc, Hname, Hbody.
      step Hget. step Hput. step_pure. eexists. split; reflexivity. }
    apply putIndexMetadata_run in Hput as (_ & Hb2).
    simpl. split; [reflexivity|]. congruence.
Qed.

End Update.

Lemma UpdateIndex_preserves_name_and_created_at_witness :
  fst (@HandleUpdateRAGIndex sample_stdlib sample_handler
         (with_update "Handbook" (sample_request "docs" "")) (sample_world []))
  = RespondWithJSON http_StatusOK
      (api_NewResponse (data_index (mkRAGIndex "docs" "Handbook" 7))
                       "Successfully updated RAG index" false).
Proof.
  pose (w := sample_world []).
  pose (old := mkRAGIndex "docs" "Team documents" 7).
  pose (w1 := snd (@getIndexMetadata sample_stdlib mkClient "docs" w)).
  pose (w2 := snd (@putIndexMetadata sample_stdlib mkClient "docs"
                     (mkRAGIndex "docs" "Handbook" 7) w1)).
  destruct (@UpdateIndex_preserves_name_and_created_at sample_stdlib sample_handler mkClient
              (with_update "Handbook" (sample_request "docs" "")) "docs"
              (mkUpdateRAGIndexRequest "Handbook") w old w1 eq_refl eq_refl eq_refl
              ltac:(run)) as (_ & Hok & _).
  destruct (Hok w2 ltac:(run)) as (Hresp & _).
  exact Hresp.
Defined.

(** * Further properties *)

(** ** Runs without faults *)

Lemma hd_fault_free (fs : list (option error)) :
  Forall (fun f => f = None) fs -> hd None fs = None.
Proof.
  destruct fs as [|f fs]; [reflexivity|].
  intros Hff. apply Forall_cons in Hff as [-> _]. reflexivity.
Qed.

Lemma tl_fault_free (fs : list (option error)) :
  Forall (fun f => f = None) fs -> Forall (fun f => f = None) (tl fs).
Proof.
  destruct fs as [|f fs]; [auto|].
  intros Hff. apply Forall_cons in Hff as [_ Hff]. exact Hff.
Qed.

(** Consume the next entries of a schedule known to hold no fault. *)
Ltac ff :=
  repeat match goal with
  | |- context [hd None ?fs] =>
    rewrite (hd_fault_free fs) by (repeat apply tl_fault_free; assumption)
  end.

Lemma BucketExists_ff c bucketName w :
  fault_free w ->
  exists w', BucketExists c bucketName w
             = (Ok (bool_decide (is_Some (buckets w !! bucketName))), w') /\
             buckets w' = buckets w /\ statuses w' = statuses w /\
             clock w' = clock w /\ fault_free w'.
Proof.
  unfold fault_free, BucketExists, sdk_BucketExists. unfold_M. intros Hff. simpl. ff.
  eexists. split; [reflexivity|]. simpl. repeat split. apply tl_fault_free, Hff.
Qed.

Lemma BucketExists_ok c bucketName w :
  hd None (faults w) = None ->
  exists w', BucketExists c bucketName w
             = (Ok (bool_decide (is_Some (buckets w !! bucketName))), w') /\
             buckets w' = buckets w /\ statuses w' = statuses w.
Proof.
  unfold BucketExists, sdk_BucketExists. unfold_M. intros Hhd. simpl. rewrite Hhd.
  eexists. split; [reflexivity|]. simpl. auto.
Qed.

Lemma GetObject_ff c bucketName objectName w :
  fault_free w ->
  exists w', GetObject c bucketName objectName w
             = (match buckets w !! bucketName with
                | None => Err (fmt_Errorf "failed to read object" errNoSuchBucket)
                | Some b =>
                  match objects b !! objectName with
                  | None => Err (fmt_Errorf "failed to read object" errNoSuchKey)
                  | Some o => Ok (obj_data o)
                  end
                end, w') /\
             buckets w' = buckets w /\ statuses w' = statuses w /\ fault_free w'.
Proof.
  unfold fault_free, GetObject, sdk_GetObject, io_ReadAll. unfold_M. intros Hff. simpl. ff.
  simpl. ff. simpl.
  destruct (buckets w !! bucketName) as [b|]; simpl;
    [destruct (objects b !! objectName) as [o|]; simpl|];
    (eexists; split; [reflexivity|]; simpl; repeat split;
     do 2 apply tl_fault_free; exact Hff).
Qed.

Lemma log_Error_frame err msg w :
  let w' := snd (log_Error err msg w) in
  buckets w' = buckets w /\ statuses w' = statuses w /\ faults w' = faults w /\
  clock w' = clock w.
Proof. simpl. auto. Qed.

Lemma log_Info_frame msg w :
  let w' := snd (log_Info msg w) in
  buckets w' = buckets w /\ statuses w' = statuses w /\ faults w' = faults w /\
  clock w' = clock w.
Proof. simpl. auto. Qed.

(** ** The object-store wrapper *)

Lemma sdk_RemoveObject_sub bucketName objectName w r w' :
  sdk_RemoveObject bucketName objectName w = (r, w') ->
  forall b, buckets w !! bucketName = Some b ->
  exists b', buckets w' !! bucketName = Some b' /\
             objects b' ⊆ objects b /\ notification b' = notification b.
Proof.
  intros Hrun b Hb. apply sdk_RemoveObject_run in Hrun as (_ & Hrun).
  destruct r as [err|].
  - rewrite Hrun. eauto.
  - destruct Hrun as (b0 & Hb0 & ->). rewrite Hb in Hb0. injection Hb0 as <-.
    rewrite lookup_insert_eq. eexists. split; [reflexivity|]. simpl.
    split; [apply delete_subseteq | reflexivity].
Qed.

Lemma DeleteBucket_loop_sub bucketName objectsCh : forall w r w',
  DeleteBucket_loop bucketName objectsCh w = (r, w') ->
  forall b, buckets w !! bucketName = Some b ->
  exists b', buckets w' !! bucketName = Some b' /\
             objects b' ⊆ objects b /\ notification b' = notification b.
Proof.
  induction objectsCh as [|[object|e] rest IH]; intros w r w'; simpl.
  - unfold ret. intros; inv_pair. eauto.
  - unfold bind at 1.
    destruct (sdk_RemoveObject bucketName (oi_Key object) w) as [[err|] w1] eqn:Hrm;
      intros Hloop b Hb;
      destruct (sdk_RemoveObject_sub _ _ _ _ _ Hrm b Hb) as (b1 & Hb1 & Hsub1 & Hn1).
    + unfold ret in Hloop. inv_pair. eauto.
    + destruct (IH _ _ _ Hloop b1 Hb1) as (b2 & Hb2 & Hsub2 & Hn2).
      exists b2. split; [exact Hb2|]. split; [etrans; eassumption | congruence].
  - unfold ret. intros; inv_pair. eauto.
Qed.

Lemma DeleteBucket_loop_absent bucketName objectsCh : forall w r w',
  DeleteBucket_loop bucketName objectsCh w = (r, w') ->
  buckets w !! bucketName = None -> buckets w' !! bucketName = None.
Proof.
  induction objectsCh as [|[object|e] rest IH]; intros w r w'; simpl.
  - unfold ret. intros; inv_pair. assumption.
  - unfold bind at 1.
    destruct (sdk_RemoveObject bucketName (oi_Key object) w) as [[err|] w1] eqn:Hrm;
      intros Hloop Hnone; apply sdk_RemoveObject_run in Hrm as (_ & Hrm).
    + unfold ret in Hloop. inv_pair. congruence.
    + destruct Hrm as (b & Hb & _). congruence.
  - unfold ret. intros; inv_pair. assumption.
Qed.

Lemma DeleteBucket_failure_frame c bucketName w err w' :
  DeleteBucket c bucketName w = (Some err, w') ->
  (forall b, buckets w !! bucketName = Some b ->
     exists b', buckets w' !! bucketName = Some b' /\
                objects b' ⊆ objects b /\ notification b' = notification b) /\
  (buckets w !! bucketName = None -> buckets w' !! bucketName = None) /\
  (forall other, other <> bucketName -> buckets w' !! other = buckets w !! other) /\
  statuses w' = statuses w.
Proof.
  unfold DeleteBucket. unfold bind at 1.
  destruct (sdk_ListObjects bucketName "" w) as [ch w1] eqn:Hls.
  apply sdk_ListObjects_inv in Hls as [Hb1 Hs1].
  unfold bind at 1.
  destruct (DeleteBucket_loop bucketName ch w1) as [lerr w2] eqn:Hloop.
  pose proof (DeleteBucket_loop_inv _ _ _ _ _ Hloop) as [Hd2 Hs2].
  pose proof (DeleteBucket_loop_sub _ _ _ _ _ Hloop) as Hsub.
  rewrite Hb1 in Hsub, Hd2.
  assert (forall w3 : World, buckets w3 = buckets w2 -> statuses w3 = statuses w2 ->
    (forall b, buckets w !! bucketName = Some b ->
       exists b', buckets w3 !! bucketName = Some b' /\
                  objects b' ⊆ objects b /\ notification b' = notification b) /\
    (buckets w !! bucketName = None -> buckets w3 !! bucketName = None) /\
    (forall other, other <> bucketName -> buckets w3 !! other = buckets w !! other) /\
    statuses w3 = statuses w) as Hframe.
  { intros w3 Hb3 Hs3. rewrite Hb3. split; [exact Hsub|]. split; [|split; [|congruence]].
    - intros Hnone. rewrite <- Hb1 in Hnone.
      exact (DeleteBucket_loop_absent _ _ _ _ _ Hloop Hnone).
    - intros other Hother.
      rewrite <- (lookup_delete_ne (buckets w2) bucketName other) by congruence.
      rewrite Hd2. apply lookup_delete_ne. congruence. }
  destruct lerr as [lerr|].
  - unfold ret. intros Hrun. inv_pair. apply Hframe; reflexivity.
  - unfold bind at 1.
    destruct (sdk_RemoveBucket bucketName w2) as [[rerr|] w3] eqn:Hrb;
      unfold ret; intros Hrun; inv_pair.
    revert Hrb. unfold sdk_RemoveBucket. unfold_M.
    destruct (hd None (faults w2)); simpl; [intros; inv_pair; apply Hframe; reflexivity|].
    destruct (buckets w2 !! bucketName) as [b2|]; simpl;
      [|intros; inv_pair; apply Hframe; reflexivity].
    case_bool_decide; simpl; intros; inv_pair. apply Hframe; reflexivity.
Qed.

(** Whatever it returns, a bucket deletion leaves in the bucket only
    objects that were there. *)
Lemma DeleteBucket_sub c bucketName w r w' :
  DeleteBucket c bucketName w = (r, w') ->
  forall b b', buckets w !! bucketName = Some b -> buckets w' !! bucketName = Some b' ->
  forall key o, objects b' !! key = Some o -> objects b !! key = Some o.
Proof.
  intros Hdel b b' Hb Hb' key o Ho. destruct r as [err|].
  - destruct (DeleteBucket_failure_frame c bucketName w err w' Hdel) as (Hkeep & _).
    destruct (Hkeep b Hb) as (b2 & Hb2 & Hsub & _).
    rewrite Hb' in Hb2. injection Hb2 as <-.
    eapply lookup_weaken; eassumption.
  - apply DeleteBucket_ok in Hdel as [Hgone _]. rewrite Hgone, lookup_delete_eq in Hb'.
    discriminate.
Qed.

(** X1: a bucket deletion that reports an error has not removed the
    bucket: it is still there, with its notification setting and with some
    of its objects, none of them new or altered; every other bucket and the
    status table are untouched. *)
Theorem DeleteBucket_failure_is_partial c bucketName w err w' :
  DeleteBucket c bucketName w = (Some err, w') ->
  (forall b, buckets w !! bucketName = Some b ->
     exists b', buckets w' !! bucketName = Some b' /\
                objects b' ⊆ objects b /\ notification b' = notification b) /\
  (buckets w !! bucketName = None -> buckets w' !! bucketName = None) /\
  (forall other, other <> bucketName -> buckets w' !! other = buckets w !! other) /\
  statuses w' = statuses w.
Proof. apply DeleteBucket_failure_frame. Qed.

Lemma lookup_foldl_delete {A} (kvs : list (string * A)) : forall (m : gmap string A) key,
  foldl (fun m kv => delete (fst kv) m) m kvs !! key
  = if decide (key ∈ map fst kvs) then None else m !! key.
Proof.
  induction kvs as [|kv kvs IH]; intros m key; simpl.
  - destruct (decide (key ∈ [])) as [Hin|_]; [inversion Hin | reflexivity].
  - rewrite IH.
    destruct (decide (key ∈ map fst kvs)) as [Hin|Hnin].
    + rewrite decide_True by (right; exact Hin). reflexivity.
    + destruct (decide (key = fst kv)) as [->|Hne].
      * rewrite decide_True by left. apply lookup_delete_eq.
      * rewrite decide_False.
        -- apply lookup_delete_ne. congruence.
        -- intros Hin. apply elem_of_cons in Hin as [?|?]; contradiction.
Qed.

Lemma DeleteBucket_loop_ff bucketName (kvs : list (string * Object)) : forall b w,
  fault_free w -> buckets w !! bucketName = Some b ->
  exists w',
    DeleteBucket_loop bucketName (map (fun kv => Ok (object_info kv)) kvs) w = (None, w') /\
    buckets w' !! bucketName =
      Some (mkBucket (foldl (fun m kv => delete (fst kv) m) (objects b) kvs)
                     (notification b)) /\
    fault_free w'.
Proof.
  induction kvs as [|kv kvs IH]; intros b w Hff Hb; simpl.
  - unfold ret. eexists. split; [reflexivity|]. split; [|exact Hff].
    rewrite Hb. destruct b; reflexivity.
  - unfold bind at 1.
    assert (exists w1, sdk_RemoveObject bucketName (fst kv) w = (None, w1) /\
              buckets w1 !! bucketName =
                Some (mkBucket (delete (fst kv) (objects b)) (notification b)) /\
              fault_free w1) as (w1 & Hrm & Hb1 & Hff1).
    { unfold fault_free in *. unfold sdk_RemoveObject. unfold_M. simpl. ff. simpl.
      rewrite Hb. simpl. eexists. split; [reflexivity|]. simpl.
      split; [apply lookup_insert_eq | apply tl_fault_free, Hff]. }
    change (oi_Key (object_info kv)) with (fst kv). rewrite Hrm.
    destruct (IH _ w1 Hff1 Hb1) as (w' & Hloop & Hb' & Hff'). eauto.
Qed.

(** X2: on a world that meets no fault, deleting an existing bucket
    succeeds however many objects it holds: every object is removed first,
    so the store accepts the removal of the bucket. *)
Theorem DeleteBucket_succeeds_without_faults c bucketName w :
  fault_free w ->
  is_Some (buckets w !! bucketName) ->
  fst (DeleteBucket c bucketName w) = None /\
  buckets (snd (DeleteBucket c bucketName w)) = delete bucketName (buckets w) /\
  fault_free (snd (DeleteBucket c bucketName w)).
Proof.
  intros Hff [b Hb].
  assert (exists w', DeleteBucket c bucketName w = (None, w') /\ fault_free w')
    as (w' & Hrun & Hff').
  { unfold DeleteBucket. unfold bind at 1.
    assert (exists w1, sdk_ListObjects bucketName "" w
                       = (map (fun kv => Ok (object_info kv)) (map_to_list (objects b)), w1) /\
              buckets w1 = buckets w /\ fault_free w1) as (w1 & -> & Hb1 & Hff1).
    { unfold fault_free in *. unfold sdk_ListObjects. unfold_M. simpl. ff. simpl.
      rewrite Hb. rewrite filter_true by (intros; apply prefix_empty).
      eexists. split; [reflexivity|]. simpl. split; [reflexivity|].
      apply tl_fault_free, Hff. }
    rewrite <- Hb1 in Hb.
    destruct (DeleteBucket_loop_ff bucketName (map_to_list (objects b)) b w1 Hff1 Hb)
      as (w2 & Hloop & Hb2 & Hff2).
    unfold bind at 1. rewrite Hloop.
    assert (foldl (fun m kv => delete (fst kv) m) (objects b) (map_to_list (objects b)) = ∅)
      as Hempty.
    { apply map_empty. intros key. rewrite lookup_foldl_delete.
      destruct (decide (key ∈ map fst (map_to_list (objects b)))) as [_|Hnin];
        [reflexivity|].
      destruct (objects b !! key) as [o|] eqn:Ho; [|reflexivity].
      exfalso. apply Hnin.
      apply (list_elem_of_fmap_2 fst (map_to_list (objects b)) (key, o)).
      apply elem_of_map_to_list. exact Ho. }
    rewrite Hempty in Hb2.
    unfold fault_free in *. unfold sdk_RemoveBucket. unfold_M. simpl. ff. simpl.
    rewrite Hb2. simpl. rewrite bool_decide_eq_true_2 by reflexivity. simpl.
    eexists. split; [reflexivity|]. simpl. apply tl_fault_free, Hff2. }
  rewrite Hrun. simpl. split; [reflexivity|]. split; [|exact Hff'].
  apply DeleteBucket_ok in Hrun as [Hgone _]. exact Hgone.
Qed.

(** Creating a bucket never alters one that exists: the bucket, its
    objects and its notification setting are as before whatever the store
    does, and the call reports success as soon as the existence check goes
    through. *)
Lemma CreateBucket_keeps_existing_bucket c bucketName w :
  is_Some (buckets w !! bucketName) ->
  buckets (snd (CreateBucket c bucketName w)) = buckets w /\
  statuses (snd (CreateBucket c bucketName w)) = statuses w /\
  (hd None (faults w) = None -> fst (CreateBucket c bucketName w) = None).
Proof.
  intros Hsome. unfold CreateBucket, sdk_BucketExists, sdk_MakeBucket. unfold_M. simpl.
  destruct (hd None (faults w)); simpl; [split; [reflexivity|]; split; [reflexivity|];
                                          intros; discriminate|].
  rewrite bool_decide_eq_true_2 by exact Hsome. simpl. auto.
Qed.

Lemma List_loops_agree objectsCh : forall files objs,
  files = map info_Name objs ->
  match ListFiles_loop objectsCh files, ListObjectsInfo_loop objectsCh objs with
  | Ok files', Ok objs' => files' = map info_Name objs'
  | Err e, Err e' => e = e'
  | _, _ => False
  end.
Proof.
  induction objectsCh as [|[object|e] rest IH]; intros files objs Hfiles; simpl.
  - exact Hfiles.
  - apply IH. rewrite Hfiles, map_app. reflexivity.
  - reflexivity.
Qed.

(** X3: the two listings of the wrapper agree on every world: ListFiles
    returns the names of the objects ListObjectsInfo returns, in the same
    order, and fails exactly when it fails, with the same error; a listing
    that breaks off returns no partial result. *)
Theorem ListFiles_agrees_with_ListObjectsInfo c bucketName prefix w :
  match fst (ListFiles c bucketName prefix w),
        fst (ListObjectsInfo c bucketName prefix w) with
  | Ok files, Ok objs => files = map info_Name objs
  | Err e, Err e' => e = e'
  | _, _ => False
  end /\
  snd (ListFiles c bucketName prefix w) = snd (ListObjectsInfo c bucketName prefix w).
Proof.
  unfold ListFiles, ListObjectsInfo. unfold bind, ret.
  destruct (sdk_ListObjects bucketName prefix w) as [ch w1]. simpl.
  split; [|reflexivity]. apply List_loops_agree. reflexivity.
Qed.

(** X4: what PutObjectBytes stores, GetObject reads back: after a
    successful write of [data] under a key, a read of that key that meets no
    fault returns [data], and the object's recorded size is the length of
    [data]. *)
Theorem PutObjectBytes_then_GetObject c bucketName objectName data contentType w w1 :
  PutObjectBytes c bucketName objectName data contentType w = (None, w1) ->
  fault_free w1 ->
  fst (GetObject c bucketName objectName w1) = Ok data /\
  exists b o, buckets w1 !! bucketName = Some b /\ objects b !! objectName = Some o /\
              obj_size o = len data /\ obj_contentType o = contentType.
Proof.
  intros Hput Hff.
  assert (exists b, buckets w !! bucketName = Some b /\
            buckets w1 = <[bucketName := mkBucket
              (<[objectName := mkObject data (len data) contentType (clock w)]> (objects b))
              (notification b)]> (buckets w)) as (b & Hb & Hb1).
  { revert Hput. unfold PutObjectBytes. unfold bind.
    destruct (sdk_PutObject _ _ _ _ _ w) as [[err|] w2] eqn:Hp; unfold ret; intros; inv_pair.
    apply sdk_PutObject_run in Hp as (_ & Hrun). exact Hrun. }
  destruct (GetObject_ff c bucketName objectName w1 Hff) as (w2 & Hget & _).
  rewrite Hget, Hb1, lookup_insert_eq. simpl. rewrite lookup_insert_eq. simpl.
  split; [reflexivity|]. eexists. eexists. split; [reflexivity|]. simpl.
  rewrite lookup_insert_eq. auto.
Qed.

(** ** Reading one index *)

Section Reading.
Context `{GoStdlib}.

Lemma getIndexMetadata_ff c bucketName w :
  fault_free w ->
  exists r w', getIndexMetadata c bucketName w = (r, w') /\
               result_to_option r = stored_metadata (buckets w) bucketName /\
               buckets w' = buckets w /\ statuses w' = statuses w /\ fault_free w'.
Proof.
  intros Hff. destruct (getIndexMetadata c bucketName w) as [r w'] eqn:Hget.
  apply getIndexMetadata_inv in Hget as (Hb & Hs & _ & Hexact).
  destruct (Hexact Hff) as [Hff' Hres]. eauto 10.
Qed.

Lemma stored_metadata_bucket store bucketName metadata :
  stored_metadata store bucketName = Some metadata -> is_Some (store !! bucketName).
Proof.
  unfold stored_metadata. destruct (store !! bucketName); [eauto | discriminate].
Qed.

(** What [HandleGetRAGIndex] answers when the request names an index. *)
Lemma HandleGetRAGIndex_run h c r indexName w :
  MinioClient h = Some c ->
  GetPathParam r "name" = Ok indexName ->
  (forall code body, fst (HandleGetRAGIndex h r w) = RespondWithJSON code body ->
     exists metadata,
       stored_metadata (buckets w) indexName = Some metadata /\
       code = http_StatusOK /\
       body = api_NewResponse (data_index metadata) "Successfully retrieved RAG index" false) /\
  (fault_free w -> is_Some (buckets w !! indexName) ->
     match stored_metadata (buckets w) indexName with
     | Some metadata =>
       fst (HandleGetRAGIndex h r w) =
         RespondWithJSON http_StatusOK
           (api_NewResponse (data_index metadata) "Successfully retrieved RAG index" false)
     | None =>
       exists e, fst (HandleGetRAGIndex h r w) = RespondWithError e /\ Kind e = NotFound
     end) /\
  (forall w1, BucketExists c indexName w = (Ok false, w1) ->
     HandleGetRAGIndex h r w =
       (RespondWithError (NewNotFoundError "RAG index not found" None), w1)) /\
  (forall err w1, BucketExists c indexName w = (Err err, w1) ->
     fst (HandleGetRAGIndex h r w) =
       RespondWithError (NewInternalServerError "Failed to check index" (Some err))) /\
  buckets (snd (HandleGetRAGIndex h r w)) = buckets w /\
  statuses (snd (HandleGetRAGIndex h r w)) = statuses w.
Proof.
  intros Hc Hname. unfold HandleGetRAGIndex. rewrite Hc, Hname.
  destruct (BucketExists c indexName w) as [ex w1] eqn:Hex. step Hex.
  pose proof (BucketExists_inv _ _ _ _ _ Hex) as (Hb1 & Hs1 & Hbool).
  destruct ex as [[|]|err].
  - destruct (getIndexMetadata c indexName w1) as [m w2] eqn:Hget. step Hget.
    pose proof (getIndexMetadata_inv _ _ _ _ _ Hget) as (Hb2 & Hs2 & Hsound & Hexact).
    rewrite Hb1 in Hsound, Hexact.
    split; [|split; [|split; [|split; [|split]]]].
    + destruct m as [metadata|err]; step_pure; unfold ret; simpl; intros code body Heq;
        [|discriminate]. injection Heq as <- <-. eauto.
    + intros Hff _.
      destruct (BucketExists_ff c indexName w Hff) as (w1' & Hex' & _ & _ & _ & Hff1).
      rewrite Hex in Hex'. injection Hex' as _ <-.
      destruct (Hexact Hff1) as [_ Hres].
      destruct m as [metadata|err]; simpl in Hres; rewrite <- Hres; step_pure; unfold ret;
        simpl; eauto.
    + intros w1' Heq. discriminate Heq.
    + intros err w1' Heq. discriminate Heq.
    + destruct m; step_pure; unfold ret; simpl; congruence.
    + destruct m; step_pure; unfold ret; simpl; congruence.
  - unfold ret. simpl. split; [intros; discriminate|].
    split; [|split; [|split; [|auto]]].
    + intros _ Hsome. specialize (Hbool false eq_refl). symmetry in Hbool.
      apply bool_decide_eq_false in Hbool. contradiction.
    + intros w1' [= <-]. reflexivity.
    + intros err w1' Heq. discriminate Heq.
  - step_pure. unfold ret. simpl. split; [intros; discriminate|].
    split; [|split; [|split; [|auto]]].
    + intros Hff _. destruct (BucketExists_ff c indexName w Hff) as (w1' & Hex' & _).
      rewrite Hex in Hex'. discriminate.
    + intros w1' Heq. discriminate Heq.
    + intros err' w1' [= <- _]. reflexivity.
Qed.

(** X5: GetIndex answers with an index exactly as the store holds it.  A 200
    always carries the parsed content of the bucket's metadata object.  For
    a bucket of the store and without store faults, the answer is that
    content when it is there and parses, and NotFound when the bucket holds
    no valid metadata.  When the existence check reports no bucket the
    answer is NotFound, and when the check fails, as it does for a name the
    client library refuses, the answer is InternalServerError with the
    error of the check.  The request changes nothing in the stores. *)
Theorem GetIndex_reads_stored_metadata h c r indexName w :
  MinioClient h = Some c ->
  GetPathParam r "name" = Ok indexName ->
  (forall code body, fst (HandleGetRAGIndex h r w) = RespondWithJSON code body ->
     exists metadata,
       stored_metadata (buckets w) indexName = Some metadata /\
       code = http_StatusOK /\
       body = api_NewResponse (data_index metadata) "Successfully retrieved RAG index" false) /\
  (fault_free w -> is_Some (buckets w !! indexName) ->
     match stored_metadata (buckets w) indexName with
     | Some metadata =>
       fst (HandleGetRAGIndex h r w) =
         RespondWithJSON http_StatusOK
           (api_NewResponse (data_index metadata) "Successfully retrieved RAG index" false)
     | None =>
       exists e, fst (HandleGetRAGIndex h r w) = RespondWithError e /\ Kind e = NotFound
     end) /\
  (forall w1, BucketExists c indexName w = (Ok false, w1) ->
     HandleGetRAGIndex h r w =
       (RespondWithError (NewNotFoundError "RAG index not found" None), w1)) /\
  (forall err w1, BucketExists c indexName w = (Err err, w1) ->
     fst (HandleGetRAGIndex h r w) =
       RespondWithError (NewInternalServerError "Failed to check index" (Some err))) /\
  buckets (snd (HandleGetRAGIndex h r w)) = buckets w /\
  statuses (snd (HandleGetRAGIndex h r w)) = statuses w.
Proof. apply HandleGetRAGIndex_run. Qed.

(** X6: without store faults the listing and the single read agree: an
    index is in the answer of ListIndices exactly when GetIndex, asked for
    some bucket name, answers 200 with it. *)
Theorem ListIndices_agrees_with_GetIndex h c r w :
  MinioClient h = Some c ->
  fault_free w ->
  exists indices,
    fst (HandleListRAGIndices h r w) =
      RespondWithJSON http_StatusOK
        (api_NewResponse (data_indices indices) "Successfully listed RAG indices" false) /\
    forall index,
      index ∈ indices <->
      exists indexName,
        forall r', GetPathParam r' "name" = Ok indexName ->
          fst (HandleGetRAGIndex h r' w) =
            RespondWithJSON http_StatusOK
              (api_NewResponse (data_index index) "Successfully retrieved RAG index" false).
Proof.
  intros Hc Hff.
  destruct (ListBuckets c w) as [ls w1] eqn:Hls.
  pose proof (ListBuckets_inv _ _ _ _ Hls) as (Hb1 & _ & Hff1 & Hnames).
  assert (exists bucketNames, ls = Ok bucketNames) as [bucketNames ->].
  { revert Hls. unfold ListBuckets, sdk_ListBuckets. unfold_M. simpl.
    rewrite (fault_free_hd w Hff). simpl. intros; inv_pair. eauto. }
  specialize (Hnames bucketNames eq_refl).
  destruct (ListRAGIndices_loop c bucketNames [] w1) as [indices w2] eqn:Hloop.
  pose proof (ListRAGIndices_loop_inv _ _ _ _ _ _ Hloop) as (_ & _ & found & Hout & _ & Hfull).
  rewrite Hb1 in Hfull. specialize (Hfull (Hff1 Hff)). subst found. simpl in Hout.
  exists indices. split.
  { unfold HandleListRAGIndices. rewrite Hc. step Hls. step Hloop. step_pure. reflexivity. }
  rewrite Hout.
  intros index. rewrite list_elem_of_omap. split.
  - intros (bucket & _ & Hst). exists bucket. intros r' Hname.
    destruct (HandleGetRAGIndex_run h c r' bucket w Hc Hname) as (_ & Hexact & _).
    specialize (Hexact Hff (stored_metadata_bucket _ _ _ Hst)).
    rewrite Hst in Hexact. exact Hexact.
  - intros (indexName & Hget).
    pose (r' := mkRequest (fun _ => Ok indexName) no_body no_body no_body None no_body).
    specialize (Hget r' eq_refl).
    destruct (HandleGetRAGIndex_run h c r' indexName w Hc eq_refl) as (Hsound & _).
    destruct (Hsound _ _ Hget) as (metadata & Hst & _ & Hbody).
    injection Hbody as <-.
    exists indexName. split; [|exact Hst].
    rewrite Hnames.
    unfold stored_metadata in Hst.
    destruct (buckets w !! indexName) as [b|] eqn:Hb; [|discriminate].
    apply (list_elem_of_fmap_2 fst (map_to_list (buckets w)) (indexName, b)).
    apply elem_of_map_to_list. exact Hb.
Qed.

(** X7: an update needs valid metadata to start from: for a name whose
    bucket is missing, or holds no metadata object, or one that does not
    parse, UpdateIndex answers NotFound whatever the store does, and writes
    nothing. *)
Theorem UpdateIndex_requires_valid_metadata h c r indexName req w :
  MinioClient h = Some c ->
  GetPathParam r "name" = Ok indexName ->
  req_UpdateBody r = Ok req ->
  stored_metadata (buckets w) indexName = None ->
  exists e,
    fst (HandleUpdateRAGIndex h r w) = RespondWithError e /\ Kind e = NotFound /\
    buckets (snd (HandleUpdateRAGIndex h r w)) = buckets w.
Proof.
  intros Hc Hname Hbody Hnone. unfold HandleUpdateRAGIndex. rewrite Hc, Hname, Hbody.
  destruct (getIndexMetadata c indexName w) as [m w1] eqn:Hget. step Hget.
  apply getIndexMetadata_inv in Hget as (Hb & _ & Hsound & _).
  destruct m as [metadata|err].
  - specialize (Hsound metadata eq_refl). congruence.
  - step_pure. unfold ret. simpl. eauto.
Qed.

End Reading.

(** ** Creating an index *)

Section CreatingMore.
Context `{GoStdlib}.

Lemma CreateBucket_created c bucketName w w' :
  buckets w !! bucketName = None ->
  CreateBucket c bucketName w = (None, w') ->
  buckets w' = <[bucketName := mkBucket ∅ None]> (buckets w) /\
  statuses w' = statuses w /\ clock w' = clock w.
Proof.
  unfold CreateBucket, sdk_BucketExists, sdk_MakeBucket. unfold_M. intros Hnone. simpl.
  destruct (hd None (faults w)); simpl; [intros; inv_pair|].
  rewrite Hnone. rewrite bool_decide_eq_false_2 by (intros [? ?]; discriminate). simpl.
  destruct (hd None (tl (faults w))); simpl; [intros; inv_pair|].
  rewrite Hnone. simpl. intros [= <-]. simpl. auto.
Qed.

Lemma SetBucketNotification_armed c bucketName suffix b w w' :
  buckets w !! bucketName = Some b ->
  SetBucketNotification c bucketName suffix w = (None, w') ->
  buckets w' = <[bucketName := mkBucket (objects b) (Some suffix)]> (buckets w) /\
  statuses w' = statuses w /\ clock w' = clock w.
Proof.
  unfold SetBucketNotification, sdk_SetBucketNotification. unfold_M. intros Hb. simpl.
  destruct (hd None (faults w)); simpl; [intros; inv_pair|].
  rewrite Hb. simpl. intros [= <-]. simpl. auto.
Qed.

(** The run of a creation all of whose calls to the store succeed. *)
Lemma HandleCreateRAGIndex_created h c r req w w1 w2 w3 w4 :
  MinioClient h = Some c ->
  req_CreateBody r = Ok req ->
  isValidIndexName (create_Name req) = true ->
  BucketExists c (create_Name req) w = (Ok false, w1) ->
  CreateBucket c (create_Name req) w1 = (None, w2) ->
  SetBucketNotification c (create_Name req) "KAGENT" w2 = (None, w3) ->
  putIndexMetadata c (create_Name req)
    (mkRAGIndex (create_Name req) (create_Description req) (clock w3))
    (snd (time_Now w3)) = (None, w4) ->
  HandleCreateRAGIndex h r w =
    (RespondWithJSON http_StatusCreated
       (api_NewResponse
          (data_index (mkRAGIndex (create_Name req) (create_Description req) (clock w3)))
          "Successfully created RAG index" false),
     snd (log_Info "Successfully created RAG index" w4)) /\
  (exists data,
     json_Marshal (mkRAGIndex (create_Name req) (create_Description req) (clock w3))
       = Ok data /\
     buckets w4 =
       <[create_Name req :=
           mkBucket {[ metadataFile :=
                         mkObject data (len data) "application/json" (clock w3 + 1) ]}
                    (Some "KAGENT")]> (buckets w)) /\
  statuses w4 = statuses w /\
  faults (snd (log_Info "Successfully created RAG index" w4)) = faults w4.
Proof.
  intros Hc Hreq Hvalid Hex Hmk Hnt Hput.
  split; [|split; [|split; [|reflexivity]]].
  - unfold HandleCreateRAGIndex. rewrite Hc, Hreq.
    rewrite (isValidIndexName_nonempty _ Hvalid), Hvalid.
    change (negb true) with false. cbv beta iota.
    step Hex. step Hmk. step Hnt. step_pure. step Hput. step_pure. reflexivity.
  - apply BucketExists_inv in Hex as (Hb1 & Hs1 & Habs).
    specialize (Habs false eq_refl). symmetry in Habs.
    apply bool_decide_eq_false in Habs.
    assert (buckets w !! create_Name req = None) as Hnone.
    { destruct (buckets w !! create_Name req) eqn:E; [|reflexivity]. exfalso. eauto. }
    apply CreateBucket_created in Hmk as (Hb2 & _); [|congruence].
    apply (SetBucketNotification_armed _ _ _ (mkBucket ∅ None)) in Hnt as (Hb3 & _);
      [|rewrite Hb2; apply lookup_insert_eq].
    apply putIndexMetadata_run in Hput as (_ & data & b & Hdata & Hb & Hb4).
    exists data. split; [exact Hdata|].
    simpl in Hb, Hb4. rewrite Hb3, lookup_insert_eq in Hb. injection Hb as <-.
    rewrite Hb4, Hb3, Hb2, Hb1. simpl. rewrite !insert_insert_eq. reflexivity.
  - apply BucketExists_inv in Hex as (_ & Hs1 & _).
    apply CreateBucket_inv in Hmk as (_ & Hs2).
    apply SetBucketNotification_inv in Hnt as (_ & Hs3).
    apply putIndexMetadata_run in Hput as (Hs4 & _). simpl in Hs4. congruence.
Qed.

(** X8: the effect of a creation all of whose calls to the store succeed:
    the existence check reports no bucket, and the creation of the bucket,
    the arming of the notification hook and the metadata write return no
    error.  The answer is Created with the name, the description and the
    time read before the metadata write, and the store holds exactly one
    new bucket: armed for notifications and holding, as its only object,
    the serialized index.  Status rows and other buckets are untouched. *)
Theorem CreateIndex_success_effect h c r req w w1 w2 w3 w4 :
  MinioClient h = Some c ->
  req_CreateBody r = Ok req ->
  isValidIndexName (create_Name req) = true ->
  BucketExists c (create_Name req) w = (Ok false, w1) ->
  CreateBucket c (create_Name req) w1 = (None, w2) ->
  SetBucketNotification c (create_Name req) "KAGENT" w2 = (None, w3) ->
  let index := mkRAGIndex (create_Name req) (create_Description req) (clock w3) in
  putIndexMetadata c (create_Name req) index (snd (time_Now w3)) = (None, w4) ->
  let out := HandleCreateRAGIndex h r w in
  fst out = RespondWithJSON http_StatusCreated
              (api_NewResponse (data_index index) "Successfully created RAG index" false) /\
  (exists data,
     json_Marshal index = Ok data /\
     buckets (snd out) !! create_Name req =
       Some (mkBucket {[ metadataFile :=
                           mkObject data (len data) "application/json" (clock w3 + 1) ]}
                      (Some "KAGENT"))) /\
  (forall other, other <> create_Name req ->
     buckets (snd out) !! other = buckets w !! other) /\
  statuses (snd out) = statuses w.
Proof.
  intros Hc Hreq Hvalid Hex Hmk Hnt index Hput out.
  destruct (HandleCreateRAGIndex_created h c r req w w1 w2 w3 w4
              Hc Hreq Hvalid Hex Hmk Hnt Hput) as (Hrun & (data & Hdata & Hb) & Hs & _).
  subst out. rewrite Hrun. simpl. rewrite Hb.
  split; [reflexivity|]. split; [|split; [|exact Hs]].
  - exists data. split; [exact Hdata | apply lookup_insert_eq].
  - intros other Hother. apply lookup_insert_ne. congruence.
Qed.

(** X9: create then get.  After a creation all of whose calls to the store
    succeeded, when the metadata written parses back to the index, a
    GetIndex for the name that meets no store fault answers 200 with the
    very index the creation returned. *)
Theorem CreateIndex_then_GetIndex h c r r' req w w1 w2 w3 w4 data :
  MinioClient h = Some c ->
  req_CreateBody r = Ok req ->
  isValidIndexName (create_Name req) = true ->
  BucketExists c (create_Name req) w = (Ok false, w1) ->
  CreateBucket c (create_Name req) w1 = (None, w2) ->
  SetBucketNotification c (create_Name req) "KAGENT" w2 = (None, w3) ->
  let index := mkRAGIndex (create_Name req) (create_Description req) (clock w3) in
  putIndexMetadata c (create_Name req) index (snd (time_Now w3)) = (None, w4) ->
  json_Marshal index = Ok data ->
  json_Unmarshal data = Ok index ->
  fault_free (snd (HandleCreateRAGIndex h r w)) ->
  GetPathParam r' "name" = Ok (create_Name req) ->
  fst (HandleCreateRAGIndex h r w) =
    RespondWithJSON http_StatusCreated
      (api_NewResponse (data_index index) "Successfully created RAG index" false) /\
  fst (HandleGetRAGIndex h r' (snd (HandleCreateRAGIndex h r w))) =
    RespondWithJSON http_StatusOK
      (api_NewResponse (data_index index) "Successfully retrieved RAG index" false).
Proof.
  intros Hc Hreq Hvalid Hex Hmk Hnt index Hput Hdata Hback Hff Hname.
  destruct (HandleCreateRAGIndex_created h c r req w w1 w2 w3 w4
              Hc Hreq Hvalid Hex Hmk Hnt Hput) as (Hrun & (data' & Hdata' & Hb) & _ & _).
  fold index in Hdata'. rewrite Hdata in Hdata'. injection Hdata' as <-.
  rewrite Hrun in Hff |- *. simpl fst. simpl snd in *.
  split; [reflexivity|].
  set (w' := snd (log_Info "Successfully created RAG index" w4)) in *.
  assert (buckets w' = buckets w4) as Hb' by reflexivity.
  assert (stored_metadata (buckets w') (create_Name req) = Some index) as Hst.
  { unfold stored_metadata. rewrite Hb', Hb, lookup_insert_eq. simpl.
    rewrite lookup_singleton_eq. simpl. rewrite Hback. reflexivity. }
  destruct (HandleGetRAGIndex_run h c r' (create_Name req) w' Hc Hname) as (_ & Hexact & _).
  specialize (Hexact Hff (stored_metadata_bucket _ _ _ Hst)).
  rewrite Hst in Hexact. exact Hexact.
Qed.

(** X10: the request is validated before the object store is contacted: a
    body that does not decode, an empty name or a name that breaks the
    naming rule is answered with BadRequest, and the world, its fault
    schedule and log included, is exactly as before. *)
Theorem CreateIndex_validates_first h c r w :
  MinioClient h = Some c ->
  (exists err, req_CreateBody r = Err err) \/
  (exists req, req_CreateBody r = Ok req /\ isValidIndexName (create_Name req) = false) ->
  exists e, HandleCreateRAGIndex h r w = (RespondWithError e, w) /\ Kind e = BadRequest.
Proof.
  intros Hc [[err Hreq]|(req & Hreq & Hbad)]; unfold HandleCreateRAGIndex; rewrite Hc, Hreq.
  - eexists. split; reflexivity.
  - destruct (String.eqb (create_Name req) ""); [eexists; split; reflexivity|].
    rewrite Hbad. eexists. split; reflexivity.
Qed.

(** X11: a name whose bucket already exists is answered with Conflict, and
    neither the bucket nor anything else in the stores is changed. *)
Theorem CreateIndex_existing_bucket_conflict h c r req w :
  MinioClient h = Some c ->
  req_CreateBody r = Ok req ->
  isValidIndexName (create_Name req) = true ->
  is_Some (buckets w !! create_Name req) ->
  hd None (faults w) = None ->
  let out := HandleCreateRAGIndex h r w in
  fst out = RespondWithError
              (NewConflictError ("RAG index '" +:+ create_Name req +:+ "' already exists")
                                None) /\
  buckets (snd out) = buckets w /\ statuses (snd out) = statuses w.
Proof.
  intros Hc Hreq Hvalid Hsome Hhd out.
  destruct (BucketExists_ok c (create_Name req) w Hhd) as (w1 & Hex & Hb1 & Hs1).
  rewrite bool_decide_eq_true_2 in Hex by exact Hsome.
  subst out. unfold HandleCreateRAGIndex. rewrite Hc, Hreq.
  rewrite (isValidIndexName_nonempty _ Hvalid), Hvalid.
  change (negb true) with false. cbv beta iota. step Hex. unfold ret. simpl. auto.
Qed.

(** X12: when arming the notification hook fails, the handler tries to
    delete the bucket it has just created and answers with the error of the
    arming call; no metadata write is attempted, and when the deletion
    succeeds the object store is as before the request. *)
Theorem CreateIndex_notification_failure_rollback h c r req w w1 w2 e w3 dres w4 :
  MinioClient h = Some c ->
  req_CreateBody r = Ok req ->
  isValidIndexName (create_Name req) = true ->
  BucketExists c (create_Name req) w = (Ok false, w1) ->
  CreateBucket c (create_Name req) w1 = (None, w2) ->
  SetBucketNotification c (create_Name req) "KAGENT" w2 = (Some e, w3) ->
  DeleteBucket c (create_Name req)
    (snd (log_Error e "Failed to set bucket notification" w3)) = (dres, w4) ->
  HandleCreateRAGIndex h r w =
    (RespondWithError
       (NewInternalServerError "Failed to configure index notifications" (Some e)), w4) /\
  (forall b, buckets w4 !! create_Name req = Some b -> objects b !! metadataFile = None) /\
  (dres = None -> buckets w4 = buckets w).
Proof.
  intros Hc Hreq Hvalid Hex Hmk Hnt Hdel.
  apply BucketExists_inv in Hex as Hex'. destruct Hex' as (Hb1 & _ & Habs).
  specialize (Habs false eq_refl). symmetry in Habs.
  apply bool_decide_eq_false in Habs.
  assert (buckets w !! create_Name req = None) as Hnone.
  { destruct (buckets w !! create_Name req) eqn:E; [|reflexivity]. exfalso. eauto. }
  split; [|split].
  - unfold HandleCreateRAGIndex. rewrite Hc, Hreq.
    rewrite (isValidIndexName_nonempty _ Hvalid), Hvalid.
    change (negb true) with false. cbv beta iota.
    step Hex. step Hmk. step Hnt. step_pure. step Hdel. reflexivity.
  - intros b Hb.
    (* the bucket holds at most what creation and arming left in it: nothing *)
    revert Hmk Hnt Hdel Hb.
    unfold CreateBucket, SetBucketNotification, sdk_BucketExists, sdk_MakeBucket,
      sdk_SetBucketNotification.
    unfold_M. rewrite <- Hb1 in Hnone.
    destruct (hd None (faults w1)); simpl; [intros; inv_pair|].
    rewrite Hnone.
    rewrite bool_decide_eq_false_2 by (intros [? ?]; discriminate). simpl.
    destruct (hd None (tl (faults w1))); simpl; [intros; inv_pair|].
    rewrite Hnone. simpl. intros Hmk. injection Hmk as <-. simpl.
    destruct (hd None (tl (tl (faults w1)))) eqn:Hf3; simpl.
    + intros Hnt. injection Hnt as <- <-. intros Hdel Hb.
      destruct (objects b !! metadataFile) as [o|] eqn:E; [|reflexivity].
      assert (objects (mkBucket ∅ None) !! metadataFile = Some o) as Habs'.
      { eapply (DeleteBucket_sub c (create_Name req) _ _ _ Hdel); [|exact Hb|exact E].
        simpl. apply lookup_insert_eq. }
      simpl in Habs'. rewrite lookup_empty in Habs'. discriminate.
    + rewrite lookup_insert_eq. simpl. intros; inv_pair.
  - intros ->.
    apply CreateBucket_inv in Hmk as (Hb2 & _).
    apply SetBucketNotification_inv in Hnt as (Hb3 & _).
    apply DeleteBucket_ok in Hdel as (Hb5 & _). simpl in Hb5.
    rewrite Hb5, Hb3, Hb2, Hb1. apply delete_id. exact Hnone.
Qed.

End CreatingMore.

(** ** Downloading a document *)

Lemma GetObject_sound c bucketName objectName w data w' :
  GetObject c bucketName objectName w = (Ok data, w') ->
  exists b o, buckets w !! bucketName = Some b /\ objects b !! objectName = Some o /\
              obj_data o = data.
Proof.
  intros Hget. apply GetObject_inv in Hget as (_ & _ & Hsound & _).
  specialize (Hsound data eq_refl).
  destruct (buckets w !! bucketName) as [b|] eqn:Hb; simpl in Hsound;
    [|discriminate Hsound].
  destruct (objects b !! objectName) as [o|] eqn:Ho; simpl in Hsound;
    [|discriminate Hsound].
  injection Hsound as Hdata. exists b, o. auto.
Qed.

(** X13: a download that writes a body has served a stored document: the
    body is, byte for byte, the object stored under the requested file name
    in the requested index, the status is 200, and the headers announce an
    attachment of that name and of the body's length.  The reserved
    metadata object is never served. *)
Theorem DownloadDocument_serves_stored_documents h r w header statusCode body :
  fst (HandleDownloadDocument h r w) = written_raw header statusCode body ->
  exists indexName filename b o,
    GetPathParam r "name" = Ok indexName /\
    GetPathParam r "filename" = Ok filename /\
    filename <> metadataFile /\
    buckets w !! indexName = Some b /\
    objects b !! filename = Some o /\
    body = obj_data o /\
    statusCode = http_StatusOK /\
    header !! "Content-Length" = Some (fmt_d (len body)) /\
    header !! "Content-Type" = Some "application/octet-stream" /\
    header !! "Content-Disposition" =
      Some ("attachment; filename=" +:+ dquote +:+ filename +:+ dquote).
Proof.
  unfold HandleDownloadDocument.
  destruct (MinioClient h) as [c|]; [|discriminate].
  destruct (GetPathParam r "name") as [indexName|?]; [|discriminate].
  destruct (GetPathParam r "filename") as [filename|?]; [|discriminate].
  destruct (BucketExists c indexName w) as [ex w1] eqn:Hex. step Hex.
  apply BucketExists_inv in Hex as (Hb1 & _).
  destruct ex as [[|]|err]; [|discriminate|step_pure; discriminate].
  destruct (String.eqb_spec filename metadataFile) as [|Hne]; [discriminate|].
  destruct (GetObject c indexName filename w1) as [d w2] eqn:Hget. step Hget.
  destruct d as [data|err]; [|step_pure; discriminate].
  apply GetObject_sound in Hget as (b & o & Hb & Ho & Hdata). rewrite Hb1 in Hb.
  cbv zeta. step_pure. unfold ret. simpl. intros Heq. injection Heq as <- <- <-.
  exists indexName, filename, b, o. repeat split; auto.
Qed.



(** ** Deleting a status row *)

(** X15: the deletion of a status row never fails on the store's account:
    whatever the status store answers, a request that names an index and a
    file is answered 200, the only other answer being BadRequest for a
    missing path parameter; the object store is not touched. *)
Theorem DeleteDocumentStatus_never_fails h r w :
  match fst (HandleDeleteDocumentStatus h r w) with
  | RespondWithJSON code body =>
    code = http_StatusOK /\
    body = api_NewResponse data_empty "Successfully deleted document status" false /\
    exists indexName filename,
      GetPathParam r "name" = Ok indexName /\ GetPathParam r "filename" = Ok filename
  | RespondWithError e =>
    Kind e = BadRequest /\
    ((exists err, GetPathParam r "name" = Err err) \/
     (exists err, GetPathParam r "filename" = Err err)) /\
    snd (HandleDeleteDocumentStatus h r w) = w
  end /\
  buckets (snd (HandleDeleteDocumentStatus h r w)) = buckets w.
Proof.
  unfold HandleDeleteDocumentStatus.
  destruct (GetPathParam r "name") as [indexName|?]; [|simpl; eauto 10].
  destruct (GetPathParam r "filename") as [filename|?]; [|simpl; eauto 10].
  destruct (DeleteDocumentStatus indexName filename w) as [res w1] eqn:Hst. step Hst.
  apply DeleteDocumentStatus_run in Hst as (Hb & _).
  destruct res; repeat step_pure; unfold ret; simpl; eauto 10.
Qed.

(** ** Operations on documents, one after the other *)







Lemma ListDocumentStatusesForIndex_frame indexName w r w' :
  ListDocumentStatusesForIndex indexName w = (r, w') ->
  buckets w' = buckets w /\ statuses w' = statuses w.
Proof.
  unfold ListDocumentStatusesForIndex. unfold_M.
  destruct (hd None (faults w)); simpl; intros; inv_pair; auto.
Qed.



Section Composing.
Context `{GoStdlib}.



End Composing.



(** ** Authorization *)

Lemma Check_userRoles_spec allowedRole userRoles :
  Check_userRoles allowedRole userRoles = true <-> allowedRole ∈ userRoles.
Proof.
  induction userRoles as [|u us IH]; simpl.
  - split; [discriminate | intros Hin; inversion Hin].
  - destruct (String.eqb_spec allowedRole u) as [->|Hne].
    + split; [intros _; left | reflexivity].
    + rewrite IH. split; [right; assumption|].
      intros Hin. inversion Hin; subst; [congruence | assumption].
Qed.

Lemma Check_allowedRoles_spec allowedRoles userRoles :
  Check_allowedRoles allowedRoles userRoles = true <->
  exists role, role ∈ allowedRoles /\ role ∈ userRoles.
Proof.
  induction allowedRoles as [|r rs IH]; simpl.
  - split; [discriminate | intros (role & Hin & _); inversion Hin].
  - destruct (Check_userRoles r userRoles) eqn:Hr.
    + apply Check_userRoles_spec in Hr. split; [|reflexivity].
      intros _. exists r. split; [left | assumption].
    + rewrite IH. split.
      * intros (role & Hin & Hu). exists role. split; [right|]; assumption.
      * intros (role & Hin & Hu). inversion Hin; subst.
        -- apply Check_userRoles_spec in Hu. congruence.
        -- exists role. split; assumption.
Qed.

Lemma substring_full s : String.substring 0 (String.length s) s = s.
Proof. induction s as [|a t IH]; simpl; [reflexivity|]. f_equal. exact IH. Qed.

Lemma strings_IndexByte_split s c m :
  strings_IndexByte s c = Some m ->
  s = String.substring 0 m s +:+
      String c (String.substring (m + 1) (String.length s - (m + 1)) s) /\
  strings_IndexByte (String.substring 0 m s) c = None.
Proof.
  revert m. induction s as [|a t IH]; intros m; simpl; [discriminate|].
  destruct (Ascii.eqb_spec a c) as [->|Hne].
  - intros [= <-]. simpl. rewrite Nat.sub_0_r, substring_full. split; reflexivity.
  - destruct (strings_IndexByte t c) as [k|] eqn:Hk; [|discriminate].
    intros [= <-]. destruct (IH k eq_refl) as [Heq Hnone]. simpl.
    split.
    + change (String a t = String a (String.substring 0 k t +:+
        String c (String.substring (k + 1) (String.length t - (k + 1)) t))).
      f_equal. exact Heq.
    + destruct (Ascii.eqb_spec a c); [congruence|]. rewrite Hnone. reflexivity.
Qed.

Lemma substring_app_l ns rest :
  String.substring 0 (String.length ns) (ns +:+ rest) = ns.
Proof.
  induction ns as [|a t IH]; simpl.
  - destruct rest; reflexivity.
  - f_equal. exact IH.
Qed.

Lemma substring_app_r ns c rest :
  String.substring (String.length ns + 1)
    (String.length (ns +:+ String c rest) - (String.length ns + 1)) (ns +:+ String c rest) =
  rest.
Proof.
  induction ns as [|a t IH]; simpl.
  - rewrite Nat.sub_0_r. apply substring_full.
  - exact IH.
Qed.

Lemma strings_IndexByte_app ns c rest :
  strings_IndexByte ns c = None ->
  strings_IndexByte (ns +:+ String c rest) c = Some (String.length ns).
Proof.
  induction ns as [|a t IH]; simpl.
  - intros _. rewrite Ascii.eqb_refl. reflexivity.
  - destruct (Ascii.eqb a c); [discriminate|].
    destruct (strings_IndexByte t c) eqn:Ht; [discriminate|].
    intros _. rewrite IH; reflexivity.
Qed.

(** [strings.SplitN(s, "/", 2)] has two parts exactly when [s] holds a
    slash, and they are the text before the first slash and the text after
    it. *)
Lemma strings_SplitN_2_pair s c namespace name :
  strings_SplitN_2 s c = [namespace; name] <->
  s = namespace +:+ String c name /\ strings_IndexByte namespace c = None.
Proof.
  unfold strings_SplitN_2. split.
  - destruct (strings_IndexByte s c) as [m|] eqn:Hm; [|discriminate].
    intros [= <- <-]. apply strings_IndexByte_split. exact Hm.
  - intros [-> Hnone]. rewrite (strings_IndexByte_app _ _ _ Hnone).
    rewrite substring_app_l, substring_app_r. reflexivity.
Qed.

Lemma strings_SplitN_2_cases s c :
  (exists namespace name, strings_SplitN_2 s c = [namespace; name]) \/
  strings_SplitN_2 s c = [s].
Proof.
  unfold strings_SplitN_2. destruct (strings_IndexByte s c); [left | right; reflexivity].
  eexists _, _. reflexivity.
Qed.

Lemma RBACAuthorizer_Check_None a principal verb resource :
  RBACAuthorizer_Check a principal verb resource = None <->
  res_Type resource <> "Agent" \/
  res_Name resource = "" \/
  exists namespace name agent,
    res_Name resource = namespace +:+ "/" +:+ name /\
    strings_IndexByte namespace "/" = None /\
    kube_Get a namespace name = Ok agent /\
    (agent_AllowedRoles agent = [] \/
     exists role, role ∈ agent_AllowedRoles agent /\
                  role ∈ user_Roles (principal_User principal)).
Proof.
  unfold RBACAuthorizer_Check.
  destruct (String.eqb_spec (res_Type resource) "Agent") as [Ht|Ht]; simpl;
    [|split; [intros _; left; exact Ht | reflexivity]].
  destruct (String.eqb_spec (res_Name resource) "") as [Hn|Hn];
    [split; [intros _; right; left; exact Hn | reflexivity]|].
  destruct (strings_SplitN_2_cases (res_Name resource) "/") as [(ns & n & Hs)|Hs]; rewrite Hs.
  - apply strings_SplitN_2_pair in Hs as Hs'. destruct Hs' as [Heq Hnone].
    assert (Huniq : forall ns' n', res_Name resource = ns' +:+ "/" +:+ n' ->
                      strings_IndexByte ns' "/" = None -> ns' = ns /\ n' = n).
    { intros ns' n' Heq' Hnone'.
      assert (Hs2 : strings_SplitN_2 (res_Name resource) "/" = [ns'; n'])
        by (apply strings_SplitN_2_pair; split; assumption).
      rewrite Hs in Hs2. injection Hs2 as -> ->. split; reflexivity. }
    destruct (kube_Get a ns n) as [agent|err] eqn:Hget.
    + destruct (agent_AllowedRoles agent) as [|r0 rs] eqn:Hroles.
      * simpl. split; [|reflexivity]. intros _. right; right.
        exists ns, n, agent. rewrite Hroles. repeat split; auto.
      * replace (Z.of_nat (length (r0 :: rs)) =? 0) with false
          by (symmetry; apply Z.eqb_neq; simpl; lia).
        destruct (Check_allowedRoles (r0 :: rs) _) eqn:Hc.
        -- split; [|reflexivity]. intros _. right; right.
           exists ns, n, agent. rewrite Hroles. repeat split; auto.
           right. apply Check_allowedRoles_spec. exact Hc.
        -- split; [discriminate|].
           intros [Hty|[Hnm|(ns' & n' & agent' & Heq' & Hnone' & Hget' & Hok)]];
             [congruence | congruence |].
           destruct (Huniq _ _ Heq' Hnone') as [-> ->].
           rewrite Hget in Hget'. injection Hget' as <-. rewrite Hroles in Hok.
           destruct Hok as [Hnil|Hex]; [discriminate|].
           apply Check_allowedRoles_spec in Hex. congruence.
    + split; [discriminate|].
      intros [Hty|[Hnm|(ns' & n' & agent' & Heq' & Hnone' & Hget' & Hok)]];
        [congruence | congruence |].
      destruct (Huniq _ _ Heq' Hnone') as [-> ->]. congruence.
  - split; [discriminate|].
    intros [Hty|[Hnm|(ns' & n' & agent' & Heq' & Hnone' & Hget' & Hok)]];
      [congruence | congruence |].
    assert (Hs2 : strings_SplitN_2 (res_Name resource) "/" = [ns'; n'])
      by (apply strings_SplitN_2_pair; split; assumption).
    congruence.
Qed.

(** X18: [RBACAuthorizer.Check] allows a request exactly when the resource is
    not an agent, or carries no name, or names as [namespace/name] (split at
    the first slash) an agent the cluster returns and that agent either
    lists no allowed role or lists a role the user holds.  Everything else
    is refused: a name without a slash, an agent the cluster cannot return,
    a user without any of the listed roles. *)
Theorem RBAC_Check_allows_exactly a principal verb resource :
  RBACAuthorizer_Check a principal verb resource = None <->
  res_Type resource <> "Agent" \/
  res_Name resource = "" \/
  exists namespace name agent,
    res_Name resource = namespace +:+ "/" +:+ name /\
    strings_IndexByte namespace "/" = None /\
    kube_Get a namespace name = Ok agent /\
    (agent_AllowedRoles agent = [] \/
     exists role, role ∈ agent_AllowedRoles agent /\
                  role ∈ user_Roles (principal_User principal)).
Proof. apply RBACAuthorizer_Check_None. Qed.

(** X19: [RBACAuthorizer.Check] never looks at the verb or at the user's
    identity, and more roles never lose access: what one principal may do,
    every principal holding at least the same roles may do with any verb. *)
Theorem RBAC_Check_monotone_in_roles a principal principal' verb verb' resource :
  user_Roles (principal_User principal) ⊆ user_Roles (principal_User principal') ->
  RBACAuthorizer_Check a principal verb resource = None ->
  RBACAuthorizer_Check a principal' verb' resource = None.
Proof.
  intros Hsub Hok. apply RBACAuthorizer_Check_None in Hok. apply RBACAuthorizer_Check_None.
  destruct Hok as [Hty|[Hnm|(ns & n & agent & Heq & Hnone & Hget & Hroles)]];
    [left; assumption | right; left; assumption |].
  right; right. exists ns, n, agent. repeat split; try assumption.
  destruct Hroles as [Hnil|(role & Hin & Hu)]; [left; assumption|].
  right. exists role. split; [assumption | apply Hsub; assumption].
Qed.

(** ** Roles *)

Lemma string_app_assoc (s1 s2 s3 : string) : (s1 +:+ s2) +:+ s3 = s1 +:+ (s2 +:+ s3).
Proof.
  induction s1 as [|x s1 IH]; [reflexivity|].
  change (String x ((s1 +:+ s2) +:+ s3) = String x (s1 +:+ (s2 +:+ s3))).
  f_equal. exact IH.
Qed.

Lemma string_app_empty_r (s : string) : s +:+ "" = s.
Proof.
  induction s as [|x s IH]; [reflexivity|].
  change (String x (s +:+ "") = String x s). f_equal. exact IH.
Qed.

Lemma strings_Join_cons first second rest sep :
  strings_Join (first :: second :: rest) sep =
  first +:+ sep +:+ strings_Join (second :: rest) sep.
Proof. reflexivity. Qed.

Lemma formatAgentList_loop result rest :
  foldl (fun result agent => result +:+ ", " +:+ agent) result rest =
  result +:+ match rest with
             | [] => ""
             | _ => ", " +:+ strings_Join rest ", "
             end.
Proof.
  revert result. induction rest as [|agent rest IH]; intros result.
  - symmetry. apply string_app_empty_r.
  - change (foldl (fun result agent => result +:+ ", " +:+ agent)
              (result +:+ ", " +:+ agent) rest =
            result +:+ ", " +:+ strings_Join (agent :: rest) ", ").
    rewrite IH. destruct rest as [|agent' rest].
    + rewrite string_app_empty_r. reflexivity.
    + rewrite strings_Join_cons, !string_app_assoc. reflexivity.
Qed.

(** X20: [formatAgentList] joins the agent references with a comma and a
    space, as [strings.Join(agents, ", ")] does; the empty list gives the
    empty string. *)
Theorem formatAgentList_is_Join agents :
  formatAgentList agents = strings_Join agents ", ".
Proof.
  destruct agents as [|first rest]; [reflexivity|].
  unfold formatAgentList. rewrite formatAgentList_loop.
  destruct rest as [|agent rest]; [apply string_app_empty_r | reflexivity].
Qed.

Lemma allows_role_spec allowedRoles roleName :
  allows_role allowedRoles roleName = true <-> roleName ∈ allowedRoles.
Proof.
  induction allowedRoles as [|r rs IH]; simpl.
  - split; [discriminate | intros Hin; inversion Hin].
  - destruct (String.eqb_spec r roleName) as [->|Hne].
    + split; [intros _; left | reflexivity].
    + rewrite IH. split; [right; assumption|].
      intros Hin. inversion Hin; subst; [congruence | assumption].
Qed.

Lemma getAgentsUsingRole_loop_spec items roleName acc :
  getAgentsUsingRole_loop items roleName acc =
  (acc ++ (agent_ref <$> filter (fun agent => roleName ∈ agent_AllowedRoles agent) items))%list.
Proof.
  revert acc. induction items as [|agent items IH]; intros acc; simpl.
  - rewrite app_nil_r. reflexivity.
  - rewrite filter_cons.
    destruct (allows_role (agent_AllowedRoles agent) roleName) eqn:Ha.
    + apply allows_role_spec in Ha. rewrite decide_True by exact Ha.
      rewrite IH, <- app_assoc. reflexivity.
    + rewrite decide_False; [apply IH|].
      intros Hin. apply allows_role_spec in Hin. congruence.
Qed.

Lemma getAgentsUsingRole_spec k roleName :
  getAgentsUsingRole k roleName =
  match kube_List k with
  | Err err => Err err
  | Ok items =>
    Ok (agent_ref <$> filter (fun agent => roleName ∈ agent_AllowedRoles agent) items)
  end.
Proof.
  unfold getAgentsUsingRole. destruct (kube_List k); [|reflexivity].
  rewrite getAgentsUsingRole_loop_spec. reflexivity.
Qed.

(** X21: [getAgentsUsingRole] passes on the error of the listing, and
    otherwise returns, in the order of the listing, the [namespace/name] of
    exactly the agents whose allowed roles hold the role: one entry for an
    agent, however often the role stands in its list. *)
Theorem getAgentsUsingRole_lists_users_once k roleName :
  getAgentsUsingRole k roleName =
  match kube_List k with
  | Err err => Err err
  | Ok items =>
    Ok (agent_ref <$> filter (fun agent => roleName ∈ agent_AllowedRoles agent) items)
  end.
Proof. apply getAgentsUsingRole_spec. Qed.

Section RoleProperties.
Context {DB : Type} `{RoleStore DB}.

(** X22: [HandleDeleteRole] never deletes a role an agent uses: when the
    listing of the agents succeeds and one of them allows the role, the
    handler answers with an error and leaves the database as the lookup of
    the role left it, [DeleteRole] not being called; the error is a conflict
    when the lookup found the role. *)
Theorem DeleteRole_refuses_role_in_use h r db log roleName items agent :
  role_PathParam r "name" = Ok roleName ->
  kube_List (roles_KubeClient h) = Ok items ->
  agent ∈ items ->
  roleName ∈ agent_AllowedRoles agent ->
  (exists e, fst (HandleDeleteRole h r (db, log)) = RoleRespondWithError e /\
             (snd (fst (GetRole roleName db)) = None -> Kind e = Conflict)) /\
  fst (snd (HandleDeleteRole h r (db, log))) = snd (GetRole roleName db).
Proof.
  intros Hp Hl Hin Hrole. unfold HandleDeleteRole. rewrite Hp.
  destruct (GetRole roleName db) as [[role err] db1]. simpl.
  destruct err as [err|]; simpl.
  - split; [|reflexivity]. eexists. split; [reflexivity | discriminate].
  - rewrite getAgentsUsingRole_spec, Hl.
    assert (Hne : agent_ref agent ∈
              agent_ref <$> filter (fun a => roleName ∈ agent_AllowedRoles a) items).
    { apply list_elem_of_fmap_2. apply list_elem_of_filter. split; assumption. }
    destruct (agent_ref <$> filter _ items) as [|x xs]; [inversion Hne|].
    replace (Z.of_nat (length (x :: xs)) >? 0) with true
      by (symmetry; apply Z.gtb_lt; simpl; lia).
    simpl. split; [|reflexivity]. eexists. split; [reflexivity | reflexivity].
Qed.

(** X23: [HandleDeleteRole] answers with success only when the role name was
    in the path, the lookup of the role gave no error, the listing of the
    agents succeeded with no agent allowing the role, and [DeleteRole] gave
    no error; the status is 200 and the database is the one [DeleteRole]
    left. *)
Theorem DeleteRole_success_means_unused h r db log code data message :
  fst (HandleDeleteRole h r (db, log)) = RoleRespondWithJSON code data message ->
  exists roleName items,
    role_PathParam r "name" = Ok roleName /\
    snd (fst (GetRole roleName db)) = None /\
    kube_List (roles_KubeClient h) = Ok items /\
    Forall (fun agent => roleName ∉ agent_AllowedRoles agent) items /\
    fst (DeleteRole roleName (snd (GetRole roleName db))) = None /\
    code = http_StatusOK /\
    fst (snd (HandleDeleteRole h r (db, log))) =
      snd (DeleteRole roleName (snd (GetRole roleName db))).
Proof.
  unfold HandleDeleteRole.
  destruct (role_PathParam r "name") as [roleName|err]; [|discriminate].
  destruct (GetRole roleName db) as [[role err] db1] eqn:Hg. simpl.
  destruct err as [err|]; [discriminate|].
  rewrite getAgentsUsingRole_spec.
  destruct (kube_List (roles_KubeClient h)) as [items|err] eqn:Hl; [|discriminate].
  destruct (filter (fun a => roleName ∈ agent_AllowedRoles a) items) as [|x xs] eqn:Hf.
  - simpl. destruct (DeleteRole roleName db1) as [[err|] db2] eqn:Hd; simpl; [discriminate|].
    intros [= <- <- <-]. exists roleName, items. rewrite Hg. simpl. rewrite Hd.
    repeat split; try reflexivity.
    apply Forall_forall. intros agent Hin Hrole.
    assert (Hx : agent ∈ filter (fun a => roleName ∈ agent_AllowedRoles a) items)
      by (apply list_elem_of_filter; split; assumption).
    rewrite Hf in Hx. inversion Hx.
  - rewrite fmap_cons.
    replace (Z.of_nat (length (agent_ref x :: (agent_ref <$> xs))) >? 0) with true
      by (symmetry; apply Z.gtb_lt; simpl; lia).
    discriminate.
Qed.

(** [HandleCreateRole] answers with success only for a valid body with a
    name that is not empty, for which the lookup returned no role and
    [StoreRole] gave no error; the status is 201, the role stored and
    returned is the one of the request, and nothing else is written. *)
Lemma CreateRole_success_means_new h r db log code data message :
  fst (HandleCreateRole h r (db, log)) = RoleRespondWithJSON code data message ->
  exists req,
    role_CreateBody r = Ok req /\
    createRole_Name req <> "" /\
    fst (fst (GetRole (createRole_Name req) db)) = None /\
    let role := mkRole (createRole_Name req) (createRole_Description req) in
    let db1 := snd (GetRole (createRole_Name req) db) in
    fst (StoreRole role db1) = None /\
    code = http_StatusCreated /\
    data = data_role (Some role) /\
    fst (snd (HandleCreateRole h r (db, log))) = snd (StoreRole role db1).
Proof.
  unfold HandleCreateRole.
  destruct (role_CreateBody r) as [req|err]; [|discriminate].
  destruct (String.eqb_spec (createRole_Name req) "") as [Hn|Hn]; [discriminate|].
  destruct (GetRole (createRole_Name req) db) as [[existing err] db1] eqn:Hg. simpl.
  destruct existing as [existing|]; [discriminate|].
  destruct (StoreRole _ db1) as [[err'|] db2] eqn:Hs; simpl; [discriminate|].
  intros [= <- <- <-]. exists req. rewrite Hg. simpl. rewrite Hs. repeat split; auto.
Qed.

(** X24: [HandleCreateRole] does not overwrite: when the lookup returns a
    role, with or without an error, the answer is a conflict and
    [StoreRole] is not called. *)
Theorem CreateRole_existing_role_conflict h r db log req existing :
  role_CreateBody r = Ok req ->
  createRole_Name req <> "" ->
  fst (fst (GetRole (createRole_Name req) db)) = Some existing ->
  (exists e, fst (HandleCreateRole h r (db, log)) = RoleRespondWithError e /\
             Kind e = Conflict) /\
  snd (HandleCreateRole h r (db, log)) = (snd (GetRole (createRole_Name req) db), log).
Proof.
  intros Hb Hn Hg. unfold HandleCreateRole. rewrite Hb.
  destruct (String.eqb_spec (createRole_Name req) "") as [Hn'|_]; [congruence|].
  destruct (GetRole (createRole_Name req) db) as [[ex err] db1]. simpl in *. subst ex.
  split; [|reflexivity]. eexists. split; reflexivity.
Qed.

(** [HandleUpdateRole] keeps the name of a role: whatever the request,
    the database is left as the lookup left it, or as [StoreRole] left it
    for the role the lookup returned with its description replaced by the
    one of the request; a success returns that role. *)
Lemma UpdateRole_keeps_name h r db log roleName existing req :
  role_PathParam r "name" = Ok roleName ->
  fst (GetRole roleName db) = (Some existing, None) ->
  role_UpdateBody r = Ok req ->
  let updated := mkRole (role_Name existing) (updateRole_Description req) in
  let db1 := snd (GetRole roleName db) in
  fst (snd (HandleUpdateRole h r (db, log))) = snd (StoreRole updated db1) /\
  match fst (StoreRole updated db1) with
  | None =>
    fst (HandleUpdateRole h r (db, log)) =
      RoleRespondWithJSON http_StatusOK (data_role (Some updated)) "Successfully updated role"
  | Some err =>
    exists e, fst (HandleUpdateRole h r (db, log)) = RoleRespondWithError e /\
              Kind e = InternalServerError
  end.
Proof.
  intros Hp Hg Hb. unfold HandleUpdateRole. rewrite Hp.
  destruct (GetRole roleName db) as [[ex err] db1]. simpl in *.
  injection Hg as -> ->. rewrite Hb.
  destruct (StoreRole _ db1) as [[err|] db2]; simpl.
  - split; [reflexivity|]. eexists. split; reflexivity.
  - split; reflexivity.
Qed.

End RoleProperties.

(** ** The agent gateway *)

Section GatewayProperties.
Context {Handler : Type}.
Variable ResourceRefString : string -> string -> string.
Variable VerbGet : Verb.

Implicit Types a : @handlerMux Handler.

Lemma ServeHTTP_served a vars session handler :
  ServeHTTP ResourceRefString VerbGet a vars session = served_by handler <->
  exists agentNamespace agentName,
    vars !! "namespace" = Some agentNamespace /\ agentNamespace <> "" /\
    vars !! "name" = Some agentName /\ agentName <> "" /\
    passes_authorization VerbGet a session (ResourceRefString agentNamespace agentName) /\
    mux_handlers a !! ResourceRefString agentNamespace agentName = Some handler.
Proof.
  unfold ServeHTTP, passes_authorization, getHandler. split.
  - destruct (vars !! "namespace") as [ns|]; [|discriminate].
    destruct (String.eqb_spec ns "") as [|Hns]; [discriminate|].
    destruct (vars !! "name") as [n|]; [|discriminate].
    destruct (String.eqb_spec n "") as [|Hn]; [discriminate|].
    destruct (mux_authorizer a) as [authorizer|].
    + destruct session as [principal|]; [|discriminate].
      destruct (authorizer principal VerbGet _) eqn:Hc; [discriminate|].
      destruct (mux_handlers a !! _) as [h|] eqn:Hh; [|discriminate].
      intros [= ->]. exists ns, n. repeat split; auto.
      right. exists authorizer, principal. repeat split; auto.
    + destruct (mux_handlers a !! _) as [h|] eqn:Hh; [|discriminate].
      intros [= ->]. exists ns, n. repeat split; auto.
  - intros (ns & n & -> & Hns & -> & Hn & Hpass & Hh).
    destruct (String.eqb_spec ns "") as [|_]; [congruence|].
    destruct (String.eqb_spec n "") as [|_]; [congruence|].
    rewrite Hh.
    destruct Hpass as [->|(authorizer & principal & -> & -> & ->)]; reflexivity.
Qed.

(** X25: [ServeHTTP] hands a request to a registered handler exactly when the
    route gives a namespace and a name that are not empty, the request
    passes the authorization step (no authorizer is configured, or there is
    a session and the authorizer allows [VerbGet] on the agent), and a
    handler is registered under the reference of the agent; the handler
    called is that one. *)
Theorem ServeHTTP_delegates_exactly a vars session handler :
  ServeHTTP ResourceRefString VerbGet a vars session = served_by handler <->
  exists agentNamespace agentName,
    vars !! "namespace" = Some agentNamespace /\ agentNamespace <> "" /\
    vars !! "name" = Some agentName /\ agentName <> "" /\
    passes_authorization VerbGet a session (ResourceRefString agentNamespace agentName) /\
    mux_handlers a !! ResourceRefString agentNamespace agentName = Some handler.
Proof. apply ServeHTTP_served. Qed.

(** X26: the errors of [ServeHTTP] are 400, 401, 403 and 404, and a 404 is
    only given to a request that passed the authorization step, for an
    agent without a registered handler. *)
Theorem ServeHTTP_error_codes a vars session statusCode message :
  ServeHTTP ResourceRefString VerbGet a vars session = respondWithJSONError statusCode message ->
  statusCode = http_StatusBadRequest \/ statusCode = http_StatusUnauthorized \/
  statusCode = http_StatusForbidden \/
  statusCode = http_StatusNotFound /\
  exists agentNamespace agentName,
    vars !! "namespace" = Some agentNamespace /\ vars !! "name" = Some agentName /\
    passes_authorization VerbGet a session (ResourceRefString agentNamespace agentName) /\
    mux_handlers a !! ResourceRefString agentNamespace agentName = None.
Proof.
  unfold ServeHTTP, passes_authorization, getHandler.
  destruct (vars !! "namespace") as [ns|]; [|intros [= <- _]; auto].
  destruct (String.eqb_spec ns "") as [|Hns]; [intros [= <- _]; auto|].
  destruct (vars !! "name") as [n|]; [|intros [= <- _]; auto].
  destruct (String.eqb_spec n "") as [|Hn]; [intros [= <- _]; auto|].
  destruct (mux_authorizer a) as [authorizer|].
  - destruct session as [principal|]; [|intros [= <- _]; auto].
    destruct (authorizer principal VerbGet _) eqn:Hc; [intros [= <- _]; auto|].
    destruct (mux_handlers a !! _) as [h|] eqn:Hh; [discriminate|].
    intros [= <- _]. right; right; right. split; [reflexivity|].
    exists ns, n. repeat split; auto.
    right. exists authorizer, principal. repeat split; auto.
  - destruct (mux_handlers a !! _) as [h|] eqn:Hh; [discriminate|].
    intros [= <- _]. right; right; right. split; [reflexivity|].
    exists ns, n. repeat split; auto.
Qed.

(** X27: a request [ServeHTTP] refuses with 400, 401 or 403 is refused in
    the same words whatever handlers are registered: the refusal tells
    nothing of the registered agents. *)
Theorem ServeHTTP_refusal_hides_registry a (a' : @handlerMux Handler) vars session
    statusCode message :
  mux_authorizer a' = mux_authorizer a ->
  ServeHTTP ResourceRefString VerbGet a vars session = respondWithJSONError statusCode message ->
  statusCode <> http_StatusNotFound ->
  ServeHTTP ResourceRefString VerbGet a' vars session = respondWithJSONError statusCode message.
Proof.
  unfold ServeHTTP, getHandler. intros ->.
  destruct (vars !! "namespace") as [ns|]; [|auto].
  destruct (String.eqb ns ""); [auto|].
  destruct (vars !! "name") as [n|]; [|auto].
  destruct (String.eqb n ""); [auto|].
  destruct (mux_authorizer a) as [authorizer|].
  - destruct session as [principal|]; [|auto].
    destruct (authorizer principal VerbGet _); [auto|].
    destruct (mux_handlers a !! _); [discriminate|].
    intros [= <- _] Hne. contradiction Hne. reflexivity.
  - destruct (mux_handlers a !! _); [discriminate|].
    intros [= <- _] Hne. contradiction Hne. reflexivity.
Qed.

(** X28: after [SetAgentHandler] succeeds for an agent reference, a request
    for that agent that passes the authorization step is handed to the new
    handler, which replaces any handler registered before. *)
Theorem SetAgentHandler_then_ServeHTTP a agentRef handler vars session
    agentNamespace agentName :
  vars !! "namespace" = Some agentNamespace -> agentNamespace <> "" ->
  vars !! "name" = Some agentName -> agentName <> "" ->
  ResourceRefString agentNamespace agentName = agentRef ->
  passes_authorization VerbGet a session agentRef ->
  fst (SetAgentHandler a agentRef (Ok handler)) = None /\
  ServeHTTP ResourceRefString VerbGet (snd (SetAgentHandler a agentRef (Ok handler))) vars session
  = served_by handler.
Proof.
  intros Hns Hns' Hn Hn' Href Hpass. split; [reflexivity|].
  apply ServeHTTP_served. exists agentNamespace, agentName.
  rewrite Href. repeat split; auto. simpl. apply lookup_insert_eq.
Qed.

(** X29: after [RemoveAgentHandler] for an agent reference, [ServeHTTP] hands
    no request for that agent to a handler: a request that is served is for
    another reference. *)
Theorem RemoveAgentHandler_then_ServeHTTP a agentRef vars session handler :
  ServeHTTP ResourceRefString VerbGet (RemoveAgentHandler a agentRef) vars session
  = served_by handler ->
  exists agentNamespace agentName,
    vars !! "namespace" = Some agentNamespace /\ vars !! "name" = Some agentName /\
    ResourceRefString agentNamespace agentName <> agentRef.
Proof.
  intros Hs. apply ServeHTTP_served in Hs.
  destruct Hs as (ns & n & Hns & _ & Hn & _ & _ & Hh).
  exists ns, n. repeat split; auto. intros Heq. rewrite Heq in Hh.
  simpl in Hh. rewrite lookup_delete_eq in Hh. discriminate.
Qed.

(** Registering or removing the handler of one agent does not change
    what [ServeHTTP] does with a request for an agent with another
    reference. *)
Lemma ServeHTTP_other_agents_unchanged a agentRef srv vars agentNamespace agentName session :
  vars !! "namespace" = Some agentNamespace ->
  vars !! "name" = Some agentName ->
  ResourceRefString agentNamespace agentName <> agentRef ->
  ServeHTTP ResourceRefString VerbGet (snd (SetAgentHandler a agentRef srv)) vars session
  = ServeHTTP ResourceRefString VerbGet a vars session /\
  ServeHTTP ResourceRefString VerbGet (RemoveAgentHandler a agentRef) vars session
  = ServeHTTP ResourceRefString VerbGet a vars session.
Proof.
  intros Hns Hn Hne. unfold ServeHTTP, getHandler. rewrite Hns, Hn.
  split.
  - destruct srv as [handler|err]; [|reflexivity]. simpl.
    rewrite lookup_insert_ne by (intros Heq; apply Hne; symmetry; exact Heq). reflexivity.
  - simpl.
    rewrite lookup_delete_ne by (intros Heq; apply Hne; symmetry; exact Heq). reflexivity.
Qed.

(** X30: the gateway with [RBACAuthorizer.Check] as its authorizer, for a
    reference written [namespace/name]: a request with a session, for a
    namespace without a slash, is handed to a handler exactly when that
    handler is registered for the agent, the cluster returns the agent, and
    the agent lists no allowed role or a role of the user. *)
Theorem Gateway_RBAC_serves_exactly k a vars principal agentNamespace agentName handler :
  mux_authorizer a = Some (RBACAuthorizer_Check k) ->
  vars !! "namespace" = Some agentNamespace -> agentNamespace <> "" ->
  vars !! "name" = Some agentName -> agentName <> "" ->
  strings_IndexByte agentNamespace "/" = None ->
  ResourceRefString agentNamespace agentName = agentNamespace +:+ "/" +:+ agentName ->
  ServeHTTP ResourceRefString VerbGet a vars (Some principal) = served_by handler <->
  mux_handlers a !! (agentNamespace +:+ "/" +:+ agentName) = Some handler /\
  exists agent,
    kube_Get k agentNamespace agentName = Ok agent /\
    (agent_AllowedRoles agent = [] \/
     exists role, role ∈ agent_AllowedRoles agent /\
                  role ∈ user_Roles (principal_User principal)).
Proof.
  intros Hauth Hns Hns' Hn Hn' Hslash Href.
  assert (Hpair : strings_SplitN_2 (agentNamespace +:+ "/" +:+ agentName) "/" =
                  [agentNamespace; agentName])
    by (apply strings_SplitN_2_pair; split; [reflexivity | assumption]).
  rewrite ServeHTTP_served. split.
  - intros (ns & n & Hns2 & _ & Hn2 & _ & Hpass & Hh).
    rewrite Hns in Hns2. rewrite Hn in Hn2. injection Hns2 as <-. injection Hn2 as <-.
    rewrite Href in Hh, Hpass. split; [exact Hh|].
    destruct Hpass as [Hnone|(authorizer & p & Ha & Hs & Hc)]; [congruence|].
    rewrite Hauth in Ha. injection Ha as <-. injection Hs as <-.
    apply RBACAuthorizer_Check_None in Hc. simpl in Hc.
    destruct Hc as [Hty|[Hnm|(ns' & n' & agent & Heq & Hnone' & Hget & Hroles)]].
    + contradiction Hty. reflexivity.
    + destruct agentNamespace; discriminate Hnm.
    + assert (Hs2 : strings_SplitN_2 (agentNamespace +:+ "/" +:+ agentName) "/" = [ns'; n'])
        by (apply strings_SplitN_2_pair; split; assumption).
      rewrite Hpair in Hs2. injection Hs2 as <- <-.
      exists agent. split; assumption.
  - intros (Hh & agent & Hget & Hroles). exists agentNamespace, agentName.
    rewrite Href. repeat split; auto.
    right. exists (RBACAuthorizer_Check k), principal. repeat split; auto.
    apply RBACAuthorizer_Check_None. right; right. simpl.
    exists agentNamespace, agentName, agent. repeat split; auto.
Qed.

End GatewayProperties.

(** ** The further properties on the samples *)

Lemma DeleteBucket_failure_is_partial_witness :
  statuses (snd (DeleteBucket mkClient "docs" (sample_world [None; Some sample_fault]))) =
  sample_statuses.
Proof.
  pose (w := sample_world [None; Some sample_fault]).
  destruct (DeleteBucket_failure_is_partial mkClient "docs" w
              (fmt_Errorf "failed to remove object a.txt" sample_fault)
              (snd (DeleteBucket mkClient "docs" w)) ltac:(run)) as (_ & _ & _ & Hs).
  exact Hs.
Defined.

Lemma DeleteBucket_succeeds_without_faults_witness :
  fst (DeleteBucket mkClient "docs" (sample_world [])) = None.
Proof.
  destruct (DeleteBucket_succeeds_without_faults mkClient "docs" (sample_world [])
              ltac:(constructor) ltac:(vm_compute; eauto)) as (Hok & _).
  exact Hok.
Defined.

Lemma ListFiles_agrees_with_ListObjectsInfo_witness :
  snd (ListFiles mkClient "docs" "" (sample_world [Some sample_fault])) =
  snd (ListObjectsInfo mkClient "docs" "" (sample_world [Some sample_fault])).
Proof.
  destruct (ListFiles_agrees_with_ListObjectsInfo mkClient "docs" ""
              (sample_world [Some sample_fault])) as (_ & Hw).
  exact Hw.
Defined.

Lemma PutObjectBytes_then_GetObject_witness :
  fst (GetObject mkClient "raw" "note.txt"
         (snd (PutObjectBytes mkClient "raw" "note.txt" "hello" "text/plain"
                 (sample_world []))))
  = Ok "hello".
Proof.
  pose (w1 := snd (PutObjectBytes mkClient "raw" "note.txt" "hello" "text/plain"
                     (sample_world []))).
  destruct (PutObjectBytes_then_GetObject mkClient "raw" "note.txt" "hello" "text/plain"
              (sample_world []) w1 ltac:(run) ltac:(vm_compute; constructor)) as (Hget & _).
  exact Hget.
Defined.

Lemma GetIndex_reads_stored_metadata_witness :
  exists e,
    fst (@HandleGetRAGIndex sample_stdlib sample_handler (sample_request "raw" "")
           (sample_world []))
    = RespondWithError e /\ Kind e = NotFound.
Proof.
  destruct (@GetIndex_reads_stored_metadata sample_stdlib sample_handler mkClient
              (sample_request "raw" "") "raw" (sample_world [])
              eq_refl eq_refl) as (_ & Hstored & _).
  specialize (Hstored ltac:(constructor) ltac:(vm_compute; eauto)).
  assert (Hst : @stored_metadata sample_stdlib (buckets (sample_world [])) "raw" = None)
    by run.
  rewrite Hst in Hstored. exact Hstored.
Defined.

Lemma ListIndices_agrees_with_GetIndex_witness :
  exists indices,
    fst (@HandleListRAGIndices sample_stdlib sample_handler (sample_request "" "")
           (sample_world []))
    = RespondWithJSON http_StatusOK
        (api_NewResponse (data_indices indices) "Successfully listed RAG indices" false).
Proof.
  destruct (@ListIndices_agrees_with_GetIndex sample_stdlib sample_handler mkClient
              (sample_request "" "") (sample_world []) eq_refl ltac:(constructor))
    as (indices & Hresp & _).
  exists indices. exact Hresp.
Defined.

Lemma UpdateIndex_requires_valid_metadata_witness :
  exists e,
    fst (@HandleUpdateRAGIndex sample_stdlib sample_handler
           (with_update "Handbook" (sample_request "raw" "")) (sample_world []))
    = RespondWithError e /\ Kind e = NotFound.
Proof.
  destruct (@UpdateIndex_requires_valid_metadata sample_stdlib sample_handler mkClient
              (with_update "Handbook" (sample_request "raw" "")) "raw"
              (mkUpdateRAGIndexRequest "Handbook") (sample_world [])
              eq_refl eq_refl eq_refl ltac:(run)) as (e & Hresp & Hkind & _).
  exists e. split; assumption.
Defined.

Lemma CreateIndex_success_effect_witness :
  statuses (snd (@HandleCreateRAGIndex sample_stdlib sample_handler
                   (with_create "notes" "Meeting notes" (sample_request "" ""))
                   (sample_world [])))
  = sample_statuses.
Proof.
  pose (r := with_create "notes" "Meeting notes" (sample_request "" "")).
  pose (w := sample_world []).
  pose (w1 := snd (BucketExists mkClient "notes" w)).
  pose (w2 := snd (CreateBucket mkClient "notes" w1)).
  pose (w3 := snd (SetBucketNotification mkClient "notes" "KAGENT" w2)).
  pose (w4 := snd (@putIndexMetadata sample_stdlib mkClient "notes"
                     (mkRAGIndex "notes" "Meeting notes" (clock w3)) (snd (time_Now w3)))).
  destruct (@CreateIndex_success_effect sample_stdlib sample_handler mkClient r
              (mkCreateRAGIndexRequest "notes" "Meeting notes") w w1 w2 w3 w4
              eq_refl eq_refl ltac:(run) ltac:(run) ltac:(run) ltac:(run) ltac:(run))
    as (_ & _ & _ & Hs).
  exact Hs.
Defined.

Lemma CreateIndex_then_GetIndex_witness :
  fst (@HandleGetRAGIndex sample_stdlib sample_handler (sample_request "notes" "")
         (snd (@HandleCreateRAGIndex sample_stdlib sample_handler
                 (with_create "notes" "Meeting notes" (sample_request "" ""))
                 (sample_world []))))
  = RespondWithJSON http_StatusOK
      (api_NewResponse (data_index (mkRAGIndex "notes" "Meeting notes" 10))
                       "Successfully retrieved RAG index" false).
Proof.
  pose (r := with_create "notes" "Meeting notes" (sample_request "" "")).
  pose (w := sample_world []).
  pose (w1 := snd (BucketExists mkClient "notes" w)).
  pose (w2 := snd (CreateBucket mkClient "notes" w1)).
  pose (w3 := snd (SetBucketNotification mkClient "notes" "KAGENT" w2)).
  pose (w4 := snd (@putIndexMetadata sample_stdlib mkClient "notes"
                     (mkRAGIndex "notes" "Meeting notes" (clock w3)) (snd (time_Now w3)))).
  destruct (@CreateIndex_then_GetIndex sample_stdlib sample_handler mkClient r
              (sample_request "notes" "")
              (mkCreateRAGIndexRequest "notes" "Meeting notes") w w1 w2 w3 w4
              "notes;Meeting notes;10"
              eq_refl eq_refl ltac:(run) ltac:(run) ltac:(run) ltac:(run) ltac:(run)
              ltac:(run) ltac:(run) ltac:(vm_compute; constructor) eq_refl)
    as (_ & Hget).
  exact Hget.
Defined.

Lemma CreateIndex_validates_first_witness :
  exists e,
    @HandleCreateRAGIndex sample_stdlib sample_handler
      (with_create "Notes_2024" "" (sample_request "" "")) (sample_world [Some sample_fault])
    = (RespondWithError e, sample_world [Some sample_fault]) /\ Kind e = BadRequest.
Proof.
  apply (@CreateIndex_validates_first sample_stdlib sample_handler mkClient
           (with_create "Notes_2024" "" (sample_request "" ""))
           (sample_world [Some sample_fault]) eq_refl).
  right. exists (mkCreateRAGIndexRequest "Notes_2024" ""). split; [reflexivity | run].
Defined.

Lemma CreateIndex_existing_bucket_conflict_witness :
  buckets (snd (@HandleCreateRAGIndex sample_stdlib sample_handler
                  (with_create "raw" "Raw files" (sample_request "" ""))
                  (sample_world [None; Some sample_fault])))
  = sample_buckets.
Proof.
  destruct (@CreateIndex_existing_bucket_conflict sample_stdlib sample_handler mkClient
              (with_create "raw" "Raw files" (sample_request "" ""))
              (mkCreateRAGIndexRequest "raw" "Raw files")
              (sample_world [None; Some sample_fault])
              eq_refl eq_refl ltac:(run) ltac:(vm_compute; eauto) eq_refl) as (_ & Hb & _).
  exact Hb.
Defined.

Lemma CreateIndex_notification_failure_rollback_witness :
  buckets (snd (@HandleCreateRAGIndex sample_stdlib sample_handler
                  (with_create "notes" "Meeting notes" (sample_request "" ""))
                  (sample_world [None; None; None; Some sample_fault])))
  = sample_buckets.
Proof.
  pose (r := with_create "notes" "Meeting notes" (sample_request "" "")).
  pose (w := sample_world [None; None; None; Some sample_fault]).
  pose (e := fmt_Errorf "failed to set bucket notification" sample_fault).
  pose (w1 := snd (BucketExists mkClient "notes" w)).
  pose (w2 := snd (CreateBucket mkClient "notes" w1)).
  pose (w3 := snd (SetBucketNotification mkClient "notes" "KAGENT" w2)).
  pose (w4 := snd (DeleteBucket mkClient "notes"
                     (snd (log_Error e "Failed to set bucket notification" w3)))).
  destruct (@CreateIndex_notification_failure_rollback sample_stdlib sample_handler mkClient r
              (mkCreateRAGIndexRequest "notes" "Meeting notes") w w1 w2 e w3 None w4
              eq_refl eq_refl ltac:(run) ltac:(run) ltac:(run) ltac:(run) ltac:(run))
    as (Hrun & _ & Hback).
  fold r w. rewrite Hrun. simpl. rewrite (Hback eq_refl). reflexivity.
Defined.

Lemma DownloadDocument_serves_stored_documents_witness :
  exists b o,
    sample_buckets !! "docs" = Some b /\ objects b !! "a.txt" = Some o /\
    obj_data o = "alpha".
Proof.
  destruct (DownloadDocument_serves_stored_documents sample_handler
              (sample_request "docs" "a.txt") (sample_world [])
              (download_header "a.txt" "alpha") http_StatusOK "alpha" ltac:(run))
    as (indexName & filename & b & o & Hn & Hf & _ & Hb & Ho & Hbody & _).
  injection Hn as <-. injection Hf as <-.
  exists b, o. repeat split; [exact Hb | exact Ho | symmetry; exact Hbody].
Defined.


Lemma DeleteDocumentStatus_never_fails_witness :
  buckets (snd (HandleDeleteDocumentStatus sample_handler (sample_request "docs" "a.txt")
                  (sample_world [Some sample_fault])))
  = sample_buckets.
Proof.
  destruct (DeleteDocumentStatus_never_fails sample_handler (sample_request "docs" "a.txt")
              (sample_world [Some sample_fault])) as (_ & Hb).
  exact Hb.
Defined.



Lemma RBAC_Check_allows_exactly_witness :
  exists namespace name agent,
    "kagent/helm-agent" = namespace +:+ "/" +:+ name /\
    kube_Get sample_kube namespace name = Ok agent.
Proof.
  destruct (proj1 (RBAC_Check_allows_exactly sample_kube (sample_principal "ann" ["ops"]) "get"
                     (mkResource "Agent" "kagent/helm-agent")) ltac:(run))
    as [Hty|[Hnm|(ns & n & agent & Heq & _ & Hget & _)]].
  - contradiction Hty. reflexivity.
  - discriminate Hnm.
  - exists ns, n, agent. split; assumption.
Defined.

Lemma RBAC_Check_monotone_in_roles_witness :
  RBACAuthorizer_Check sample_kube (sample_principal "bob" ["dev"; "ops"]) "delete"
    (mkResource "Agent" "team/k8s-agent") = None.
Proof.
  apply (RBAC_Check_monotone_in_roles sample_kube (sample_principal "ann" ["ops"])
           (sample_principal "bob" ["dev"; "ops"]) "get" "delete"
           (mkResource "Agent" "team/k8s-agent")).
  - simpl. intros role Hin. inversion Hin as [|? ? ? Hnil]; subst; [|inversion Hnil].
    repeat constructor.
  - run.
Defined.

Lemma formatAgentList_is_Join_witness :
  formatAgentList ["kagent/helm-agent"; "team/k8s-agent"; "team/docs"] =
  strings_Join ["kagent/helm-agent"; "team/k8s-agent"; "team/docs"] ", ".
Proof.
  exact (formatAgentList_is_Join ["kagent/helm-agent"; "team/k8s-agent"; "team/docs"]).
Defined.

Lemma getAgentsUsingRole_lists_users_once_witness :
  getAgentsUsingRole sample_kube "admin" = Ok ["kagent/helm-agent"].
Proof. rewrite (getAgentsUsingRole_lists_users_once sample_kube "admin"). run. Defined.

Lemma DeleteRole_refuses_role_in_use_witness :
  fst (snd (@HandleDeleteRole _ sample_RoleStore sample_roles_handler
              (sample_role_request "admin") (sample_roles, [])))
  = sample_roles.
Proof.
  destruct (@DeleteRole_refuses_role_in_use _ sample_RoleStore sample_roles_handler
              (sample_role_request "admin") sample_roles [] "admin" sample_agents
              (mkAgent "kagent" "helm-agent" ["admin"; "ops"; "admin"])
              eq_refl eq_refl ltac:(repeat constructor) ltac:(repeat constructor))
    as (_ & Hdb).
  exact Hdb.
Defined.

Lemma DeleteRole_success_means_unused_witness :
  exists items,
    kube_List sample_kube = Ok items /\
    Forall (fun agent => "guest" ∉ agent_AllowedRoles agent) items.
Proof.
  destruct (@DeleteRole_success_means_unused _ sample_RoleStore sample_roles_handler
              (sample_role_request "guest") sample_roles [] http_StatusOK data_none
              "Successfully deleted role" ltac:(run))
    as (roleName & items & Hp & _ & Hl & Hall & _).
  injection Hp as <-. exists items. split; assumption.
Defined.

Lemma CreateRole_existing_role_conflict_witness :
  snd (@HandleCreateRole _ sample_RoleStore sample_roles_handler
         (with_create_role "admin" "Again" (sample_role_request "")) (sample_roles, []))
  = (sample_roles, []).
Proof.
  destruct (@CreateRole_existing_role_conflict _ sample_RoleStore sample_roles_handler
              (with_create_role "admin" "Again" (sample_role_request "")) sample_roles []
              (mkCreateRoleRequest "admin" "Again") (mkRole "admin" "Administrators")
              eq_refl ltac:(discriminate) ltac:(run)) as (_ & Hw).
  exact Hw.
Defined.

Lemma ServeHTTP_delegates_exactly_witness :
  ServeHTTP sample_ref "get" sample_mux (sample_vars "kagent" "open-agent")
    (Some (sample_principal "ann" [])) = served_by "open".
Proof.
  apply (proj2 (ServeHTTP_delegates_exactly sample_ref "get" sample_mux
                  (sample_vars "kagent" "open-agent") (Some (sample_principal "ann" []))
                  "open")).
  exists "kagent", "open-agent".
  split; [run|]. split; [discriminate|]. split; [run|]. split; [discriminate|].
  split; [|run].
  right. exists (RBACAuthorizer_Check sample_kube), (sample_principal "ann" []).
  split; [reflexivity|]. split; [reflexivity | run].
Defined.

Lemma ServeHTTP_error_codes_witness :
  passes_authorization "get" sample_mux (Some (sample_principal "ann" ["ops"]))
    (sample_ref "team" "k8s-agent").
Proof.
  destruct (ServeHTTP_error_codes sample_ref "get" sample_mux (sample_vars "team" "k8s-agent")
              (Some (sample_principal "ann" ["ops"])) http_StatusNotFound
              "Agent team/k8s-agent not found" ltac:(run))
    as [H400|[H401|[H403|(_ & ns & n & Hns & Hn & Hpass & _)]]];
    [discriminate H400 | discriminate H401 | discriminate H403 |].
  vm_compute in Hns, Hn. injection Hns as <-. injection Hn as <-. exact Hpass.
Defined.

Lemma ServeHTTP_refusal_hides_registry_witness :
  exists message,
    ServeHTTP sample_ref "get" (RemoveAgentHandler sample_mux "kagent/helm-agent")
      (sample_vars "kagent" "helm-agent") (Some (sample_principal "ann" ["dev"]))
    = respondWithJSONError http_StatusForbidden message.
Proof.
  pose (message :=
          match ServeHTTP sample_ref "get" sample_mux (sample_vars "kagent" "helm-agent")
                  (Some (sample_principal "ann" ["dev"])) with
          | respondWithJSONError _ message => message
          | served_by _ => ""
          end).
  exists message.
  apply (ServeHTTP_refusal_hides_registry sample_ref "get" sample_mux
           (RemoveAgentHandler sample_mux "kagent/helm-agent")
           (sample_vars "kagent" "helm-agent") (Some (sample_principal "ann" ["dev"]))
           http_StatusForbidden message);
    [reflexivity | run | discriminate].
Defined.

Lemma SetAgentHandler_then_ServeHTTP_witness :
  ServeHTTP sample_ref "get" (snd (SetAgentHandler sample_mux "team/k8s-agent" (Ok "k8s")))
    (sample_vars "team" "k8s-agent") (Some (sample_principal "ann" ["ops"]))
  = served_by "k8s".
Proof.
  assert (Hpass : passes_authorization "get" sample_mux
                    (Some (sample_principal "ann" ["ops"])) "team/k8s-agent").
  { right. exists (RBACAuthorizer_Check sample_kube), (sample_principal "ann" ["ops"]).
    split; [reflexivity|]. split; [reflexivity | run]. }
  destruct (SetAgentHandler_then_ServeHTTP sample_ref "get" sample_mux "team/k8s-agent" "k8s"
              (sample_vars "team" "k8s-agent") (Some (sample_principal "ann" ["ops"]))
              "team" "k8s-agent" ltac:(run) ltac:(discriminate) ltac:(run)
              ltac:(discriminate) eq_refl Hpass)
    as (_ & Hserved).
  exact Hserved.
Defined.

Lemma RemoveAgentHandler_then_ServeHTTP_witness :
  sample_ref "kagent" "open-agent" <> "kagent/helm-agent".
Proof.
  destruct (RemoveAgentHandler_then_ServeHTTP sample_ref "get" sample_mux "kagent/helm-agent"
              (sample_vars "kagent" "open-agent") (Some (sample_principal "ann" [])) "open"
              ltac:(run)) as (ns & n & Hns & Hn & Hne).
  vm_compute in Hns, Hn. injection Hns as <-. injection Hn as <-. exact Hne.
Defined.

Lemma Gateway_RBAC_serves_exactly_witness :
  ServeHTTP sample_ref "get" sample_mux (sample_vars "kagent" "helm-agent")
    (Some (sample_principal "root" ["admin"])) = served_by "helm".
Proof.
  apply (proj2 (Gateway_RBAC_serves_exactly sample_ref "get" sample_kube sample_mux
                  (sample_vars "kagent" "helm-agent") (sample_principal "root" ["admin"])
                  "kagent" "helm-agent" "helm" eq_refl ltac:(run) ltac:(discriminate)
                  ltac:(run) ltac:(discriminate) eq_refl eq_refl)).
  split; [run|].
  exists (mkAgent "kagent" "helm-agent" ["admin"; "ops"; "admin"]).
  split; [run|]. right. exists "admin". split; repeat constructor.
Defined.
